(** * OHS27 ACH auto-email map/reduce script

    A shallow embedding of [tsc_mr_ohs27_auto_ach_email.js], in the revision
    with the side-channel keys, and the properties of its four entry points:
    [getInputData], [map], [reduce] and [summarize], with the helpers
    [searchRelatedEmailTemplate] and [generateIndividualPaymentVoucher].  The
    earlier revision has the same [getInputData] and helpers; its [reduce],
    which lacks the side-channel branch, is embedded as [reduce_earlier].

    The script runs inside a map/reduce host.  Everything the host and the
    platform modules ([N/search], [N/runtime], [N/render], [N/email],
    [N/file], [N/record]) decide is gathered in a [world]; everything the
    script changes is gathered in a [state].  Script code is written in a
    state-and-exception monad so that [try]/[catch] keeps the effects made
    before the throw, as in JavaScript. *)

From Stdlib Require Import ZArith String Ascii List Bool DecimalString Lia.
From stdpp Require Import gmap strings.
Import ListNotations.

Set Warnings "-register-all".

Open Scope string_scope.
Open Scope list_scope.
Open Scope Z_scope.

(** ** JavaScript values *)

(** The values the script manipulates: what [JSON.parse] returns, plus
    [undefined] (a missing property) and function objects (the only one a
    parsed value can yield is [Array.prototype.values], reached by
    [searchResult.values] when the parsed row is an array).  Numbers are
    restricted to integers; search rows carry their fields as strings. *)
Inductive jsval : Type :=
| JUndefined
| JNull
| JBool (b : bool)
| JNum (n : Z)
| JStr (s : string)
| JArr (items : list jsval)
| JObj (fields : list (string * jsval))
| JFun (fname : string).

(** [!v] is [negb (truthy v)]. *)
Definition truthy (v : jsval) : bool :=
  match v with
  | JUndefined | JNull => false
  | JBool b => b
  | JNum n => negb (n =? 0)
  | JStr s => negb (String.eqb s EmptyString)
  | JArr _ | JObj _ | JFun _ => true
  end.

(** [a || b] *)
Definition js_or (a b : jsval) : jsval := if truthy a then a else b.

Definition nullish (v : jsval) : bool :=
  match v with JUndefined | JNull => true | _ => false end.

Definition string_of_Z (n : Z) : string := NilZero.string_of_int (Z.to_int n).

(** [ToString], as used by [+] with a string operand and by template
    literals.  Arrays print their items joined by commas, [null] and
    [undefined] items as the empty string.  Numbers are integers and print
    in full, as the engine prints those below 10^21 in magnitude; the ids
    and counts the script prints are of that kind. *)
Fixpoint to_string (v : jsval) : string :=
  match v with
  | JUndefined => "undefined"
  | JNull => "null"
  | JBool true => "true"
  | JBool false => "false"
  | JNum n => string_of_Z n
  | JStr s => s
  | JArr items =>
      String.concat ","
        (List.map (fun x => match x with
                            | JUndefined | JNull => EmptyString
                            | _ => to_string x
                            end) items)
  | JObj _ => "[object Object]"
  | JFun f => "function " +:+ f +:+ "() { [native code] }"
  end.

Fixpoint assoc (k : string) (fields : list (string * jsval)) : option jsval :=
  match fields with
  | [] => None
  | (k', v) :: rest => if String.eqb k k' then Some v else assoc k rest
  end.

(** Property read on a value that is neither [null] nor [undefined]: own
    properties of objects, [values] on arrays, [undefined] otherwise.  None
    of the other names the script reads ([account], [entity], [trandate],
    [tranid], [email.vendor], [postingperiod], [value], [text], [orderId],
    [recordId], [accountId], [entityId], [errorNote]) exists on a built-in
    prototype. *)
Definition get (v : jsval) (k : string) : jsval :=
  match v with
  | JObj fields => match assoc k fields with Some x => x | None => JUndefined end
  | JArr _ => if String.eqb k "values" then JFun "values" else JUndefined
  | _ => JUndefined
  end.

(** ** Exceptions and results *)

Record exn : Type := Exn { exn_name : string; message : string }.

Inductive result (A : Type) : Type :=
| Ok (a : A)
| Throw (e : exn).
Arguments Ok {A} a.
Arguments Throw {A} e.

Definition Error (msg : string) : exn := Exn "Error" msg.
Definition TypeError (msg : string) : exn := Exn "TypeError" msg.
Definition SyntaxError (msg : string) : exn := Exn "SyntaxError" msg.
Definition ReferenceError (msg : string) : exn := Exn "ReferenceError" msg.

(** [v.k] and [v[k]]: a [TypeError] on [null] and [undefined] (the wording of
    the message is the engine's). *)
Definition get_prop (v : jsval) (k : string) : result jsval :=
  if nullish v
  then Throw (TypeError ("Cannot read property '" +:+ k +:+ "' of " +:+ to_string v))
  else Ok (get v k).

(** ** Serialized JSON *)

(** A string handed from one stage to the next is kept as what [JSON.parse]
    makes of it: the value it denotes, or the [SyntaxError] message of a text
    that is not JSON.  The script does nothing else with such strings. *)
Inductive jsonText : Type :=
| Serialized (v : jsval)
| Malformed (msg : string).

Definition JSON_parse (t : jsonText) : result jsval :=
  match t with
  | Serialized v => Ok v
  | Malformed msg => Throw (SyntaxError msg)
  end.

(** What [JSON.stringify] keeps of a value: properties holding [undefined] or
    a function are dropped, such array items become [null]. *)
Definition json_item (to_json : jsval -> jsval) (x : jsval) : jsval :=
  match x with
  | JUndefined | JFun _ => JNull
  | _ => to_json x
  end.

Definition json_field (to_json : jsval -> jsval) (kv : string * jsval)
  : list (string * jsval) :=
  match kv with
  | (_, JUndefined) | (_, JFun _) => []
  | (k, x) => [(k, to_json x)]
  end.

Fixpoint to_json (v : jsval) : jsval :=
  match v with
  | JArr items => JArr (List.map (json_item to_json) items)
  | JObj fields => JObj (List.flat_map (json_field to_json) fields)
  | _ => v
  end.

(** [JSON.stringify] of an object or array (the script passes nothing else). *)
Definition JSON_stringify (v : jsval) : jsonText := Serialized (to_json v).

(** [s.split(c)] for a one-character separator: never empty. *)
Fixpoint split (sep : ascii) (s : string) : list string :=
  match s with
  | EmptyString => [EmptyString]
  | String c rest =>
      if Ascii.eqb c sep then EmptyString :: split sep rest
      else match split sep rest with
           | [] => [String c EmptyString]
           | piece :: pieces => String c piece :: pieces
           end
  end.

(** [parts[i]] of an array of strings. *)
Definition index (parts : list string) (i : nat) : jsval :=
  match nth_error parts i with
  | Some s => JStr s
  | None => JUndefined
  end.

(** ** What the script sees and what it changes *)

Module MapContext.
Record t : Type := Build { key : string; value : jsonText }.
End MapContext.

Module ReduceContext.
Record t : Type := Build { key : string; values : list jsonText }.
End ReduceContext.

Module SummaryContext.
(** [output]: the key/value pairs written by [reduce], in the order the
    iterator yields them. *)
Record t : Type := Build {
  output : list (string * jsonText);
  inputSummary_totalRecords : jsval;
  usage : jsval;
  concurrency : jsval;
  yields : jsval
}.
End SummaryContext.

(** A file object made by [file.create]. *)
Record fileObj : Type := {
  file_name : string;
  fileType : string;
  contents : string;
  folder : Z
}.

(** The argument of [email.send]. *)
Record emailObj : Type := {
  author : jsval;
  recipients : jsval;
  subject : string;
  body : string;
  attachments : list fileObj;
  isHtml : bool
}.

Record bucketReport : Type := {
  count : nat;
  details : list jsval
}.

Record summaryReport : Type := {
  totalRecordsProcessed : jsval;
  successfullyProcessed : nat;
  skippedRecords : bucketReport;
  errorRecords : bucketReport
}.

Inductive logLevel : Type := DEBUG | AUDIT | ERROR.

Inductive logDetails : Type :=
| LVal (v : jsval)
| LErr (e : exn)
| LInput (key : string) (value : jsonText)
| LTexts (values : list jsonText)
| LFiles (files : list fileObj)
| LEmail (e : emailObj)
| LReport (r : summaryReport).

Record logEntry : Type := {
  level : logLevel;
  title : string;
  logged : logDetails
}.

(** The platform, as far as the script depends on it. *)
Record world : Type := {
  (** [runtime.getCurrentScript().getParameter({name})] *)
  getParameter : string -> jsval;
  (** [search.load({id})] with [runPaged()]: the rows of the saved search,
      which the host then feeds to [map]; throws when the search cannot be
      loaded. *)
  search_load : jsval -> result (list MapContext.t);
  (** The template ids of the rows of the account-to-template mapping found
      for an account ([search.create(...).run().getRange(...)]). *)
  emailTemplateSearch : jsval -> result (list jsval);
  (** [render.create()] ... [renderAsPdf().getContents()] for one payment,
      given the print template parameter and the transaction id; covers the
      record load made for the renderer. *)
  renderAsPdf : jsval -> jsval -> result string;
  (** [render.mergeEmail] given the template id and the ids of author and
      vendor as the script holds them (it hands [parseInt] of each to the
      platform): subject and body of the merged message; throws when the
      platform refuses the merge. *)
  mergeEmail : jsval -> jsval -> jsval -> result (string * string);
  (** [email.send]: throws when the transport refuses the message. *)
  email_send : emailObj -> result unit;
  (** [record.load] of a vendor payment: the internal id of the record. *)
  record_load : jsval -> result string;
  (** [save()] of a loaded vendor payment. *)
  record_save : string -> result unit;
  (** run statistics the host hands to [summarize]: total records, usage,
      concurrency, yields *)
  statistics : jsval * jsval * jsval * jsval
}.

Record state : Type := {
  (** entries written through [log], oldest first *)
  log : list logEntry;
  (** [mapContext.write] calls, oldest first *)
  mapOutput : list (string * jsonText);
  (** [reduceContext.write] calls, oldest first *)
  reduceOutput : list (string * jsonText);
  (** [email.send] calls with their outcome ([true]: accepted), oldest first *)
  mail : list (emailObj * bool);
  (** the email-sent checkbox of the stored vendor payments, by internal id *)
  emailSent : gmap string bool
}.

Definition initial : state :=
  {| log := []; mapOutput := []; reduceOutput := []; mail := []; emailSent := ∅ |}.

(** ** The script monad *)

Definition M (A : Type) : Type := state -> result A * state.

Definition ret {A} (a : A) : M A := fun st => (Ok a, st).

Definition bind {A B} (m : M A) (k : A -> M B) : M B :=
  fun st => match m st with
            | (Ok a, st') => k a st'
            | (Throw e, st') => (Throw e, st')
            end.

Definition throw {A} (e : exn) : M A := fun st => (Throw e, st).

(** [try { m } catch (e) { handler e }] *)
Definition try_catch {A} (m : M A) (handler : exn -> M A) : M A :=
  fun st => match m st with
            | (Ok a, st') => (Ok a, st')
            | (Throw e, st') => handler e st'
            end.

Definition lift {A} (r : result A) : M A := fun st => (r, st).

Notation "x <- c ;; k" := (bind c (fun x => k))
  (at level 100, c at next level, right associativity).
Notation "c ;; k" := (bind c (fun _ => k))
  (at level 100, right associativity).

(** [items.forEach(f)] *)
Fixpoint forEach {A} (f : A -> M unit) (items : list A) : M unit :=
  match items with
  | [] => ret tt
  | x :: rest => f x ;; forEach f rest
  end.

(** [items.map(f)], collecting into an array pushed to in order *)
Fixpoint mapM {A B} (f : A -> M B) (items : list A) : M (list B) :=
  match items with
  | [] => ret []
  | x :: rest => y <- f x ;; ys <- mapM f rest ;; ret (y :: ys)
  end.

Definition prop (v : jsval) (k : string) : M jsval := lift (get_prop v k).

Definition log_write (l : logLevel) (t : string) (d : logDetails) : M unit :=
  fun st => (Ok tt,
             {| log := log st ++ [{| level := l; title := t; logged := d |}];
                mapOutput := mapOutput st; reduceOutput := reduceOutput st;
                mail := mail st; emailSent := emailSent st |}).

Definition log_debug := log_write DEBUG.
Definition log_audit := log_write AUDIT.
Definition log_error := log_write ERROR.

Definition mapContext_write (k : string) (v : jsonText) : M unit :=
  fun st => (Ok tt,
             {| log := log st; mapOutput := mapOutput st ++ [(k, v)];
                reduceOutput := reduceOutput st;
                mail := mail st; emailSent := emailSent st |}).

Definition reduceContext_write (k : string) (v : jsonText) : M unit :=
  fun st => (Ok tt,
             {| log := log st; mapOutput := mapOutput st;
                reduceOutput := reduceOutput st ++ [(k, v)];
                mail := mail st; emailSent := emailSent st |}).

(** ** Constants of the script *)

Definition SCRIPT_PARAM_ELIGIBLE_ACH_PAYMENTS_SEARCH : string :=
  "custscript_tsc_ohs27_eligible_ach_paymen".
Definition SCRIPT_PARAM_EMAIL_AUTHOR : string := "custscript_tsc_ohs27_email_author".
Definition SCRIPT_PARAM_PRINT_TEMPLATE_ID : string :=
  "custscript_tsc_ohs27_print_template_id".
Definition VENDOR_PAYMENT_FIELD_EMAIL_SENT : string := "custbody_tsc_ach_auto_email_sent".

Definition SKIPPED_RECORDS : string := "SKIPPED_RECORDS".
Definition ERROR_RECORDS : string := "ERROR_RECORDS".

(** The underscore that joins and splits a group key. *)
Definition underscore : ascii := "_"%char.

Section Script.

Variable w : world.

(** ** getInputData *)

Definition missingParams (searchId printTemplateId authorId : jsval) : list string :=
  (if truthy searchId then [] else ["Eligible ACH Payments Search"]) ++
  (if truthy printTemplateId then [] else ["Print Template ID"]) ++
  (if truthy authorId then [] else ["Email Author"]).

Definition getInputData : M (list MapContext.t) :=
  try_catch
    (let searchId := getParameter w SCRIPT_PARAM_ELIGIBLE_ACH_PAYMENTS_SEARCH in
     let printTemplateId := getParameter w SCRIPT_PARAM_PRINT_TEMPLATE_ID in
     let authorId := getParameter w SCRIPT_PARAM_EMAIL_AUTHOR in
     log_audit "Script Parameters"
       (LVal (JObj [("searchId", searchId);
                    ("printTemplateId", printTemplateId);
                    ("authorId", authorId)])) ;;
     let missing := missingParams searchId printTemplateId authorId in
     if (0 <? length missing)%nat
     then throw (Error ("Required script parameter(s) not configured: "
                        +:+ String.concat ", " missing))
     else
       try_catch
         (searchObj <- lift (search_load w searchId) ;;
          let resultCount := Z.of_nat (length searchObj) in
          log_audit "Input Data Records"
            (LVal (JStr ("Found " +:+ string_of_Z resultCount
                         +:+ " eligible payment records to process"))) ;;
          ret searchObj)
         (fun loadError =>
            throw (Error ("Invalid search ID (" +:+ to_string searchId +:+ "): "
                          +:+ message loadError))))
    (fun e => log_error "Error in getInputData" (LErr e) ;; throw e).

(** ** map *)

(** Lines 95-102: the labels pushed to [missingFields], in order.  [values]
    has just been read from, so it is neither [null] nor [undefined], and the
    [.value] reads are guarded by the truth of their operand: none of the
    reads can throw. *)
Definition missingFields (values : jsval) : list string :=
  (if negb (truthy (get values "account"))
      || negb (truthy (get (get values "account") "value"))
   then ["account"] else []) ++
  (if negb (truthy (get values "entity"))
      || negb (truthy (get (get values "entity") "value"))
   then ["entity"] else []) ++
  (if negb (truthy (get values "trandate")) then ["transaction date"] else []) ++
  (if negb (truthy (get values "tranid")) then ["transaction ID"] else []) ++
  (if negb (truthy (get values "email.vendor")) then ["vendor email"] else []).

Definition skippedEntry (recordId : string) (values : jsval) (missing : list string) : jsval :=
  JObj [("recordId", JStr recordId);
        ("tranid", js_or (get values "tranid") (JStr "N/A"));
        ("entity", if truthy (get values "entity")
                   then js_or (get (get values "entity") "text") (JStr "N/A")
                   else JStr "N/A");
        ("accountId", if truthy (get values "account")
                      then js_or (get (get values "account") "value") (JStr "N/A")
                      else JStr "N/A");
        ("entityId", if truthy (get values "entity")
                     then js_or (get (get values "entity") "value") (JStr "N/A")
                     else JStr "N/A");
        ("errorNote", JStr ("Missing required fields: " +:+ String.concat ", " missing));
        ("missingFields", JArr (List.map JStr missing))].

(** The key the order is written under (the script calls it [accountId]). *)
Definition groupKey (values : jsval) : string :=
  to_string (get (get values "account") "value") +:+ "_"
  +:+ to_string (get (get values "entity") "value").

Definition orderObj (orderId : string) (values : jsval) : jsval :=
  JObj [("orderId", JStr orderId);
        ("accountId", JStr (groupKey values));
        ("orderDate", get values "trandate");
        ("postingPeriod", if truthy (get values "postingperiod")
                          then get (get values "postingperiod") "text"
                          else JStr EmptyString);
        ("orderNumber", get values "tranid");
        ("entity", get (get values "entity") "text");
        ("vendorEmail", js_or (get values "email.vendor") (JStr EmptyString))].

(** The [try] block of [map]. *)
Definition map_try (mapContext : MapContext.t) : M unit :=
  log_debug "Map Input"
    (LInput (MapContext.key mapContext) (MapContext.value mapContext)) ;;
  searchResult <- lift (JSON_parse (MapContext.value mapContext)) ;;
  values <- prop searchResult "values" ;;
  _ <- prop values "account" ;;
  let missing := missingFields values in
  if (0 <? length missing)%nat then
    log_error "Skipping record with missing required fields"
      (LVal (JStr ("Record ID: " +:+ MapContext.key mapContext
                   +:+ ", Missing fields: " +:+ String.concat ", " missing))) ;;
    mapContext_write SKIPPED_RECORDS
      (JSON_stringify (skippedEntry (MapContext.key mapContext) values missing))
  else
    mapContext_write (groupKey values)
      (JSON_stringify (orderObj (MapContext.key mapContext) values)).

Definition errorEntry (recordId : string) (values : jsval) (e : exn) : jsval :=
  JObj [("recordId", JStr recordId);
        ("tranid", if truthy values && truthy (get values "tranid")
                   then get values "tranid" else JStr "N/A");
        ("entity", if truthy values && truthy (get values "entity")
                   then get (get values "entity") "text" else JStr "N/A");
        ("accountId", if truthy values && truthy (get values "account")
                      then get (get values "account") "value" else JStr "N/A");
        ("entityId", if truthy values && truthy (get values "entity")
                     then get (get values "entity") "value" else JStr "N/A");
        ("errorNote", JStr ("Error processing record: " +:+ message e));
        ("error", JStr (message e))].

(** The [catch] block of [map].  It reads the identifier [values]; the
    argument is what that identifier is bound to where the block stands, if
    anything.  Evaluating the argument of [mapContext.write] comes first, so
    an unbound identifier throws before anything is written or logged. *)
Definition map_catch (values_binding : option jsval)
    (mapContext : MapContext.t) (e : exn) : M unit :=
  match values_binding with
  | None => throw (ReferenceError "values is not defined")
  | Some values =>
      mapContext_write ERROR_RECORDS
        (JSON_stringify (errorEntry (MapContext.key mapContext) values e)) ;;
      log_error "Error processing record in map function"
        (LVal (JStr ("Record ID: " +:+ MapContext.key mapContext
                     +:+ ", Error: " +:+ message e)))
  end.

(** [const values] is declared inside the [try] block (line 92), so it is
    not in scope in the [catch] block; neither the parameters of [map] and of
    the enclosing module function, nor the module's own constants and
    functions, nor the host's globals are called [values]. *)
Definition map (mapContext : MapContext.t) : M unit :=
  try_catch (map_try mapContext) (map_catch None mapContext).

(** ** searchRelatedEmailTemplate *)

Definition searchRelatedEmailTemplate (accountId : jsval) : M jsval :=
  try_catch
    (searchResult <- lift (emailTemplateSearch w accountId) ;;
     match searchResult with
     | first :: _ => ret first
     | [] => throw (Error ("No email template found for account ID: "
                           +:+ to_string accountId))
     end)
    (fun e => log_error "searchRelatedEmailTemplate" (LErr e) ;; throw e).

(** ** generateIndividualPaymentVoucher *)

Definition voucherFile (transactionId : jsval) (pdfContent : string) : fileObj :=
  {| file_name := "ACH_Payment_" +:+ to_string transactionId +:+ ".pdf";
     fileType := "PDF";
     contents := pdfContent;
     folder := 36472 |}.

(** The body of the [forEach]: [pdfFiles] is the array being filled. *)
Definition renderVoucher (pdfFiles : list fileObj) (transactionId : jsval)
  : M (list fileObj) :=
  try_catch
    (pdfContent <- lift (renderAsPdf w (getParameter w SCRIPT_PARAM_PRINT_TEMPLATE_ID)
                           transactionId) ;;
     ret (pdfFiles ++ [voucherFile transactionId pdfContent]))
    (fun e =>
       log_error ("Error generating PDF for transaction " +:+ to_string transactionId)
         (LErr e) ;;
       ret pdfFiles).

Fixpoint foldM {A B} (f : B -> A -> M B) (items : list A) (acc : B) : M B :=
  match items with
  | [] => ret acc
  | x :: rest => acc' <- f acc x ;; foldM f rest acc'
  end.

Definition generateIndividualPaymentVoucher (transactionIds : list jsval)
  : M (list fileObj) :=
  foldM renderVoucher transactionIds [].

(** ** reduce *)

(** [email.send(emailObj)], recorded with its outcome. *)
Definition email_send_call (e : emailObj) : M unit :=
  fun st =>
    match email_send w e with
    | Ok _ =>
        (Ok tt, {| log := log st; mapOutput := mapOutput st;
                   reduceOutput := reduceOutput st;
                   mail := mail st ++ [(e, true)]; emailSent := emailSent st |})
    | Throw x =>
        (Throw x, {| log := log st; mapOutput := mapOutput st;
                     reduceOutput := reduceOutput st;
                     mail := mail st ++ [(e, false)]; emailSent := emailSent st |})
    end.

(** [vendorPaymentRecord.setValue({fieldId: VENDOR_PAYMENT_FIELD_EMAIL_SENT,
    value: true}); vendorPaymentRecord.save()] on the record loaded as
    [internalId]: the stored checkbox changes when the save goes through. *)
Definition save_email_sent (internalId : string) : M unit :=
  fun st =>
    match record_save w internalId with
    | Ok _ =>
        (Ok tt, {| log := log st; mapOutput := mapOutput st;
                   reduceOutput := reduceOutput st; mail := mail st;
                   emailSent := <[internalId := true]> (emailSent st) |})
    | Throw x => (Throw x, st)
    end.

(** The body of the [forEach] of lines 254-265. *)
Definition markEmailSent (transactionId : jsval) : M unit :=
  vendorPaymentRecord <- lift (record_load w transactionId) ;;
  save_email_sent vendorPaymentRecord.

(** Lines 251-268 (190-207 in the earlier revision). *)
Definition sendAndMark (e : emailObj) (transactionsId : list jsval) : M unit :=
  try_catch
    (email_send_call e ;; forEach markEmailSent transactionsId)
    (fun sendEmailError => log_error "sendEmail" (LErr sendEmailError)).

Definition orderIdOf (value : jsonText) : M jsval :=
  orderObj <- lift (JSON_parse value) ;;
  prop orderObj "orderId".

(** The [emailObj] of lines 241-247. *)
Definition groupEmail (mergeResult : string * string) (authorId vendorId : jsval)
    (pdfFiles : list fileObj) : emailObj :=
  {| author := authorId;
     recipients := vendorId;
     subject := fst mergeResult;
     body := snd mergeResult;
     attachments := pdfFiles;
     isHtml := false |}.

(** Lines 206-268: an ordinary group.  This is the whole [try] block of
    [reduce] in the earlier revision. *)
Definition processGroup (reduceContext : ReduceContext.t) : M unit :=
  log_debug (ReduceContext.key reduceContext)
    (LTexts (ReduceContext.values reduceContext)) ;;
  let vendorId := index (split underscore (ReduceContext.key reduceContext)) 1 in
  let accountId := index (split underscore (ReduceContext.key reduceContext)) 0 in
  emailTemplateId <- searchRelatedEmailTemplate accountId ;;
  log_debug "Email Template ID" (LVal emailTemplateId) ;;
  let authorId := getParameter w SCRIPT_PARAM_EMAIL_AUTHOR in
  log_debug "Email Author ID" (LVal authorId) ;;
  transactionsId <- mapM orderIdOf (ReduceContext.values reduceContext) ;;
  log_debug "Transactions ID" (LVal (JArr transactionsId)) ;;
  pdfFiles <- generateIndividualPaymentVoucher transactionsId ;;
  log_debug "Generated PDF Files" (LFiles pdfFiles) ;;
  mergeResult <- lift (mergeEmail w emailTemplateId authorId vendorId) ;;
  let e := groupEmail mergeResult authorId vendorId pdfFiles in
  log_debug "Email Object" (LEmail e) ;;
  sendAndMark e transactionsId.

Definition is_reserved (key : string) : bool :=
  String.eqb key SKIPPED_RECORDS || String.eqb key ERROR_RECORDS.

(** Lines 189-205: a side-channel key is passed through. *)
Definition passThrough (reduceContext : ReduceContext.t) : M unit :=
  records <- mapM (fun value => lift (JSON_parse value))
               (ReduceContext.values reduceContext) ;;
  reduceContext_write (ReduceContext.key reduceContext)
    (JSON_stringify (JArr records)).

Definition reduce (reduceContext : ReduceContext.t) : M unit :=
  try_catch
    (if is_reserved (ReduceContext.key reduceContext)
     then passThrough reduceContext
     else processGroup reduceContext)
    (fun e => log_error "reduce" (LErr e)).

(** [reduce] of the earlier revision, which has no side-channel keys. *)
Definition reduce_earlier (reduceContext : ReduceContext.t) : M unit :=
  try_catch (processGroup reduceContext) (fun e => log_error "reduce" (LErr e)).

(** ** summarize *)

(** [v.length] of a value [JSON.parse] returned: the number of items of an
    array, the own property of an object, the number of characters of a
    string (of code units in the engine; the two agree on ASCII text). *)
Definition js_length (v : jsval) : result jsval :=
  match v with
  | JUndefined | JNull => Throw (TypeError ("Cannot read property 'length' of "
                                            +:+ to_string v))
  | JArr items => Ok (JNum (Z.of_nat (length items)))
  | JStr s => Ok (JNum (Z.of_nat (String.length s)))
  | JObj _ => Ok (get v "length")
  | _ => Ok JUndefined
  end.

(** The three variables the output loop assigns. *)
Record tally : Type := {
  skipped : jsval;
  errors : jsval;
  processedRecordsCount : nat
}.

(** The callback of [summaryContext.output.iterator().each] (lines 302-314). *)
Definition eachOutput (t : tally) (kv : string * jsonText) : M tally :=
  let (key, value) := kv in
  if String.eqb key SKIPPED_RECORDS then
    parsed <- lift (JSON_parse value) ;;
    n <- lift (js_length parsed) ;;
    log_audit "Skipped Records"
      (LVal (JStr ("Found " +:+ to_string n +:+ " skipped records"))) ;;
    ret {| skipped := parsed; errors := errors t;
           processedRecordsCount := processedRecordsCount t |}
  else if String.eqb key ERROR_RECORDS then
    parsed <- lift (JSON_parse value) ;;
    n <- lift (js_length parsed) ;;
    log_audit "Error Records"
      (LVal (JStr ("Found " +:+ to_string n +:+ " error records"))) ;;
    ret {| skipped := skipped t; errors := parsed;
           processedRecordsCount := processedRecordsCount t |}
  else
    ret {| skipped := skipped t; errors := errors t;
           processedRecordsCount := S (processedRecordsCount t) |}.

(** The arrow function of lines 322-329 and 333-340. *)
Definition detail (record : jsval) : M jsval :=
  recordId <- prop record "recordId" ;;
  ret (JObj [("recordId", recordId);
             ("tranid", get record "tranid");
             ("entity", get record "entity");
             ("accountId", get record "accountId");
             ("entityId", get record "entityId");
             ("errorNote", get record "errorNote")]).

(** [{ count: records.length, details: records.map(...) }]; [map] exists on
    arrays only. *)
Definition bucket (variable : string) (records : jsval) : M bucketReport :=
  _ <- lift (js_length records) ;;
  match records with
  | JArr items =>
      ds <- mapM detail items ;;
      ret {| count := length items; details := ds |}
  | _ => throw (TypeError (variable +:+ ".map is not a function"))
  end.

Definition newline : string := String (ascii_of_nat 10) EmptyString.
Definition quote : string := String (ascii_of_nat 34) EmptyString.

Fixpoint spaces (n : nat) : string :=
  match n with
  | O => EmptyString
  | S n' => String " "%char (spaces n')
  end.

(** One line of a template literal: the line break, the indentation of the
    source line, and its text. *)
Definition line (indent : nat) (text : string) : string :=
  newline +:+ spaces indent +:+ text.

Definition reportHeader (r : summaryReport) : string :=
  line 20 "<h2>ACH Payment Processing Report</h2>"
  +:+ line 20 ("<p>Total Records: " +:+ to_string (totalRecordsProcessed r) +:+ "</p>")
  +:+ line 20 ("<p>Successfully Processed: "
               +:+ string_of_Z (Z.of_nat (successfullyProcessed r)) +:+ "</p>").

Definition skippedTableHead (n : nat) : string :=
  line 24 ("<h3>Skipped Records (" +:+ string_of_Z (Z.of_nat n) +:+ ")</h3>")
  +:+ line 24 ("<table border=" +:+ quote +:+ "1" +:+ quote
               +:+ " cellpadding=" +:+ quote +:+ "4" +:+ quote +:+ ">")
  +:+ line 28 "<tr>"
  +:+ line 32 "<th>Transaction ID</th>"
  +:+ line 32 "<th>Vendor</th>"
  +:+ line 32 "<th>Account</th>"
  +:+ line 32 "<th>Error Description</th>"
  +:+ line 28 "</tr>".

Definition skippedRow (record : jsval) : string :=
  line 28 "<tr>"
  +:+ line 32 ("<td>" +:+ to_string (get record "tranid") +:+ "</td>")
  +:+ line 32 ("<td>" +:+ to_string (get record "entity") +:+ "</td>")
  +:+ line 32 ("<td>" +:+ to_string (get record "accountId") +:+ "</td>")
  +:+ line 32 ("<td>" +:+ to_string (get record "errorNote") +:+ "</td>")
  +:+ line 28 "</tr>".

(** Lines 352-384; the table of the error records is left out by the script. *)
Definition bodyHtml (r : summaryReport) (skippedItems : list jsval) : string :=
  reportHeader r
  +:+ (if (0 <? length skippedItems)%nat
       then skippedTableHead (length skippedItems)
            +:+ String.concat EmptyString (List.map skippedRow skippedItems)
            +:+ "</table>"
       else EmptyString).

Definition items_of (v : jsval) : list jsval :=
  match v with JArr items => items | _ => [] end.

(** Lines 347-394. *)
Definition notify (r : summaryReport) (t : tally) : M unit :=
  let skippedItems := items_of (skipped t) in
  let errorItems := items_of (errors t) in
  if (0 <? length skippedItems)%nat || (0 <? length errorItems)%nat then
    let recipient := JStr "admin@yourcompany.com" in
    let subject := "ACH Payment Processing Report: "
                   +:+ string_of_Z (Z.of_nat (length skippedItems)) +:+ " Skipped, "
                   +:+ string_of_Z (Z.of_nat (length errorItems)) +:+ " Errors" in
    email_send_call
      {| author := getParameter w SCRIPT_PARAM_EMAIL_AUTHOR;
         recipients := recipient;
         subject := subject;
         body := bodyHtml r skippedItems;
         attachments := [];
         isHtml := true |}
  else ret tt.

(** Lines 297-342: the report, from the output of the reduce stage. *)
Definition buildReport (summaryContext : SummaryContext.t) : M (summaryReport * tally) :=
  t <- foldM eachOutput (SummaryContext.output summaryContext)
         {| skipped := JArr []; errors := JArr []; processedRecordsCount := 0 |} ;;
  skippedBucket <- bucket "skippedRecords" (skipped t) ;;
  errorBucket <- bucket "errorRecords" (errors t) ;;
  ret ({| totalRecordsProcessed := SummaryContext.inputSummary_totalRecords summaryContext;
          successfullyProcessed := processedRecordsCount t;
          skippedRecords := skippedBucket;
          errorRecords := errorBucket |}, t).

Definition summarize (summaryContext : SummaryContext.t) : M unit :=
  try_catch
    (rt <- buildReport summaryContext ;;
     let (summaryReport, t) := (rt : summaryReport * tally) in
     log_audit "Processing Summary" (LReport summaryReport) ;;
     notify summaryReport t ;;
     log_audit "Usage units consumed" (LVal (SummaryContext.usage summaryContext)) ;;
     log_audit "Concurrency" (LVal (SummaryContext.concurrency summaryContext)) ;;
     log_audit "Number of yields" (LVal (SummaryContext.yields summaryContext)))
    (fun e => log_error "Error in summarize stage" (LErr e)).

(** ** The host *)

(** The host calls an entry point once per item; an error that escapes the
    entry point stays with the host, which goes on with the next item. *)
Fixpoint stage {A} (entry : A -> M unit) (items : list A) (st : state) : state :=
  match items with
  | [] => st
  | x :: rest => stage entry rest (snd (entry x st))
  end.

(** The shuffle between map and reduce: the values written under one key
    form one group, keys and values in the order of their first writing. *)
Fixpoint addToGroup (k : string) (v : jsonText) (groups : list ReduceContext.t)
  : list ReduceContext.t :=
  match groups with
  | [] => [ReduceContext.Build k [v]]
  | g :: rest =>
      if String.eqb k (ReduceContext.key g)
      then ReduceContext.Build k (ReduceContext.values g ++ [v]) :: rest
      else g :: addToGroup k v rest
  end.

Definition shuffle (written : list (string * jsonText)) : list ReduceContext.t :=
  fold_left (fun groups kv => addToGroup (fst kv) (snd kv) groups) written [].

Definition summaryContextOf (st : state) : SummaryContext.t :=
  let '(total, usage, concurrency, yields) := statistics w in
  SummaryContext.Build (reduceOutput st) total usage concurrency yields.

(** The stages after [getInputData], on the rows it returned. *)
Definition stages (rows : list MapContext.t) (st : state) : state :=
  let st1 := stage map rows st in
  let st2 := stage reduce (shuffle (mapOutput st1)) st1 in
  snd (summarize (summaryContextOf st2) st2).

(** A whole run: an error thrown by [getInputData] halts it. *)
Definition run (st : state) : state :=
  match getInputData st with
  | (Ok rows, st') => stages rows st'
  | (Throw _, st') => st'
  end.

End Script.

(** ** The earlier revision *)

(** [getInputData], [searchRelatedEmailTemplate] and
    [generateIndividualPaymentVoucher] are those above, [reduce] is
    [reduce_earlier]; [map], [summarize] and [sendEmail] follow. *)

Definition orderObj_earlier (orderId : string) (values : jsval) : jsval :=
  JObj [("orderId", JStr orderId);
        ("accountId", JStr (groupKey values));
        ("orderDate", js_or (get values "trandate") (JStr EmptyString));
        ("postingPeriod", if truthy (get values "postingperiod")
                          then get (get values "postingperiod") "text"
                          else JStr EmptyString);
        ("orderNumber", js_or (get values "tranid") (JStr EmptyString));
        ("entity", if truthy (get values "entity")
                   then get (get values "entity") "text"
                   else JStr EmptyString)].

(** The [try] block of the earlier [map].  Only the account is checked;
    [values.entity.value] throws when the row has no entity.  The order is
    handed to [mapContext.write] as an object, which the host serializes as
    [JSON.stringify] does. *)
Definition map_earlier_try (mapContext : MapContext.t) : M unit :=
  log_debug "Map Input"
    (LInput (MapContext.key mapContext) (MapContext.value mapContext)) ;;
  searchResult <- lift (JSON_parse (MapContext.value mapContext)) ;;
  values <- prop searchResult "values" ;;
  account <- prop values "account" ;;
  if negb (truthy account) || negb (truthy (get account "value"))
  then throw (Error "Account value is missing in search result")
  else
    _ <- prop (get values "entity") "value" ;;
    let accountId := groupKey values in
    log_debug "Processing Account ID" (LVal (JStr accountId)) ;;
    mapContext_write accountId
      (JSON_stringify (orderObj_earlier (MapContext.key mapContext) values)).

Definition map_earlier (mapContext : MapContext.t) : M unit :=
  try_catch (map_earlier_try mapContext)
    (fun e =>
       log_error "Error in map function"
         (LVal (JStr ("Order ID: " +:+ MapContext.key mapContext
                      +:+ ", Error: " +:+ message e)))).

(** The earlier [summarize] and [sendEmail] have empty bodies. *)
Definition summarize_earlier (summaryContext : SummaryContext.t) : M unit := ret tt.

Definition sendEmail : M unit := ret tt.

(** ** Required fields, as the specification names them *)

Inductive requiredField : Type :=
| Account | Entity | TransactionDate | TransactionId | VendorEmail.

Definition requiredFields : list requiredField :=
  [Account; Entity; TransactionDate; TransactionId; VendorEmail].

Definition fieldLabel (f : requiredField) : string :=
  match f with
  | Account => "account"
  | Entity => "entity"
  | TransactionDate => "transaction date"
  | TransactionId => "transaction ID"
  | VendorEmail => "vendor email"
  end.

(** A field is absent from a row when the row gives it no value, or an empty
    one: a reference field needs its [value], a plain field itself. *)
Definition absent (values : jsval) (f : requiredField) : bool :=
  match f with
  | Account => negb (truthy (get (get values "account") "value"))
  | Entity => negb (truthy (get (get values "entity") "value"))
  | TransactionDate => negb (truthy (get values "trandate"))
  | TransactionId => negb (truthy (get values "tranid"))
  | VendorEmail => negb (truthy (get values "email.vendor"))
  end.

(** Does the string hold the character? *)
Fixpoint contains (c : ascii) (s : string) : bool :=
  match s with
  | EmptyString => false
  | String c' rest => Ascii.eqb c' c || contains c rest
  end.

(** The values of the group with a given key, empty when there is none. *)
Fixpoint groupValues (k : string) (groups : list ReduceContext.t) : list jsonText :=
  match groups with
  | [] => []
  | g :: rest =>
      if String.eqb k (ReduceContext.key g) then ReduceContext.values g
      else groupValues k rest
  end.

(** The values written under a given key, in order. *)
Fixpoint writtenUnder (k : string) (written : list (string * jsonText)) : list jsonText :=
  match written with
  | [] => []
  | (k', v) :: rest =>
      if String.eqb k k' then v :: writtenUnder k rest else writtenUnder k rest
  end.

(** State updates, for stating results. *)
Definition logging (entries : list logEntry) (st : state) : state :=
  {| log := log st ++ entries; mapOutput := mapOutput st;
     reduceOutput := reduceOutput st; mail := mail st; emailSent := emailSent st |}.

Definition entry (l : logLevel) (t : string) (d : logDetails) : logEntry :=
  {| level := l; title := t; logged := d |}.

Definition outputting (k : string) (v : jsonText) (st : state) : state :=
  {| log := log st; mapOutput := mapOutput st;
     reduceOutput := reduceOutput st ++ [(k, v)];
     mail := mail st; emailSent := emailSent st |}.

Definition marking (store : gmap string bool) (st : state) : state :=
  {| log := log st; mapOutput := mapOutput st; reduceOutput := reduceOutput st;
     mail := mail st; emailSent := store |}.

Definition mailing (e : emailObj) (accepted : bool) (st : state) : state :=
  {| log := log st; mapOutput := mapOutput st; reduceOutput := reduceOutput st;
     mail := mail st ++ [(e, accepted)]; emailSent := emailSent st |}.


(** The transaction ids [reduce] reads from the values of a group. *)
Fixpoint transactionIds (values : list jsonText) : result (list jsval) :=
  match values with
  | [] => Ok []
  | value :: rest =>
      match JSON_parse value with
      | Throw e => Throw e
      | Ok orderObj =>
          match get_prop orderObj "orderId" with
          | Throw e => Throw e
          | Ok orderId =>
              match transactionIds rest with
              | Ok ids => Ok (orderId :: ids)
              | Throw e => Throw e
              end
          end
      end
  end.

Section Outcomes.

Variable w : world.

(** The vouchers that render, in the order of the transaction ids. *)
Fixpoint vouchers (transactionIds : list jsval) : list fileObj :=
  match transactionIds with
  | [] => []
  | id :: rest =>
      match renderAsPdf w (getParameter w SCRIPT_PARAM_PRINT_TEMPLATE_ID) id with
      | Ok pdfContent => voucherFile id pdfContent :: vouchers rest
      | Throw _ => vouchers rest
      end
  end.

(** The log entries of the vouchers that do not render. *)
Fixpoint renderErrors (transactionIds : list jsval) : list logEntry :=
  match transactionIds with
  | [] => []
  | id :: rest =>
      match renderAsPdf w (getParameter w SCRIPT_PARAM_PRINT_TEMPLATE_ID) id with
      | Ok _ => renderErrors rest
      | Throw e =>
          {| level := ERROR;
             title := "Error generating PDF for transaction " +:+ to_string id;
             logged := LErr e |} :: renderErrors rest
      end
  end.

(** The payment can be loaded and saved. *)
Definition updatable (transactionId : jsval) : Prop :=
  exists internalId,
    record_load w transactionId = Ok internalId /\ record_save w internalId = Ok tt.

(** Loading or saving the payment throws [x]. *)
Definition updateFails (transactionId : jsval) (x : exn) : Prop :=
  record_load w transactionId = Throw x \/
  exists internalId,
    record_load w transactionId = Ok internalId /\ record_save w internalId = Throw x.

(** The checkboxes after the update loop, and the error that stopped it. *)
Fixpoint markAll (transactionIds : list jsval) (store : gmap string bool)
  : gmap string bool * option exn :=
  match transactionIds with
  | [] => (store, None)
  | id :: rest =>
      match record_load w id with
      | Throw x => (store, Some x)
      | Ok internalId =>
          match record_save w internalId with
          | Throw x => (store, Some x)
          | Ok _ => markAll rest (<[internalId := true]> store)
          end
      end
  end.

(** The entries [processGroup] logs before it merges the message. *)
Definition beforeMerge (reduceContext : ReduceContext.t) (emailTemplateId : jsval)
    (ids : list jsval) : list logEntry :=
  let authorId := getParameter w SCRIPT_PARAM_EMAIL_AUTHOR in
  [entry DEBUG (ReduceContext.key reduceContext)
     (LTexts (ReduceContext.values reduceContext));
   entry DEBUG "Email Template ID" (LVal emailTemplateId);
   entry DEBUG "Email Author ID" (LVal authorId);
   entry DEBUG "Transactions ID" (LVal (JArr ids))]
  ++ renderErrors ids
  ++ [entry DEBUG "Generated PDF Files" (LFiles (vouchers ids))].

(** The entries [processGroup] logs before it sends, the merge having
    returned [mergeResult]. *)
Definition prelude (reduceContext : ReduceContext.t) (emailTemplateId : jsval)
    (ids : list jsval) (mergeResult : string * string) : list logEntry :=
  let vendorId := index (split underscore (ReduceContext.key reduceContext)) 1 in
  let authorId := getParameter w SCRIPT_PARAM_EMAIL_AUTHOR in
  [entry DEBUG (ReduceContext.key reduceContext)
     (LTexts (ReduceContext.values reduceContext));
   entry DEBUG "Email Template ID" (LVal emailTemplateId);
   entry DEBUG "Email Author ID" (LVal authorId);
   entry DEBUG "Transactions ID" (LVal (JArr ids))]
  ++ renderErrors ids
  ++ [entry DEBUG "Generated PDF Files" (LFiles (vouchers ids));
      entry DEBUG "Email Object"
        (LEmail (groupEmail mergeResult authorId vendorId (vouchers ids)))].

(** What a call of the group code can do to the mail and to the stored
    checkboxes: nothing; a refused message and nothing else; or an accepted
    message followed by the update loop. *)
Definition sendOutcome (values : list jsonText) (st st' : state) : Prop :=
  (mail st' = mail st /\ emailSent st' = emailSent st)
  \/ (exists e, mail st' = mail st ++ [(e, false)] /\ emailSent st' = emailSent st)
  \/ (exists e ids,
         transactionIds values = Ok ids /\
         mail st' = mail st ++ [(e, true)] /\
         emailSent st' = fst (markAll ids (emailSent st))).

End Outcomes.

(** The values of a side-channel group, parsed. *)
Fixpoint parseAll (values : list jsonText) : result (list jsval) :=
  match values with
  | [] => Ok []
  | value :: rest =>
      match JSON_parse value with
      | Throw e => Throw e
      | Ok record =>
          match parseAll rest with
          | Ok records => Ok (record :: records)
          | Throw e => Throw e
          end
      end
  end.

(** The parameters [getInputData] checks: the label it reports and the
    name it reads. *)
Definition requiredParameters : list (string * string) :=
  [("Eligible ACH Payments Search", SCRIPT_PARAM_ELIGIBLE_ACH_PAYMENTS_SEARCH);
   ("Print Template ID", SCRIPT_PARAM_PRINT_TEMPLATE_ID);
   ("Email Author", SCRIPT_PARAM_EMAIL_AUTHOR)].

Definition unset (w : world) (parameter : string * string) : bool :=
  negb (truthy (getParameter w (snd parameter))).

(** The last report logged, if any. *)
Fixpoint lastReport (entries : list logEntry) : option summaryReport :=
  match entries with
  | [] => None
  | e :: rest =>
      match lastReport rest with
      | Some r => Some r
      | None =>
          match logged e with
          | LReport r => if String.eqb (title e) "Processing Summary" then Some r else None
          | _ => None
          end
      end
  end.

(** *** The output of the reduce stage, as [summarize] reads it *)

(** The number of entries under keys other than the two reserved ones. *)
Fixpoint ordinaryKeys (output : list (string * jsonText)) : nat :=
  match output with
  | [] => O
  | (k, _) :: rest =>
      if is_reserved k then ordinaryKeys rest else S (ordinaryKeys rest)
  end.

(** The value of the last entry under a key, [current] when there is none. *)
Fixpoint latest (key : string) (output : list (string * jsonText)) (current : jsval)
  : jsval :=
  match output with
  | [] => current
  | (k, v) :: rest =>
      latest key rest
        (if String.eqb k key
         then match v with Serialized x => x | Malformed _ => current end
         else current)
  end.

(** An array without [null] or [undefined] items. *)
Definition records (v : jsval) : bool :=
  match v with
  | JArr items => forallb (fun x => negb (nullish x)) items
  | _ => false
  end.

(** Every entry under a reserved key holds an array of records. *)
Definition readable (output : list (string * jsonText)) : bool :=
  forallb (fun kv => if is_reserved (fst kv)
                     then match snd kv with
                          | Serialized x => records x
                          | Malformed _ => false
                          end
                     else true) output.

(** The audit entries of the output loop. *)
Fixpoint audits (output : list (string * jsonText)) : list logEntry :=
  match output with
  | [] => []
  | (k, v) :: rest =>
      (if String.eqb k SKIPPED_RECORDS then
         [entry AUDIT "Skipped Records"
            (LVal (JStr ("Found "
                         +:+ string_of_Z (Z.of_nat (length (items_of
                               (match v with Serialized x => x | _ => JNull end))))
                         +:+ " skipped records")))]
       else if String.eqb k ERROR_RECORDS then
         [entry AUDIT "Error Records"
            (LVal (JStr ("Found "
                         +:+ string_of_Z (Z.of_nat (length (items_of
                               (match v with Serialized x => x | _ => JNull end))))
                         +:+ " error records")))]
       else [])
      ++ audits rest
  end.

Definition detailOf (record : jsval) : jsval :=
  JObj [("recordId", get record "recordId");
        ("tranid", get record "tranid");
        ("entity", get record "entity");
        ("accountId", get record "accountId");
        ("entityId", get record "entityId");
        ("errorNote", get record "errorNote")].

Definition bucketOf (v : jsval) : bucketReport :=
  {| count := length (items_of v); details := List.map detailOf (items_of v) |}.

(** The report [summarize] builds from a readable output. *)
Definition reportOf (summaryContext : SummaryContext.t) : summaryReport :=
  let output := SummaryContext.output summaryContext in
  {| totalRecordsProcessed := SummaryContext.inputSummary_totalRecords summaryContext;
     successfullyProcessed := ordinaryKeys output;
     skippedRecords := bucketOf (latest SKIPPED_RECORDS output (JArr []));
     errorRecords := bucketOf (latest ERROR_RECORDS output (JArr [])) |}.

(** A serialized object. *)
Definition isObject (v : jsonText) : bool :=
  match v with
  | Serialized (JObj _) => true
  | _ => false
  end.

Definition reservedOnly (output : list (string * jsonText)) : bool :=
  forallb (fun kv => is_reserved (fst kv)) output.

(** What [JSON.parse] gives for a serialized value. *)
Definition payload (v : jsonText) : jsval :=
  match v with
  | Serialized x => x
  | Malformed _ => JNull
  end.

(** The array [reduce] writes for a side-channel group whose values parse. *)
Definition passedThrough (values : list jsonText) : jsval :=
  to_json (JArr (List.map payload values)).

(** *** Further notions *)

(** A value [JSON.parse] can return: no [undefined] and no function in it. *)
Fixpoint isJson (v : jsval) : bool :=
  match v with
  | JUndefined | JFun _ => false
  | JArr items => forallb isJson items
  | JObj fields => forallb (fun kv => isJson (snd kv)) fields
  | _ => true
  end.

(** Does the voucher of the payment render? *)
Definition renders (w : world) (transactionId : jsval) : bool :=
  match renderAsPdf w (getParameter w SCRIPT_PARAM_PRINT_TEMPLATE_ID) transactionId with
  | Ok _ => true
  | Throw _ => false
  end.

Definition voucherName (transactionId : jsval) : string :=
  "ACH_Payment_" +:+ to_string transactionId +:+ ".pdf".

(** Nothing but the log differs between the two states. *)
Definition sameButLog (st st' : state) : Prop :=
  mapOutput st' = mapOutput st /\
  reduceOutput st' = reduceOutput st /\
  mail st' = mail st /\
  emailSent st' = emailSent st.

(** The log of the second state continues the log of the first. *)
Definition logExtends (st st' : state) : Prop :=
  exists entries, log st' = log st ++ entries.

(** A step that at most extends the log. *)
Definition quiet (st st' : state) : Prop := sameButLog st st' /\ logExtends st st'.

(** The message [summarize] sends about a readable output. *)
Definition notification (w : world) (summaryContext : SummaryContext.t) : emailObj :=
  let output := SummaryContext.output summaryContext in
  let skippedItems := items_of (latest SKIPPED_RECORDS output (JArr [])) in
  let errorItems := items_of (latest ERROR_RECORDS output (JArr [])) in
  {| author := getParameter w SCRIPT_PARAM_EMAIL_AUTHOR;
     recipients := JStr "admin@yourcompany.com";
     subject := "ACH Payment Processing Report: "
                +:+ string_of_Z (Z.of_nat (length skippedItems)) +:+ " Skipped, "
                +:+ string_of_Z (Z.of_nat (length errorItems)) +:+ " Errors";
     body := bodyHtml (reportOf summaryContext) skippedItems;
     attachments := [];
     isHtml := true |}.

(** The three entries [summarize] logs last. *)
Definition metrics (summaryContext : SummaryContext.t) : list logEntry :=
  [entry AUDIT "Usage units consumed" (LVal (SummaryContext.usage summaryContext));
   entry AUDIT "Concurrency" (LVal (SummaryContext.concurrency summaryContext));
   entry AUDIT "Number of yields" (LVal (SummaryContext.yields summaryContext))].

(** ** A deployment to run the script on *)

Module Office.

Definition reference (value text : string) : jsval :=
  JObj [("value", JStr value); ("text", JStr text)].

(** A row of the eligible-payments search, as the host serializes it. *)
Definition row (id : string) (fields : list (string * jsval)) : MapContext.t :=
  MapContext.Build id
    (Serialized (JObj [("recordType", JStr "vendorpayment");
                       ("id", JStr id);
                       ("values", JObj fields)])).

Definition payment101 : MapContext.t :=
  row "101" [("account", reference "A1" "Operating");
             ("entity", reference "V1" "Acme Supply");
             ("trandate", JStr "11/2/2026");
             ("postingperiod", reference "310" "Nov 2026");
             ("tranid", JStr "ACH-101");
             ("email.vendor", JStr "ap@acme.example")].

(** No vendor email. *)
Definition payment102 : MapContext.t :=
  row "102" [("account", reference "A1" "Operating");
             ("entity", reference "V3" "Birch Tools");
             ("trandate", JStr "11/2/2026");
             ("tranid", JStr "ACH-102");
             ("email.vendor", JStr EmptyString)].

Definition payment103 : MapContext.t :=
  row "103" [("account", reference "A1" "Operating");
             ("entity", reference "V2" "Cedar Freight");
             ("trandate", JStr "11/2/2026");
             ("tranid", JStr "ACH-103");
             ("email.vendor", JStr "pay@cedar.example")].

(** Neither transaction date nor transaction id. *)
Definition payment104 : MapContext.t :=
  row "104" [("account", reference "A1" "Operating");
             ("entity", reference "V1" "Acme Supply");
             ("email.vendor", JStr "ap@acme.example")].

(** A second payment to the vendor of [payment101]. *)
Definition payment105 : MapContext.t :=
  row "105" [("account", reference "A1" "Operating");
             ("entity", reference "V1" "Acme Supply");
             ("trandate", JStr "11/2/2026");
             ("tranid", JStr "ACH-105");
             ("email.vendor", JStr "ap@acme.example")].

(** An account id with an underscore in it. *)
Definition payment106 : MapContext.t :=
  row "106" [("account", reference "A_1" "Payroll");
             ("entity", reference "V1" "Acme Supply");
             ("trandate", JStr "11/2/2026");
             ("tranid", JStr "ACH-106");
             ("email.vendor", JStr "ap@acme.example")].

(** A row the host hands over truncated. *)
Definition payment107 : MapContext.t :=
  MapContext.Build "107" (Malformed "Unexpected end of JSON input").

Definition parameters (name : string) : jsval :=
  if String.eqb name SCRIPT_PARAM_ELIGIBLE_ACH_PAYMENTS_SEARCH
  then JStr "customsearch_eligible_ach"
  else if String.eqb name SCRIPT_PARAM_PRINT_TEMPLATE_ID
  then JStr "CUSTTMPL_ACH_VOUCHER"
  else if String.eqb name SCRIPT_PARAM_EMAIL_AUTHOR
  then JStr "7"
  else JNull.

(** The deployment: every parameter the script reads is set and no other;
    account [A1] has an email template; the listed payments do not render,
    the listed records do not save, and the transport refuses mail when
    told to. *)
Definition deployment (rows : list MapContext.t)
    (unrenderable unsavable : list string) (refusing : bool) : world :=
  {| getParameter := parameters;
     search_load := fun _ => Ok rows;
     emailTemplateSearch := fun accountId =>
       if String.eqb (to_string accountId) "A1" then Ok [JStr "55"] else Ok [];
     renderAsPdf := fun _ id =>
       if existsb (String.eqb (to_string id)) unrenderable
       then Throw (Error "Template rendering failed")
       else Ok ("%PDF-1.4 voucher " +:+ to_string id);
     mergeEmail := fun _ _ _ =>
       Ok ("Your ACH payment", "Please find your vouchers attached.");
     email_send := fun _ =>
       if refusing then Throw (Error "SSS_INVALID_TO_EMAIL") else Ok tt;
     record_load := fun id =>
       match id with
       | JStr internalId => Ok internalId
       | _ => Throw (Error "That record does not exist.")
       end;
     record_save := fun internalId =>
       if existsb (String.eqb internalId) unsavable
       then Throw (Error "Record has been changed")
       else Ok tt;
     statistics := (JUndefined, JNum 120, JNum 2, JNum 0) |}.

(** The deployment with some of its parameters left unset. *)
Definition without (names : list string) (w : world) : world :=
  {| getParameter := fun name =>
       if existsb (String.eqb name) names then JNull else getParameter w name;
     search_load := search_load w;
     emailTemplateSearch := emailTemplateSearch w;
     renderAsPdf := renderAsPdf w;
     mergeEmail := mergeEmail w;
     email_send := email_send w;
     record_load := record_load w;
     record_save := record_save w;
     statistics := statistics w |}.

(** The groups the shuffle makes of what [map] writes for the rows. *)
Definition groupsOf (rows : list MapContext.t) : list ReduceContext.t :=
  shuffle (mapOutput (stage map rows initial)).

Definition firstGroup (rows : list MapContext.t) : ReduceContext.t :=
  match groupsOf rows with
  | g :: _ => g
  | [] => ReduceContext.Build EmptyString []
  end.

(** The two payments of account [A1] to vendor [V1]. *)
Definition group : ReduceContext.t := firstGroup [payment101; payment105].

(** A payment from an account without email template. *)
Definition payment108 : MapContext.t :=
  row "108" [("account", reference "A9" "Petty cash");
             ("entity", reference "V1" "Acme Supply");
             ("trandate", JStr "11/2/2026");
             ("tranid", JStr "ACH-108");
             ("email.vendor", JStr "ap@acme.example")].

Definition groupWithoutTemplate : ReduceContext.t := firstGroup [payment108].

(** The [values] of a row. *)
Definition valuesOf (mapContext : MapContext.t) : jsval :=
  match MapContext.value mapContext with
  | Serialized searchResult => get searchResult "values"
  | Malformed _ => JUndefined
  end.

(** A row without [values]. *)
Definition payment109 : MapContext.t :=
  MapContext.Build "109" (Serialized (JObj [("id", JStr "109")])).

End Office.

(** ** Outages and damaged inputs *)

Module Outage.

(** The saved search of the deployment has been deleted. *)
Definition searchGone (w : world) : world :=
  {| getParameter := getParameter w;
     search_load := fun _ => Throw (Error "That search or mass update does not exist.");
     emailTemplateSearch := emailTemplateSearch w;
     renderAsPdf := renderAsPdf w;
     mergeEmail := mergeEmail w;
     email_send := email_send w;
     record_load := record_load w;
     record_save := record_save w;
     statistics := statistics w |}.

(** The search for the template mapping runs out of governance units. *)
Definition templatesDown (w : world) : world :=
  {| getParameter := getParameter w;
     search_load := search_load w;
     emailTemplateSearch := fun _ => Throw (Error "SSS_USAGE_LIMIT_EXCEEDED");
     renderAsPdf := renderAsPdf w;
     mergeEmail := mergeEmail w;
     email_send := email_send w;
     record_load := record_load w;
     record_save := record_save w;
     statistics := statistics w |}.

(** The merge refuses a recipient without id. *)
Definition mergeNeedsVendor (w : world) : world :=
  {| getParameter := getParameter w;
     search_load := search_load w;
     emailTemplateSearch := emailTemplateSearch w;
     renderAsPdf := renderAsPdf w;
     mergeEmail := fun emailTemplateId authorId vendorId =>
       if nullish vendorId
       then Throw (Error "Invalid recipient reference")
       else mergeEmail w emailTemplateId authorId vendorId;
     email_send := email_send w;
     record_load := record_load w;
     record_save := record_save w;
     statistics := statistics w |}.

(** A row without account. *)
Definition payment110 : MapContext.t :=
  Office.row "110" [("entity", Office.reference "V1" "Acme Supply");
                    ("trandate", JStr "11/2/2026");
                    ("tranid", JStr "ACH-110");
                    ("email.vendor", JStr "ap@acme.example")].

(** A complete row whose account and vendor ids make a reserved key. *)
Definition payment111 : MapContext.t :=
  Office.row "111" [("account", Office.reference "ERROR" "Suspense");
                    ("entity", Office.reference "RECORDS" "Records Ltd");
                    ("trandate", JStr "11/2/2026");
                    ("tranid", JStr "ACH-111");
                    ("email.vendor", JStr "pay@records.example")].

(** The group of [A1] and [V1] with a third value that is cut short. *)
Definition damagedGroup : ReduceContext.t :=
  ReduceContext.Build (ReduceContext.key Office.group)
    (ReduceContext.values Office.group ++ [Malformed "Unexpected end of JSON input"]).

(** The values of [A1] and [V1] under a key that names the account only. *)
Definition groupOfAccount : ReduceContext.t :=
  ReduceContext.Build "A1" (ReduceContext.values Office.group).

(** The skipped rows [payment104] and [payment102], as the shuffle groups
    them. *)
Definition skippedBucket : ReduceContext.t :=
  Office.firstGroup [Office.payment104; Office.payment102].

(** The records of that bucket. *)
Definition recordsOfBucket : list jsval :=
  match parseAll (ReduceContext.values skippedBucket) with
  | Ok records => records
  | Throw _ => []
  end.

(** What the stages before [summarize] leave for it. *)
Definition summaryOf (w : world) (rows : list MapContext.t) : SummaryContext.t * state :=
  let st1 := stage map rows initial in
  let st2 := stage (reduce w) (shuffle (mapOutput st1)) st1 in
  (summaryContextOf w st2, st2).


End Outage.

Section MapProperties.

Lemma get_falsy_value (v : jsval) (k : string) :
  truthy v = false -> truthy (get v k) = false.
Proof.
  destruct v; simpl; try reflexivity; try discriminate.
Qed.

Lemma missingFields_absent (values : jsval) :
  missingFields values = List.map fieldLabel (List.filter (absent values) requiredFields).
Proof.
  unfold missingFields, requiredFields; simpl.
  assert (Ha : forall k, negb (truthy (get values k))
                         || negb (truthy (get (get values k) "value"))
                         = negb (truthy (get (get values k) "value"))).
  { intro k. destruct (truthy (get values k)) eqn:E; simpl; [reflexivity|].
    now rewrite (get_falsy_value _ "value" E). }
  rewrite !Ha.
  destruct (truthy (get (get values "account") "value")),
           (truthy (get (get values "entity") "value")),
           (truthy (get values "trandate")),
           (truthy (get values "tranid")),
           (truthy (get values "email.vendor")); reflexivity.
Qed.

Lemma assoc_json_skip (k k' : string) (v : jsval) (rest : list (string * jsval)) :
  String.eqb k k' = false ->
  assoc k (flat_map (json_field to_json) ((k', v) :: rest))
  = assoc k (flat_map (json_field to_json) rest).
Proof.
  intro Hne. destruct v; simpl; rewrite ?Hne; reflexivity.
Qed.

Lemma assoc_json_str (k : string) (s : string) (rest : list (string * jsval)) :
  assoc k (flat_map (json_field to_json) ((k, JStr s) :: rest)) = Some (JStr s).
Proof.
  simpl. now rewrite String.eqb_refl.
Qed.

Lemma skippedEntry_errorNote (recordId : string) (values : jsval) (missing : list string) :
  get (to_json (skippedEntry recordId values missing)) "errorNote"
  = JStr ("Missing required fields: " +:+ String.concat ", " missing).
Proof.
  unfold skippedEntry. cbn [to_json get].
  rewrite !assoc_json_skip by reflexivity.
  now rewrite assoc_json_str.
Qed.

Lemma skippedEntry_recordId (recordId : string) (values : jsval) (missing : list string) :
  get (to_json (skippedEntry recordId values missing)) "recordId" = JStr recordId.
Proof.
  unfold skippedEntry. cbn [to_json get]. now rewrite assoc_json_str.
Qed.

(** What [map] does once the row has parsed and its [values] can be read. *)
Lemma map_on_readable_row (mapContext : MapContext.t) (searchResult values : jsval)
    (st : state) :
  JSON_parse (MapContext.value mapContext) = Ok searchResult ->
  get_prop searchResult "values" = Ok values ->
  nullish values = false ->
  map mapContext st =
  let st0 := logging [entry DEBUG "Map Input"
                        (LInput (MapContext.key mapContext) (MapContext.value mapContext))] st in
  let missing := missingFields values in
  if (0 <? length missing)%nat then
    mapContext_write SKIPPED_RECORDS
      (JSON_stringify (skippedEntry (MapContext.key mapContext) values missing))
      (logging [entry ERROR "Skipping record with missing required fields"
                  (LVal (JStr ("Record ID: " +:+ MapContext.key mapContext
                               +:+ ", Missing fields: " +:+ String.concat ", " missing)))]
         st0)
  else
    mapContext_write (groupKey values)
      (JSON_stringify (orderObj (MapContext.key mapContext) values)) st0.
Proof.
  intros Hparse Hvalues Hnn.
  unfold map, try_catch, map_try, bind, lift, prop, log_debug, log_error, log_write.
  rewrite Hparse. simpl. rewrite Hvalues. unfold get_prop. rewrite Hnn.
  destruct (0 <? length (missingFields values))%nat; reflexivity.
Qed.

(** C1.  A row whose fields can be read and that lacks at least one required
    field makes [map] return normally after exactly one write, under
    [SKIPPED_RECORDS]; the written entry carries the record id and an error
    note that joins the labels of all the absent fields, in the order account,
    entity, transaction date, transaction ID, vendor email; nothing is
    written under a group key and nothing but the log changes besides. *)
Theorem map_skips_row_lacking_required_field
    (mapContext : MapContext.t) (searchResult values : jsval) (st : state) :
  JSON_parse (MapContext.value mapContext) = Ok searchResult ->
  get_prop searchResult "values" = Ok values ->
  nullish values = false ->
  (exists f, absent values f = true) ->
  let labels := List.map fieldLabel (List.filter (absent values) requiredFields) in
  let st' := snd (map mapContext st) in
  exists skippedRecord,
    fst (map mapContext st) = Ok tt /\
    mapOutput st' = mapOutput st ++ [(SKIPPED_RECORDS, Serialized skippedRecord)] /\
    get skippedRecord "recordId" = JStr (MapContext.key mapContext) /\
    get skippedRecord "errorNote"
    = JStr ("Missing required fields: " +:+ String.concat ", " labels) /\
    (forall f, absent values f = true <-> In (fieldLabel f) labels) /\
    reduceOutput st' = reduceOutput st /\
    mail st' = mail st /\
    emailSent st' = emailSent st.
Proof.
  intros Hparse Hvalues Hnn [f Hf] labels st'.
  assert (Hin : forall g, absent values g = true <-> In (fieldLabel g) labels).
  { intro g. unfold labels. rewrite in_map_iff. split.
    - intro Hg. exists g. split; [reflexivity|].
      apply filter_In. split; [destruct g; simpl; tauto | exact Hg].
    - intros [g' [Heq Hg']]. apply filter_In in Hg'. destruct Hg' as [_ Hg'].
      destruct g, g'; simpl in Heq; try discriminate; exact Hg'. }
  assert (Hlen : (0 <? length (missingFields values))%nat = true).
  { rewrite missingFields_absent. fold labels.
    apply Hin in Hf. destruct labels; [destruct Hf | reflexivity]. }
  exists (to_json (skippedEntry (MapContext.key mapContext) values labels)).
  subst st'. rewrite (map_on_readable_row _ _ _ _ Hparse Hvalues Hnn).
  cbv zeta. rewrite Hlen. rewrite missingFields_absent. fold labels.
  unfold mapContext_write, JSON_stringify, logging.
  cbn [fst snd mapOutput reduceOutput mail emailSent log].
  rewrite skippedEntry_recordId, skippedEntry_errorNote.
  repeat split; try reflexivity; apply Hin.
Qed.

Lemma map_on_failed_try (mapContext : MapContext.t) (st st' : state) (e : exn) :
  map_try mapContext st = (Throw e, st') ->
  map mapContext st = (Throw (ReferenceError "values is not defined"), st').
Proof.
  intro H. unfold map, try_catch. rewrite H. reflexivity.
Qed.

(** C5 (the script does otherwise).  When the row does not parse, or parses
    to something without a [values] object, the error raised in the [try]
    block reaches the [catch] block, which throws a [ReferenceError] of its
    own before writing: the error leaves [map] and nothing is written under
    [ERROR_RECORDS]. *)
Theorem map_error_escapes_unrecorded (mapContext : MapContext.t) (st : state) :
  (forall searchResult,
      JSON_parse (MapContext.value mapContext) = Ok searchResult ->
      nullish (get searchResult "values") = true) ->
  map mapContext st
  = (Throw (ReferenceError "values is not defined"),
     logging [entry DEBUG "Map Input"
                (LInput (MapContext.key mapContext) (MapContext.value mapContext))] st).
Proof.
  intro H.
  unfold map, try_catch, map_try, bind, prop, lift, log_debug, log_write, get_prop.
  destruct (JSON_parse (MapContext.value mapContext)) as [searchResult|e] eqn:Hparse;
    [|reflexivity].
  specialize (H searchResult eq_refl).
  destruct (nullish searchResult); [reflexivity|].
  cbv beta iota. rewrite H. reflexivity.
Qed.

(** *** Group keys *)

Lemma split_without_separator (sep : ascii) (s : string) :
  contains sep s = false -> split sep s = [s].
Proof.
  induction s as [|c s IH]; simpl; [reflexivity|].
  intro H. apply orb_false_iff in H. destruct H as [Hc Hs].
  rewrite Hc, (IH Hs). reflexivity.
Qed.

Lemma split_at_first_separator (sep : ascii) (a b : string) :
  contains sep a = false ->
  split sep (a +:+ String sep b) = a :: split sep b.
Proof.
  induction a as [|c a IH]; simpl.
  - intros _. now rewrite Ascii.eqb_refl.
  - intro H. apply orb_false_iff in H. destruct H as [Hc Ha].
    rewrite Hc, (IH Ha). reflexivity.
Qed.

Lemma groupKey_parts (accountId vendorId : string) :
  contains underscore accountId = false ->
  contains underscore vendorId = false ->
  index (split underscore (accountId +:+ "_" +:+ vendorId)) 0 = JStr accountId /\
  index (split underscore (accountId +:+ "_" +:+ vendorId)) 1 = JStr vendorId.
Proof.
  intros Ha Hv.
  change (accountId +:+ "_" +:+ vendorId)
    with (accountId +:+ String underscore vendorId).
  rewrite (split_at_first_separator _ _ _ Ha), (split_without_separator _ _ Hv).
  split; reflexivity.
Qed.

(** *** The shuffle *)

Lemma groupValues_addToGroup_same (k : string) (v : jsonText)
    (groups : list ReduceContext.t) :
  groupValues k (addToGroup k v groups) = groupValues k groups ++ [v].
Proof.
  induction groups as [|g rest IH]; simpl.
  - now rewrite String.eqb_refl.
  - destruct (String.eqb k (ReduceContext.key g)) eqn:E; simpl.
    + now rewrite String.eqb_refl.
    + now rewrite E.
Qed.

Lemma groupValues_addToGroup_other (k k' : string) (v : jsonText)
    (groups : list ReduceContext.t) :
  String.eqb k' k = false ->
  groupValues k' (addToGroup k v groups) = groupValues k' groups.
Proof.
  intro Hne. induction groups as [|g rest IH]; simpl.
  - now rewrite Hne.
  - destruct (String.eqb k (ReduceContext.key g)) eqn:E; simpl.
    + apply String.eqb_eq in E. subst k. now rewrite Hne.
    + now rewrite IH.
Qed.

Lemma groupValues_fold (k : string) (written : list (string * jsonText)) :
  forall groups,
    groupValues k
      (fold_left (fun groups kv => addToGroup (fst kv) (snd kv) groups) written groups)
    = groupValues k groups ++ writtenUnder k written.
Proof.
  induction written as [|[k' v] rest IH]; intro groups; simpl.
  - now rewrite app_nil_r.
  - rewrite IH. destruct (String.eqb k k') eqn:E.
    + apply String.eqb_eq in E. subst k'.
      rewrite groupValues_addToGroup_same. now rewrite <- app_assoc.
    + now rewrite groupValues_addToGroup_other.
Qed.

(** The group of a key holds exactly the values written under it, in order. *)
Lemma groupValues_shuffle (k : string) (written : list (string * jsonText)) :
  groupValues k (shuffle written) = writtenUnder k written.
Proof.
  unfold shuffle. now rewrite groupValues_fold.
Qed.

Lemma In_writtenUnder (k : string) (v : jsonText) (written : list (string * jsonText)) :
  In (k, v) written -> In v (writtenUnder k written).
Proof.
  induction written as [|[k' v'] rest IH]; simpl; [tauto|].
  intros [H|H].
  - inversion H; subst. rewrite String.eqb_refl. now left.
  - destruct (String.eqb k k'); [right|]; auto.
Qed.

Lemma groupValues_group (k : string) (groups : list ReduceContext.t) :
  groupValues k groups <> [] ->
  exists g, In g groups /\ ReduceContext.key g = k
            /\ ReduceContext.values g = groupValues k groups.
Proof.
  induction groups as [|g rest IH]; simpl; [congruence|].
  destruct (String.eqb k (ReduceContext.key g)) eqn:E.
  - intros _. exists g. apply String.eqb_eq in E. auto.
  - intro H. destruct (IH H) as [g' [Hin [Hk Hv]]]. exists g'. auto.
Qed.

Lemma keys_addToGroup (k : string) (v : jsonText) (groups : list ReduceContext.t) :
  List.map ReduceContext.key (addToGroup k v groups)
  = if existsb (String.eqb k) (List.map ReduceContext.key groups)
    then List.map ReduceContext.key groups
    else List.map ReduceContext.key groups ++ [k].
Proof.
  induction groups as [|g rest IH]; simpl; [reflexivity|].
  destruct (String.eqb k (ReduceContext.key g)) eqn:E; simpl.
  - apply String.eqb_eq in E. now subst k.
  - rewrite IH. now destruct (existsb _ _).
Qed.

Lemma keys_addToGroup_NoDup (k : string) (v : jsonText) (groups : list ReduceContext.t) :
  NoDup (List.map ReduceContext.key groups) ->
  NoDup (List.map ReduceContext.key (addToGroup k v groups)).
Proof.
  intro H. rewrite keys_addToGroup.
  destruct (existsb _ _) eqn:E; [exact H|].
  apply NoDup_app. split; [exact H|]. split; [|apply NoDup_singleton].
  intros x Hx Hk. apply list_elem_of_In in Hx. apply list_elem_of_In in Hk.
  destruct Hk as [Hk|[]]. subst x.
  assert (existsb (String.eqb k) (List.map ReduceContext.key groups) = true).
  { apply existsb_exists. exists k. split; [exact Hx | apply String.eqb_refl]. }
  congruence.
Qed.

(** The groups of the shuffle have pairwise different keys. *)
Lemma shuffle_keys_NoDup (written : list (string * jsonText)) :
  NoDup (List.map ReduceContext.key (shuffle written)).
Proof.
  unfold shuffle.
  assert (H : forall groups,
             NoDup (List.map ReduceContext.key groups) ->
             NoDup (List.map ReduceContext.key
                      (fold_left (fun groups kv => addToGroup (fst kv) (snd kv) groups)
                         written groups))).
  { induction written as [|kv rest IH]; intros groups Hg; simpl; [exact Hg|].
    apply IH. now apply keys_addToGroup_NoDup. }
  apply H. constructor.
Qed.

Lemma NoDup_map_injective {A B} (f : A -> B) (l : list A) (a b : A) :
  NoDup (List.map f l) -> In a l -> In b l -> f a = f b -> a = b.
Proof.
  induction l as [|x l IH]; simpl; [tauto|].
  intros Hnd Ha Hb Hf. inversion Hnd as [|? ? Hx Hl]; subst.
  destruct Ha as [Ha|Ha], Hb as [Hb|Hb]; subst.
  - reflexivity.
  - exfalso. apply Hx. rewrite Hf. apply list_elem_of_In. now apply in_map.
  - exfalso. apply Hx. rewrite <- Hf. apply list_elem_of_In. now apply in_map.
  - now apply IH.
Qed.

(** Everything written under one key ends up in one group, the only one
    with that key. *)
Lemma shuffle_one_group (k : string) (v : jsonText) (written : list (string * jsonText)) :
  In (k, v) written ->
  exists g, In g (shuffle written) /\ ReduceContext.key g = k
            /\ ReduceContext.values g = writtenUnder k written
            /\ forall g', In g' (shuffle written) -> ReduceContext.key g' = k -> g' = g.
Proof.
  intro Hin.
  assert (Hne : groupValues k (shuffle written) <> []).
  { rewrite groupValues_shuffle. apply In_writtenUnder in Hin.
    destruct (writtenUnder k written); [destruct Hin | congruence]. }
  destruct (groupValues_group _ _ Hne) as [g [Hg [Hk Hv]]].
  exists g. rewrite groupValues_shuffle in Hv. repeat split; try assumption.
  intros g' Hg' Hk'.
  apply (NoDup_map_injective ReduceContext.key (shuffle written));
    [apply shuffle_keys_NoDup | assumption | assumption | congruence].
Qed.

Lemma orderObj_fields (orderId : string) (values : jsval) :
  get (to_json (orderObj orderId values)) "orderId" = JStr orderId /\
  get (to_json (orderObj orderId values)) "accountId" = JStr (groupKey values).
Proof.
  unfold orderObj. cbn [to_json get]. split.
  - now rewrite assoc_json_str.
  - rewrite assoc_json_skip by reflexivity. now rewrite assoc_json_str.
Qed.

Lemma transactionIds_single (orderObj : jsval) :
  nullish orderObj = false ->
  transactionIds [Serialized orderObj] = Ok [get orderObj "orderId"].
Proof.
  intro H. cbn [transactionIds JSON_parse]. unfold get_prop. now rewrite H.
Qed.

Lemma stage_app {A} (entry : A -> M unit) (first rest : list A) (st : state) :
  stage entry (first ++ rest) st = stage entry rest (stage entry first st).
Proof.
  revert st. induction first as [|x first IH]; intro st; simpl; [reflexivity|].
  apply IH.
Qed.

End MapProperties.

Section ReduceProperties.

Variable w : world.

Lemma logging_logging (a b : list logEntry) (st : state) :
  logging b (logging a st) = logging (a ++ b) st.
Proof.
  unfold logging; simpl. now rewrite app_assoc.
Qed.

Lemma log_write_logging (l : logLevel) (t : string) (d : logDetails) (st : state) :
  log_write l t d st = (Ok tt, logging [entry l t d] st).
Proof. reflexivity. Qed.

(** Run the statement at the head of a sequence when it is a log call. *)
Ltac log_step :=
  unfold bind at 1; unfold log_debug, log_audit, log_error;
  rewrite log_write_logging.

Lemma mapM_orderIdOf (values : list jsonText) (st : state) :
  mapM orderIdOf values st = (transactionIds values, st).
Proof.
  induction values as [|value rest IH]; simpl; [reflexivity|].
  unfold bind, orderIdOf, bind, prop, lift in *.
  destruct (JSON_parse value) as [orderObj|e]; [|reflexivity].
  destruct (get_prop orderObj "orderId") as [orderId|e]; [|reflexivity].
  rewrite IH. destruct (transactionIds rest); reflexivity.
Qed.

Lemma foldM_renderVoucher (ids : list jsval) :
  forall (pdfFiles : list fileObj) (st : state),
    foldM (renderVoucher w) ids pdfFiles st
    = (Ok (pdfFiles ++ vouchers w ids), logging (renderErrors w ids) st).
Proof.
  induction ids as [|id rest IH]; intros pdfFiles st; simpl.
  - rewrite app_nil_r. unfold ret, logging. rewrite app_nil_r. now destruct st.
  - unfold bind at 1. unfold renderVoucher at 1.
    unfold try_catch, bind, lift, ret, log_error.
    destruct (renderAsPdf w (getParameter w SCRIPT_PARAM_PRINT_TEMPLATE_ID) id)
      as [pdfContent|e].
    + rewrite IH. now rewrite <- app_assoc.
    + rewrite log_write_logging. rewrite IH. now rewrite logging_logging.
Qed.

Lemma generateIndividualPaymentVoucher_run (ids : list jsval) (st : state) :
  generateIndividualPaymentVoucher w ids st
  = (Ok (vouchers w ids), logging (renderErrors w ids) st).
Proof.
  unfold generateIndividualPaymentVoucher. now rewrite foldM_renderVoucher.
Qed.

Lemma forEach_markEmailSent (ids : list jsval) :
  forall st : state,
    forEach (markEmailSent w) ids st
    = (match snd (markAll w ids (emailSent st)) with
       | None => Ok tt
       | Some x => Throw x
       end,
       marking (fst (markAll w ids (emailSent st))) st).
Proof.
  induction ids as [|id rest IH]; intro st; simpl.
  - unfold ret, marking. now destruct st.
  - unfold bind at 1. unfold markEmailSent at 1. unfold bind, lift, save_email_sent.
    destruct (record_load w id) as [internalId|x].
    + destruct (record_save w internalId) as [u|x].
      * rewrite IH. reflexivity.
      * unfold marking. now destruct st.
    + unfold marking. now destruct st.
Qed.

Lemma sendAndMark_run (e : emailObj) (ids : list jsval) (st : state) :
  sendAndMark w e ids st
  = (Ok tt,
     match email_send w e with
     | Throw x => logging [entry ERROR "sendEmail" (LErr x)] (mailing e false st)
     | Ok _ =>
         let sent := marking (fst (markAll w ids (emailSent st))) (mailing e true st) in
         match snd (markAll w ids (emailSent st)) with
         | None => sent
         | Some x => logging [entry ERROR "sendEmail" (LErr x)] sent
         end
     end).
Proof.
  unfold sendAndMark, try_catch, bind, email_send_call.
  destruct (email_send w e) as [u|x]; [|reflexivity].
  rewrite forEach_markEmailSent. cbn [emailSent].
  destruct (snd (markAll w ids (emailSent st))); reflexivity.
Qed.

Lemma processGroup_run (reduceContext : ReduceContext.t) (st : state)
    (emailTemplateId : jsval) (more : list jsval) (ids : list jsval)
    (mergeResult : string * string) :
  emailTemplateSearch w (index (split underscore (ReduceContext.key reduceContext)) 0)
  = Ok (emailTemplateId :: more) ->
  transactionIds (ReduceContext.values reduceContext) = Ok ids ->
  mergeEmail w emailTemplateId (getParameter w SCRIPT_PARAM_EMAIL_AUTHOR)
    (index (split underscore (ReduceContext.key reduceContext)) 1)
  = Ok mergeResult ->
  processGroup w reduceContext st
  = sendAndMark w
      (groupEmail mergeResult (getParameter w SCRIPT_PARAM_EMAIL_AUTHOR)
         (index (split underscore (ReduceContext.key reduceContext)) 1)
         (vouchers w ids))
      ids
      (logging (prelude w reduceContext emailTemplateId ids mergeResult) st).
Proof.
  intros Hsearch Hids Hmerge.
  unfold processGroup, searchRelatedEmailTemplate.
  log_step.
  unfold bind at 1. unfold try_catch, bind at 1, lift, ret. rewrite Hsearch.
  log_step. log_step.
  unfold bind at 1. rewrite mapM_orderIdOf, Hids.
  log_step.
  unfold bind at 1. rewrite generateIndividualPaymentVoucher_run.
  log_step.
  unfold bind at 1. unfold lift. rewrite Hmerge.
  log_step.
  rewrite !logging_logging. reflexivity.
Qed.

Lemma processGroup_merge_throws (reduceContext : ReduceContext.t) (st : state)
    (emailTemplateId : jsval) (more : list jsval) (ids : list jsval) (x : exn) :
  emailTemplateSearch w (index (split underscore (ReduceContext.key reduceContext)) 0)
  = Ok (emailTemplateId :: more) ->
  transactionIds (ReduceContext.values reduceContext) = Ok ids ->
  mergeEmail w emailTemplateId (getParameter w SCRIPT_PARAM_EMAIL_AUTHOR)
    (index (split underscore (ReduceContext.key reduceContext)) 1)
  = Throw x ->
  processGroup w reduceContext st
  = (Throw x, logging (beforeMerge w reduceContext emailTemplateId ids) st).
Proof.
  intros Hsearch Hids Hmerge.
  unfold processGroup, searchRelatedEmailTemplate.
  log_step.
  unfold bind at 1. unfold try_catch, bind at 1, lift, ret. rewrite Hsearch.
  log_step. log_step.
  unfold bind at 1. rewrite mapM_orderIdOf, Hids.
  log_step.
  unfold bind at 1. rewrite generateIndividualPaymentVoucher_run.
  log_step.
  unfold bind at 1. unfold lift. rewrite Hmerge.
  rewrite !logging_logging. reflexivity.
Qed.

Lemma processGroup_without_template (reduceContext : ReduceContext.t) (st : state) :
  emailTemplateSearch w (index (split underscore (ReduceContext.key reduceContext)) 0)
  = Ok [] ->
  let failure :=
    Error ("No email template found for account ID: "
           +:+ to_string (index (split underscore (ReduceContext.key reduceContext)) 0)) in
  processGroup w reduceContext st
  = (Throw failure,
     logging [entry DEBUG (ReduceContext.key reduceContext)
                (LTexts (ReduceContext.values reduceContext));
              entry ERROR "searchRelatedEmailTemplate" (LErr failure)] st).
Proof.
  intros Hsearch failure.
  unfold processGroup, searchRelatedEmailTemplate.
  log_step.
  unfold bind at 1. unfold try_catch, bind at 1, lift. rewrite Hsearch.
  unfold throw. log_step.
  rewrite logging_logging. reflexivity.
Qed.

Lemma processGroup_search_throws (reduceContext : ReduceContext.t) (st : state) (x : exn) :
  emailTemplateSearch w (index (split underscore (ReduceContext.key reduceContext)) 0)
  = Throw x ->
  processGroup w reduceContext st
  = (Throw x,
     logging [entry DEBUG (ReduceContext.key reduceContext)
                (LTexts (ReduceContext.values reduceContext));
              entry ERROR "searchRelatedEmailTemplate" (LErr x)] st).
Proof.
  intros Hsearch.
  unfold processGroup, searchRelatedEmailTemplate.
  log_step.
  unfold bind at 1. unfold try_catch, bind at 1, lift. rewrite Hsearch.
  unfold throw. log_step.
  rewrite logging_logging. reflexivity.
Qed.

Lemma processGroup_unreadable_values (reduceContext : ReduceContext.t) (st : state)
    (emailTemplateId : jsval) (more : list jsval) (x : exn) :
  emailTemplateSearch w (index (split underscore (ReduceContext.key reduceContext)) 0)
  = Ok (emailTemplateId :: more) ->
  transactionIds (ReduceContext.values reduceContext) = Throw x ->
  processGroup w reduceContext st
  = (Throw x,
     logging [entry DEBUG (ReduceContext.key reduceContext)
                (LTexts (ReduceContext.values reduceContext));
              entry DEBUG "Email Template ID" (LVal emailTemplateId);
              entry DEBUG "Email Author ID"
                (LVal (getParameter w SCRIPT_PARAM_EMAIL_AUTHOR))] st).
Proof.
  intros Hsearch Hids.
  unfold processGroup, searchRelatedEmailTemplate.
  log_step.
  unfold bind at 1. unfold try_catch, bind at 1, lift, ret. rewrite Hsearch.
  log_step. log_step.
  unfold bind at 1. rewrite mapM_orderIdOf, Hids.
  rewrite !logging_logging. reflexivity.
Qed.

Lemma mapM_parse (values : list jsonText) (st : state) :
  mapM (fun value => lift (JSON_parse value)) values st = (parseAll values, st).
Proof.
  induction values as [|value rest IH]; simpl; [reflexivity|].
  unfold bind, lift in *.
  destruct (JSON_parse value) as [record|e]; [|reflexivity].
  rewrite IH. destruct (parseAll rest); reflexivity.
Qed.

Lemma passThrough_run (reduceContext : ReduceContext.t) (st : state) :
  passThrough reduceContext st
  = match parseAll (ReduceContext.values reduceContext) with
    | Ok records =>
        (Ok tt, outputting (ReduceContext.key reduceContext)
                  (JSON_stringify (JArr records)) st)
    | Throw e => (Throw e, st)
    end.
Proof.
  unfold passThrough, bind. rewrite mapM_parse.
  destruct (parseAll (ReduceContext.values reduceContext)); reflexivity.
Qed.

Lemma processGroup_outcome (reduceContext : ReduceContext.t) (st : state) :
  sendOutcome w (ReduceContext.values reduceContext) st
    (snd (processGroup w reduceContext st))
  /\ reduceOutput (snd (processGroup w reduceContext st)) = reduceOutput st.
Proof.
  destruct (emailTemplateSearch w
              (index (split underscore (ReduceContext.key reduceContext)) 0))
    as [[|emailTemplateId more]|x] eqn:Hsearch.
  - rewrite (processGroup_without_template _ _ Hsearch). split; [left|]; auto.
  - destruct (transactionIds (ReduceContext.values reduceContext)) as [ids|x] eqn:Hids.
    + destruct (mergeEmail w emailTemplateId (getParameter w SCRIPT_PARAM_EMAIL_AUTHOR)
                  (index (split underscore (ReduceContext.key reduceContext)) 1))
        as [mergeResult|x] eqn:Hmerge.
      * rewrite (processGroup_run _ _ _ _ _ _ Hsearch Hids Hmerge), sendAndMark_run.
        cbn [snd]. split.
        -- destruct (email_send w _) as [u|x] eqn:Hsend.
           ++ right; right. eexists; exists ids. split; [exact Hids|].
              cbv zeta. destruct (snd (markAll w ids _)); split; reflexivity.
           ++ right; left. eexists. split; reflexivity.
        -- destruct (email_send w _); cbv zeta;
             [destruct (snd (markAll w ids _))|]; reflexivity.
      * rewrite (processGroup_merge_throws _ _ _ _ _ _ Hsearch Hids Hmerge).
        split; [left|]; auto.
    + rewrite (processGroup_unreadable_values _ _ _ _ _ Hsearch Hids).
      split; [left|]; auto.
  - rewrite (processGroup_search_throws _ _ _ Hsearch). split; [left|]; auto.
Qed.

Lemma reduce_earlier_outcome (reduceContext : ReduceContext.t) (st : state) :
  fst (reduce_earlier w reduceContext st) = Ok tt /\
  sendOutcome w (ReduceContext.values reduceContext) st
    (snd (reduce_earlier w reduceContext st)).
Proof.
  unfold reduce_earlier, try_catch.
  pose proof (processGroup_outcome reduceContext st) as [H _].
  destruct (processGroup w reduceContext st) as [[u|e] st1]; cbn [snd] in *.
  - destruct u. auto.
  - unfold log_error. rewrite log_write_logging. auto.
Qed.

Lemma reduce_outcome (reduceContext : ReduceContext.t) (st : state) :
  fst (reduce w reduceContext st) = Ok tt /\
  sendOutcome w (ReduceContext.values reduceContext) st
    (snd (reduce w reduceContext st)).
Proof.
  unfold reduce, try_catch.
  destruct (is_reserved (ReduceContext.key reduceContext)).
  - rewrite passThrough_run.
    destruct (parseAll (ReduceContext.values reduceContext)); split;
      try reflexivity; left; split; reflexivity.
  - apply reduce_earlier_outcome.
Qed.

(** *** The update loop *)

Lemma markAll_keeps (ids : list jsval) :
  forall (store : gmap string bool) (internalId : string),
    store !! internalId = Some true ->
    fst (markAll w ids store) !! internalId = Some true.
Proof.
  induction ids as [|id rest IH]; intros store internalId H; simpl; [exact H|].
  destruct (record_load w id) as [loaded|x]; [|exact H].
  destruct (record_save w loaded) as [u|x]; [|exact H].
  apply IH. destruct (decide (loaded = internalId)) as [->|Hne].
  - apply lookup_insert_eq.
  - now rewrite lookup_insert_ne.
Qed.

Lemma markAll_untouched (ids : list jsval) (internalId : string) :
  (forall id, In id ids -> record_load w id <> Ok internalId) ->
  forall store : gmap string bool,
    fst (markAll w ids store) !! internalId = store !! internalId.
Proof.
  induction ids as [|id rest IH]; intros Hother store; simpl; [reflexivity|].
  destruct (record_load w id) as [loaded|x] eqn:Hload; [|reflexivity].
  destruct (record_save w loaded) as [u|x]; [|reflexivity].
  rewrite IH by (intros; apply Hother; now right).
  apply lookup_insert_ne. intros ->. apply (Hother id); [now left | exact Hload].
Qed.

Lemma markAll_all_updatable (ids : list jsval) :
  (forall id, In id ids -> updatable w id) ->
  forall store : gmap string bool,
    snd (markAll w ids store) = None /\
    forall id, In id ids ->
      exists internalId,
        record_load w id = Ok internalId /\
        fst (markAll w ids store) !! internalId = Some true.
Proof.
  induction ids as [|id rest IH]; intros Hok store; simpl.
  - split; [reflexivity | tauto].
  - destruct (Hok id (or_introl eq_refl)) as [loaded [Hload Hsave]].
    rewrite Hload, Hsave.
    destruct (IH (fun i Hi => Hok i (or_intror Hi)) (<[loaded := true]> store))
      as [Hnone Hall].
    split; [exact Hnone|].
    intros i [<-|Hi].
    + exists loaded. split; [exact Hload|].
      apply markAll_keeps. apply lookup_insert_eq.
    + apply Hall, Hi.
Qed.

Lemma markAll_changed (ids : list jsval) (internalId : string) :
  forall store : gmap string bool,
    fst (markAll w ids store) !! internalId <> store !! internalId ->
    fst (markAll w ids store) !! internalId = Some true /\
    exists id,
      In id ids /\ record_load w id = Ok internalId /\ record_save w internalId = Ok tt.
Proof.
  induction ids as [|id rest IH]; intros store Hne; cbn [markAll] in *;
    [cbn [fst] in Hne; congruence|].
  destruct (record_load w id) as [loaded|x] eqn:Hload; [|cbn [fst] in Hne; congruence].
  destruct (record_save w loaded) as [[]|x] eqn:Hsave; [|cbn [fst] in Hne; congruence].
  destruct (decide (fst (markAll w rest (<[loaded := true]> store)) !! internalId
                    = (<[loaded := true]> store) !! internalId)) as [Heq|Hch].
  - destruct (decide (loaded = internalId)) as [->|Hother].
    + rewrite Heq, lookup_insert_eq. split; [reflexivity|].
      exists id. split; [now left | now split].
    + rewrite Heq, lookup_insert_ne in Hne by exact Hother. congruence.
  - destruct (IH _ Hch) as [Hset [id' [Hin [Hl Hs]]]].
    split; [exact Hset|]. exists id'. split; [now right | now split].
Qed.

Lemma markAll_stops (pre post : list jsval) (k : jsval) (x : exn) :
  (forall id, In id pre -> updatable w id) ->
  updateFails w k x ->
  forall store : gmap string bool,
    markAll w (pre ++ k :: post) store = (fst (markAll w pre store), Some x).
Proof.
  intros Hpre Hk. induction pre as [|id rest IH]; intro store; simpl.
  - destruct Hk as [Hload | [loaded [Hload Hsave]]].
    + now rewrite Hload.
    + now rewrite Hload, Hsave.
  - destruct (Hpre id (or_introl eq_refl)) as [loaded [Hload Hsave]].
    rewrite Hload, Hsave. apply IH. intros i Hi. apply Hpre. now right.
Qed.

Lemma app_one_neq_self {A} (l : list A) (a : A) : l ++ [a] <> l.
Proof.
  intro H. apply (f_equal (@length A)) in H. rewrite length_app in H. simpl in H. lia.
Qed.

(** *** reduce on an ordinary group *)

Lemma reduce_ordinary (reduceContext : ReduceContext.t) (st : state) :
  is_reserved (ReduceContext.key reduceContext) = false ->
  reduce w reduceContext st = reduce_earlier w reduceContext st.
Proof.
  intro H. unfold reduce, reduce_earlier. now rewrite H.
Qed.

Lemma reduce_earlier_run (reduceContext : ReduceContext.t) (st : state)
    (emailTemplateId : jsval) (more : list jsval) (ids : list jsval)
    (mergeResult : string * string) :
  emailTemplateSearch w (index (split underscore (ReduceContext.key reduceContext)) 0)
  = Ok (emailTemplateId :: more) ->
  transactionIds (ReduceContext.values reduceContext) = Ok ids ->
  mergeEmail w emailTemplateId (getParameter w SCRIPT_PARAM_EMAIL_AUTHOR)
    (index (split underscore (ReduceContext.key reduceContext)) 1)
  = Ok mergeResult ->
  reduce_earlier w reduceContext st
  = sendAndMark w
      (groupEmail mergeResult (getParameter w SCRIPT_PARAM_EMAIL_AUTHOR)
         (index (split underscore (ReduceContext.key reduceContext)) 1)
         (vouchers w ids))
      ids
      (logging (prelude w reduceContext emailTemplateId ids mergeResult) st).
Proof.
  intros Hsearch Hids Hmerge. unfold reduce_earlier, try_catch.
  rewrite (processGroup_run _ _ _ _ _ _ Hsearch Hids Hmerge), sendAndMark_run.
  reflexivity.
Qed.

(** The merge throws: the error is logged under [reduce] and nothing is
    sent. *)
Lemma reduce_earlier_merge_throws (reduceContext : ReduceContext.t) (st : state)
    (emailTemplateId : jsval) (more : list jsval) (ids : list jsval) (x : exn) :
  emailTemplateSearch w (index (split underscore (ReduceContext.key reduceContext)) 0)
  = Ok (emailTemplateId :: more) ->
  transactionIds (ReduceContext.values reduceContext) = Ok ids ->
  mergeEmail w emailTemplateId (getParameter w SCRIPT_PARAM_EMAIL_AUTHOR)
    (index (split underscore (ReduceContext.key reduceContext)) 1)
  = Throw x ->
  reduce_earlier w reduceContext st
  = (Ok tt,
     logging (beforeMerge w reduceContext emailTemplateId ids
              ++ [entry ERROR "reduce" (LErr x)]) st).
Proof.
  intros Hsearch Hids Hmerge. unfold reduce_earlier, try_catch.
  rewrite (processGroup_merge_throws _ _ _ _ _ _ Hsearch Hids Hmerge).
  unfold log_error. rewrite log_write_logging, logging_logging. reflexivity.
Qed.


(** C3.  For an ordinary group whose account id finds no row in the template
    mapping, [reduce] returns normally having only logged: the group's debug
    entry and the lookup error, once from [searchRelatedEmailTemplate] and
    once from [reduce].  No [email.send] call is made, no stored checkbox and
    no output changes, and the host goes on with the remaining groups from
    that state. *)
Theorem reduce_without_template_only_logs (reduceContext : ReduceContext.t) (st : state) :
  is_reserved (ReduceContext.key reduceContext) = false ->
  emailTemplateSearch w (index (split underscore (ReduceContext.key reduceContext)) 0)
  = Ok [] ->
  let failure :=
    Error ("No email template found for account ID: "
           +:+ to_string (index (split underscore (ReduceContext.key reduceContext)) 0)) in
  let st' :=
    logging [entry DEBUG (ReduceContext.key reduceContext)
               (LTexts (ReduceContext.values reduceContext));
             entry ERROR "searchRelatedEmailTemplate" (LErr failure);
             entry ERROR "reduce" (LErr failure)] st in
  reduce w reduceContext st = (Ok tt, st') /\
  mail st' = mail st /\
  emailSent st' = emailSent st /\
  reduceOutput st' = reduceOutput st /\
  forall rest, stage (reduce w) (reduceContext :: rest) st = stage (reduce w) rest st'.
Proof.
  intros Hkey Hsearch failure st'.
  assert (Hrun : reduce w reduceContext st = (Ok tt, st')).
  { rewrite (reduce_ordinary _ _ Hkey). unfold reduce_earlier, try_catch.
    rewrite (processGroup_without_template _ _ Hsearch).
    unfold log_error. rewrite log_write_logging, logging_logging. reflexivity. }
  repeat split; try assumption.
  intro rest. simpl. now rewrite Hrun.
Qed.

(** C2, as the script has it.  Whatever the group: when the message of the
    group is refused, no stored checkbox changes; when it is accepted and
    every payment of the group can be loaded and saved, every payment of the
    group ends with its checkbox set; and a checkbox that changes in the call
    is set, is the checkbox of a payment of this group, which loaded and
    saved, and changes in a call in which the message of the group was
    accepted.  After an accepted message the stored checkboxes are those the
    update loop leaves, which sets them in the order of the group and ends
    at the first load or save that throws. *)
Theorem reduce_flags_follow_send (reduceContext : ReduceContext.t) (st : state) :
  let st' := snd (reduce w reduceContext st) in
  (forall e, mail st' = mail st ++ [(e, false)] -> emailSent st' = emailSent st) /\
  (forall e ids,
      mail st' = mail st ++ [(e, true)] ->
      transactionIds (ReduceContext.values reduceContext) = Ok ids ->
      (forall id, In id ids -> updatable w id) ->
      forall id, In id ids ->
        exists internalId,
          record_load w id = Ok internalId /\ emailSent st' !! internalId = Some true) /\
  (forall internalId,
      emailSent st' !! internalId <> emailSent st !! internalId ->
      emailSent st' !! internalId = Some true /\
      exists e ids id,
        mail st' = mail st ++ [(e, true)] /\
        transactionIds (ReduceContext.values reduceContext) = Ok ids /\
        In id ids /\
        record_load w id = Ok internalId /\
        record_save w internalId = Ok tt) /\
  (forall e ids,
      mail st' = mail st ++ [(e, true)] ->
      transactionIds (ReduceContext.values reduceContext) = Ok ids ->
      emailSent st' = fst (markAll w ids (emailSent st))).
Proof.
  intro st'. subst st'.
  destruct (reduce_outcome reduceContext st) as [_ Hout].
  destruct Hout as [[Hmail Hsent] | [[e1 [Hmail Hsent]] | [e1 [ids1 [Hids [Hmail Hsent]]]]]].
  - split; [|split; [|split]].
    + intros e He. exact Hsent.
    + intros e ids He. rewrite Hmail in He. symmetry in He.
      now apply app_one_neq_self in He.
    + intros internalId Hne. now rewrite Hsent in Hne.
    + intros e ids He. rewrite Hmail in He. symmetry in He.
      now apply app_one_neq_self in He.
  - split; [|split; [|split]].
    + intros e He. exact Hsent.
    + intros e ids He. rewrite Hmail in He. apply app_inj_tail in He.
      destruct He as [_ He]. discriminate He.
    + intros internalId Hne. now rewrite Hsent in Hne.
    + intros e ids He. rewrite Hmail in He. apply app_inj_tail in He.
      destruct He as [_ He]. discriminate He.
  - split; [|split; [|split]].
    + intros e He. rewrite Hmail in He. apply app_inj_tail in He.
      destruct He as [_ He]. discriminate He.
    + intros e ids He Hids' Hok id Hid.
      rewrite Hids in Hids'. injection Hids' as <-.
      rewrite Hsent. now apply markAll_all_updatable.
    + intros internalId Hne. rewrite Hsent in Hne |- *.
      destruct (markAll_changed _ _ _ Hne) as [Hset [id [Hin [Hload Hsave]]]].
      split; [exact Hset|]. exists e1, ids1, id. auto.
    + intros e ids _ Hids'. rewrite Hids in Hids'. injection Hids' as <-.
      exact Hsent.
Qed.

Lemma reduce_earlier_flags_follow_send (reduceContext : ReduceContext.t) (st : state) :
  let st' := snd (reduce_earlier w reduceContext st) in
  (forall e, mail st' = mail st ++ [(e, false)] -> emailSent st' = emailSent st) /\
  (forall internalId,
      emailSent st' !! internalId <> emailSent st !! internalId ->
      exists e, mail st' = mail st ++ [(e, true)]).
Proof.
  intro st'. subst st'.
  destruct (reduce_earlier_outcome reduceContext st) as [_ Hout].
  destruct Hout as [[Hmail Hsent] | [[e1 [Hmail Hsent]] | [e1 [ids1 [Hids [Hmail Hsent]]]]]];
    split; try (intros e He; exact Hsent);
    try (intros internalId Hne; now rewrite Hsent in Hne).
  - intros e He. rewrite Hmail in He. apply app_inj_tail in He.
    destruct He as [_ He]. discriminate He.
  - intros internalId Hne. now exists e1.
Qed.


(** C8, as the script has it.  For an ordinary group whose message is
    merged and accepted, when the load or the save of one payment throws:
    [reduce] returns normally, the message stays sent, the error is the last
    thing logged, under [sendEmail]; the payments that come before the failing one
    in the group have their checkbox set, and the update loop ends there: the
    stored checkboxes are those left by the updates of the earlier payments,
    so no record other than theirs is changed. *)
Theorem reduce_update_failure_ends_the_updates
    (reduceContext : ReduceContext.t) (st : state)
    (emailTemplateId : jsval) (more : list jsval)
    (earlier later : list jsval) (failing : jsval) (x : exn)
    (mergeResult : string * string) :
  let ids := earlier ++ failing :: later in
  let e := groupEmail mergeResult (getParameter w SCRIPT_PARAM_EMAIL_AUTHOR)
             (index (split underscore (ReduceContext.key reduceContext)) 1)
             (vouchers w ids) in
  is_reserved (ReduceContext.key reduceContext) = false ->
  emailTemplateSearch w (index (split underscore (ReduceContext.key reduceContext)) 0)
  = Ok (emailTemplateId :: more) ->
  transactionIds (ReduceContext.values reduceContext) = Ok ids ->
  mergeEmail w emailTemplateId (getParameter w SCRIPT_PARAM_EMAIL_AUTHOR)
    (index (split underscore (ReduceContext.key reduceContext)) 1)
  = Ok mergeResult ->
  email_send w e = Ok tt ->
  (forall id, In id earlier -> updatable w id) ->
  updateFails w failing x ->
  let st' := snd (reduce w reduceContext st) in
  fst (reduce w reduceContext st) = Ok tt /\
  mail st' = mail st ++ [(e, true)] /\
  log st' = log st ++ prelude w reduceContext emailTemplateId ids mergeResult
            ++ [entry ERROR "sendEmail" (LErr x)] /\
  (forall id, In id earlier ->
     exists internalId,
       record_load w id = Ok internalId /\ emailSent st' !! internalId = Some true) /\
  emailSent st' = fst (markAll w earlier (emailSent st)) /\
  (forall internalId,
      (forall id, In id earlier -> record_load w id <> Ok internalId) ->
      emailSent st' !! internalId = emailSent st !! internalId).
Proof.
  intros ids e Hkey Hsearch Hids Hmerge Hsend Hearlier Hfailing st'. subst st'.
  rewrite (reduce_ordinary _ _ Hkey).
  rewrite (reduce_earlier_run _ _ _ _ _ _ Hsearch Hids Hmerge), sendAndMark_run.
  assert (Hstop : markAll w ids (emailSent st)
                  = (fst (markAll w earlier (emailSent st)), Some x))
    by (apply markAll_stops; assumption).
  fold e. rewrite Hsend. cbv zeta. cbn [emailSent logging]. rewrite Hstop.
  cbn [fst snd log logging marking mailing mail emailSent].
  repeat split.
  - now rewrite <- app_assoc.
  - intros id Hid. now apply markAll_all_updatable.
  - intros internalId Hother. now apply markAll_untouched.
Qed.

(** *** getInputData *)

Lemma missingParams_unset :
  missingParams (getParameter w SCRIPT_PARAM_ELIGIBLE_ACH_PAYMENTS_SEARCH)
    (getParameter w SCRIPT_PARAM_PRINT_TEMPLATE_ID)
    (getParameter w SCRIPT_PARAM_EMAIL_AUTHOR)
  = List.map fst (List.filter (unset w) requiredParameters).
Proof.
  unfold missingParams, requiredParameters, unset. cbn [List.filter snd].
  destruct (truthy (getParameter w SCRIPT_PARAM_ELIGIBLE_ACH_PAYMENTS_SEARCH)),
           (truthy (getParameter w SCRIPT_PARAM_PRINT_TEMPLATE_ID)),
           (truthy (getParameter w SCRIPT_PARAM_EMAIL_AUTHOR)); reflexivity.
Qed.

(** C7, as the script has it.  The script has three parameters: the
    eligible-payments search, the print template and the email author.  When
    any of them is unset, [getInputData] logs and throws an error whose
    message joins the labels of all the unset ones, and the run ends there
    with nothing but the log changed. *)
Theorem getInputData_names_unset_parameters (st : state) :
  (exists parameter, In parameter requiredParameters /\ unset w parameter = true) ->
  let missing := List.map fst (List.filter (unset w) requiredParameters) in
  let failure :=
    Error ("Required script parameter(s) not configured: "
           +:+ String.concat ", " missing) in
  let st' :=
    logging [entry AUDIT "Script Parameters"
               (LVal (JObj [("searchId",
                             getParameter w SCRIPT_PARAM_ELIGIBLE_ACH_PAYMENTS_SEARCH);
                            ("printTemplateId",
                             getParameter w SCRIPT_PARAM_PRINT_TEMPLATE_ID);
                            ("authorId", getParameter w SCRIPT_PARAM_EMAIL_AUTHOR)]));
             entry ERROR "Error in getInputData" (LErr failure)] st in
  getInputData w st = (Throw failure, st') /\
  (forall parameter,
      In parameter requiredParameters -> unset w parameter = true ->
      In (fst parameter) missing) /\
  run w st = st' /\
  mapOutput st' = mapOutput st /\
  reduceOutput st' = reduceOutput st /\
  mail st' = mail st /\
  emailSent st' = emailSent st.
Proof.
  intros [parameter [Hin Hunset]] missing failure st'.
  assert (Hall : forall q, In q requiredParameters -> unset w q = true ->
                           In (fst q) missing).
  { intros q Hq Hu. unfold missing. apply in_map. apply filter_In. now split. }
  assert (Hlen : (0 <? length missing)%nat = true).
  { specialize (Hall parameter Hin Hunset). destruct missing; [destruct Hall | reflexivity]. }
  assert (Hrun : getInputData w st = (Throw failure, st')).
  { unfold getInputData, try_catch. unfold bind at 1.
    unfold log_audit. rewrite log_write_logging.
    rewrite missingParams_unset. fold missing. rewrite Hlen.
    unfold throw, bind, log_error. rewrite log_write_logging, logging_logging.
    reflexivity. }
  repeat split; try assumption.
  unfold run. now rewrite Hrun.
Qed.

(** C9, as the script has it.  A row with every required field makes [map]
    write one order, under the key made of the account id, an underscore and
    the vendor id; the order records that key, and [reduce] reads the row's
    key from it as its transaction id.  When neither id holds an underscore
    and the key is not one of the two reserved keys, [reduce] on a group
    under that key works for exactly this account and this vendor: it looks
    for the template of the account id, so that without a template it only
    logs the error naming that account, and with a template it merges for
    the vendor id and makes its [email.send] call with the vendor id as
    recipient.  Whatever else is written, the shuffle puts all the orders
    written under that key into one group, the only group with that key, and
    the reduce stage calls [reduce] on it. *)
Theorem map_groupKey_joins_and_splits
    (mapContext : MapContext.t) (searchResult values : jsval) (st : state) :
  JSON_parse (MapContext.value mapContext) = Ok searchResult ->
  get_prop searchResult "values" = Ok values ->
  nullish values = false ->
  (forall f, absent values f = false) ->
  let accountId := to_string (get (get values "account") "value") in
  let vendorId := to_string (get (get values "entity") "value") in
  let key := accountId +:+ "_" +:+ vendorId in
  let authorId := getParameter w SCRIPT_PARAM_EMAIL_AUTHOR in
  let st' := snd (map mapContext st) in
  exists order,
    fst (map mapContext st) = Ok tt /\
    mapOutput st' = mapOutput st ++ [(key, Serialized order)] /\
    get order "orderId" = JStr (MapContext.key mapContext) /\
    get order "accountId" = JStr key /\
    transactionIds [Serialized order] = Ok [JStr (MapContext.key mapContext)] /\
    (contains underscore accountId = false ->
     contains underscore vendorId = false ->
     is_reserved key = false ->
     forall (reduceContext : ReduceContext.t) (st1 : state),
       ReduceContext.key reduceContext = key ->
       (emailTemplateSearch w (JStr accountId) = Ok [] ->
        let failure :=
          Error ("No email template found for account ID: " +:+ accountId) in
        reduce w reduceContext st1
        = (Ok tt,
           logging [entry DEBUG key (LTexts (ReduceContext.values reduceContext));
                    entry ERROR "searchRelatedEmailTemplate" (LErr failure);
                    entry ERROR "reduce" (LErr failure)] st1)) /\
       (forall emailTemplateId more ids mergeResult,
           emailTemplateSearch w (JStr accountId) = Ok (emailTemplateId :: more) ->
           transactionIds (ReduceContext.values reduceContext) = Ok ids ->
           mergeEmail w emailTemplateId authorId (JStr vendorId) = Ok mergeResult ->
           let e := groupEmail mergeResult authorId (JStr vendorId) (vouchers w ids) in
           recipients e = JStr vendorId /\
           exists accepted,
             mail (snd (reduce w reduceContext st1)) = mail st1 ++ [(e, accepted)])) /\
    (forall written,
        In (key, Serialized order) written ->
        exists before reduceContext after,
          shuffle written = before ++ reduceContext :: after /\
          ReduceContext.key reduceContext = key /\
          ReduceContext.values reduceContext = writtenUnder key written /\
          In (Serialized order) (ReduceContext.values reduceContext) /\
          (forall g', In g' (shuffle written) ->
                      ReduceContext.key g' = key -> g' = reduceContext) /\
          forall st1,
            stage (reduce w) (shuffle written) st1
            = stage (reduce w) after
                (snd (reduce w reduceContext (stage (reduce w) before st1)))).
Proof.
  intros Hparse Hvalues Hnn Hall accountId vendorId key authorId st'.
  assert (Hlen : (0 <? length (missingFields values))%nat = false).
  { rewrite missingFields_absent. unfold requiredFields. cbn [List.filter].
    rewrite !Hall. reflexivity. }
  exists (to_json (orderObj (MapContext.key mapContext) values)).
  subst st'. rewrite (map_on_readable_row _ _ _ _ Hparse Hvalues Hnn).
  cbv zeta. rewrite Hlen.
  unfold mapContext_write, JSON_stringify, logging.
  cbn [fst snd mapOutput reduceOutput mail emailSent log].
  destruct (orderObj_fields (MapContext.key mapContext) values) as [Hid Hkey].
  split; [reflexivity|]. split; [reflexivity|]. split; [exact Hid|].
  split; [exact Hkey|]. split; [|split].
  - rewrite (transactionIds_single
               (to_json (orderObj (MapContext.key mapContext) values)) eq_refl).
    now rewrite Hid.
  - intros Ha Hv Hord reduceContext st1 Hk.
    destruct (groupKey_parts _ _ Ha Hv) as [H0 H1]. fold key in H0, H1.
    rewrite <- Hk in H0, H1, Hord. split.
    + intros Hsearch. rewrite <- H0 in Hsearch.
      rewrite (reduce_ordinary _ _ Hord). unfold reduce_earlier, try_catch.
      rewrite (processGroup_without_template _ _ Hsearch). cbv zeta.
      unfold log_error. rewrite log_write_logging, logging_logging.
      rewrite H0, Hk. reflexivity.
    + intros emailTemplateId more ids mergeResult Hsearch Hids Hmerge.
      set (e := groupEmail mergeResult _ _ _).
      split; [reflexivity|].
      rewrite <- H0 in Hsearch. rewrite <- H1 in Hmerge.
      rewrite (reduce_ordinary _ _ Hord).
      rewrite (reduce_earlier_run _ _ _ _ _ _ Hsearch Hids Hmerge), sendAndMark_run.
      rewrite H1. fold authorId. fold e.
      destruct (email_send w e) as [[]|x].
      * exists true. cbv zeta. cbn [snd emailSent logging].
        destruct (snd (markAll w ids _)); reflexivity.
      * exists false. reflexivity.
  - intros written Horder.
    destruct (shuffle_one_group _ _ _ Horder) as [g [Hg [Hk [Hv Huniq]]]].
    destruct (in_split _ _ Hg) as [before [after Hsplit]].
    exists before, g, after.
    split; [exact Hsplit|]. split; [exact Hk|]. split; [exact Hv|].
    split; [rewrite Hv; now apply In_writtenUnder|]. split; [exact Huniq|].
    intro st1. rewrite Hsplit, stage_app. reflexivity.
Qed.

End ReduceProperties.

Section SummarizeProperties.

Variable w : world.

Lemma mapM_detail (items : list jsval) (st : state) :
  forallb (fun x => negb (nullish x)) items = true ->
  mapM detail items st = (Ok (List.map detailOf items), st).
Proof.
  induction items as [|x rest IH]; simpl; [reflexivity|].
  intro H. apply andb_prop in H. destruct H as [Hx Hrest].
  unfold bind at 1. unfold detail at 1. unfold bind, prop, lift, get_prop.
  apply negb_true_iff in Hx. rewrite Hx. unfold ret. cbv beta iota.
  rewrite (IH Hrest). reflexivity.
Qed.

Lemma bucket_records (variable : string) (v : jsval) (st : state) :
  records v = true -> bucket variable v st = (Ok (bucketOf v), st).
Proof.
  destruct v; simpl; try discriminate. intro H.
  unfold bucket, bind, lift. simpl.
  rewrite (mapM_detail _ _ H). reflexivity.
Qed.

Lemma latest_records (key : string) (output : list (string * jsonText)) :
  is_reserved key = true ->
  readable output = true ->
  forall current, records current = true -> records (latest key output current) = true.
Proof.
  intros Hkey. induction output as [|[k v] rest IH]; simpl; intros Hr current Hc;
    [exact Hc|].
  apply andb_prop in Hr. destruct Hr as [Hkv Hrest]. apply (IH Hrest).
  destruct (String.eqb k key) eqn:E; [|exact Hc].
  apply String.eqb_eq in E. subst k. rewrite Hkey in Hkv.
  destruct v; [exact Hkv | discriminate].
Qed.

Lemma eachOutput_readable (t : tally) (k : string) (v : jsonText) (st : state) :
  readable [(k, v)] = true ->
  eachOutput t (k, v) st
  = (Ok {| skipped := latest SKIPPED_RECORDS [(k, v)] (skipped t);
           errors := latest ERROR_RECORDS [(k, v)] (errors t);
           processedRecordsCount :=
             (ordinaryKeys [(k, v)] + processedRecordsCount t)%nat |},
     logging (audits [(k, v)]) st).
Proof.
  unfold readable, is_reserved. cbn [forallb fst snd]. rewrite andb_true_r.
  destruct (String.eqb k SKIPPED_RECORDS) eqn:Es.
  - apply String.eqb_eq in Es. subst k. cbn [orb].
    destruct v as [x|msg]; [|discriminate]. destruct x; try discriminate.
    intros _. reflexivity.
  - destruct (String.eqb k ERROR_RECORDS) eqn:Ee; cbn [orb].
    + apply String.eqb_eq in Ee. subst k.
      destruct v as [x|msg]; [|discriminate]. destruct x; try discriminate.
      intros _. reflexivity.
    + intros _. unfold eachOutput, ordinaryKeys, is_reserved, latest, audits.
      rewrite Es, Ee. cbn [orb app]. unfold ret, logging.
      rewrite app_nil_r. now destruct st.
Qed.

Lemma foldM_eachOutput (output : list (string * jsonText)) :
  readable output = true ->
  forall (t : tally) (st : state),
    foldM eachOutput output t st
    = (Ok {| skipped := latest SKIPPED_RECORDS output (skipped t);
             errors := latest ERROR_RECORDS output (errors t);
             processedRecordsCount :=
               (ordinaryKeys output + processedRecordsCount t)%nat |},
       logging (audits output) st).
Proof.
  induction output as [|[k v] rest IH]; intros Hr t st.
  - simpl. unfold ret, logging. rewrite app_nil_r. now destruct t, st.
  - assert (Hkv : readable [(k, v)] = true /\ readable rest = true).
    { unfold readable in *. cbn [forallb] in *. apply andb_prop in Hr.
      destruct Hr as [H1 H2]. rewrite H1. auto. }
    destruct Hkv as [Hkv Hrest].
    cbn [foldM]. unfold bind. rewrite (eachOutput_readable _ _ _ _ Hkv).
    rewrite (IH Hrest). rewrite logging_logging.
    cbn [skipped errors processedRecordsCount].
    assert (Hc : (ordinaryKeys rest + (ordinaryKeys [(k, v)] + processedRecordsCount t)
                  = ordinaryKeys ((k, v) :: rest) + processedRecordsCount t)%nat)
      by (cbn [ordinaryKeys]; destruct (is_reserved k); lia).
    assert (Ha : audits [(k, v)] ++ audits rest = audits ((k, v) :: rest))
      by (cbn [audits]; now rewrite app_nil_r).
    rewrite Hc, Ha. reflexivity.
Qed.

Lemma buildReport_readable (summaryContext : SummaryContext.t) (st : state) :
  readable (SummaryContext.output summaryContext) = true ->
  buildReport summaryContext st
  = (Ok (reportOf summaryContext,
         {| skipped := latest SKIPPED_RECORDS (SummaryContext.output summaryContext)
                         (JArr []);
            errors := latest ERROR_RECORDS (SummaryContext.output summaryContext)
                        (JArr []);
            processedRecordsCount := ordinaryKeys (SummaryContext.output summaryContext) |}),
     logging (audits (SummaryContext.output summaryContext)) st).
Proof.
  intro Hr. unfold buildReport. unfold bind at 1.
  rewrite (foldM_eachOutput _ Hr). cbn [skipped errors processedRecordsCount].
  rewrite Nat.add_0_r.
  unfold bind at 1. rewrite bucket_records
    by (apply latest_records; [reflexivity | exact Hr | reflexivity]).
  unfold bind at 1. rewrite bucket_records
    by (apply latest_records; [reflexivity | exact Hr | reflexivity]).
  reflexivity.
Qed.

Lemma lastReport_app (a b : list logEntry) :
  lastReport (a ++ b)
  = match lastReport b with Some r => Some r | None => lastReport a end.
Proof.
  induction a as [|e a IH]; simpl.
  - now destruct (lastReport b).
  - rewrite IH. now destruct (lastReport b).
Qed.

(** On a readable output [summarize] returns normally and logs the report
    after the audit entries of the loop; what it logs afterwards holds no
    other report. *)
Lemma summarize_readable (summaryContext : SummaryContext.t) (st : state) :
  readable (SummaryContext.output summaryContext) = true ->
  exists st' tail,
    summarize w summaryContext st = (Ok tt, st') /\
    log st'
    = log st ++ audits (SummaryContext.output summaryContext)
      ++ [entry AUDIT "Processing Summary" (LReport (reportOf summaryContext))]
      ++ tail /\
    lastReport tail = None /\
    mapOutput st' = mapOutput st /\
    reduceOutput st' = reduceOutput st /\
    emailSent st' = emailSent st.
Proof.
  intro Hr. unfold summarize, try_catch. unfold bind at 1.
  rewrite (buildReport_readable _ _ Hr).
  unfold bind at 1. unfold log_audit. rewrite log_write_logging.
  unfold bind at 1. unfold notify. cbn [skipped errors].
  destruct ((0 <? length (items_of (latest SKIPPED_RECORDS _ _)))%nat
            || (0 <? length (items_of (latest ERROR_RECORDS _ _)))%nat).
  - unfold email_send_call. destruct (email_send w _) as [u|x].
    + unfold bind. rewrite !log_write_logging.
      eexists; eexists. split; [reflexivity|].
      cbn [log logging mapOutput reduceOutput emailSent].
      repeat split; [rewrite <- !app_assoc; reflexivity | reflexivity].
    + unfold log_error. rewrite log_write_logging.
      eexists; eexists. split; [reflexivity|].
      cbn [log logging mapOutput reduceOutput emailSent].
      repeat split; [rewrite <- !app_assoc; reflexivity | reflexivity].
  - unfold ret, bind. rewrite !log_write_logging.
    eexists; eexists. split; [reflexivity|].
    cbn [log logging mapOutput reduceOutput emailSent].
    repeat split; [rewrite <- !app_assoc; reflexivity | reflexivity].
Qed.

Lemma summarize_logs_report
    (summaryContext : SummaryContext.t) (st : state) :
  readable (SummaryContext.output summaryContext) = true ->
  exists r,
    lastReport (log (snd (summarize w summaryContext st))) = Some r /\
    successfullyProcessed r = ordinaryKeys (SummaryContext.output summaryContext).
Proof.
  intros Hr.
  destruct (summarize_readable summaryContext st Hr)
    as [st1 [tail [Hrun [Hlog [Htail _]]]]].
  rewrite Hrun. cbn [snd].
  exists (reportOf summaryContext). rewrite Hlog. split; [|reflexivity].
  rewrite !lastReport_app, Htail. reflexivity.
Qed.

(** On a readable output the report counts, as processed, the entries under
    ordinary keys and, as skipped and as errors, the records of the last entry
    under each reserved key. *)
Lemma summarize_counts_entries_and_records
    (summaryContext : SummaryContext.t) (st : state) :
  readable (SummaryContext.output summaryContext) = true ->
  let output := SummaryContext.output summaryContext in
  let st' := snd (summarize w summaryContext st) in
  exists r,
    lastReport (log st') = Some r /\
    In (entry AUDIT "Processing Summary" (LReport r)) (log st') /\
    successfullyProcessed r = ordinaryKeys output /\
    count (skippedRecords r)
    = length (items_of (latest SKIPPED_RECORDS output (JArr []))) /\
    count (errorRecords r)
    = length (items_of (latest ERROR_RECORDS output (JArr []))).
Proof.
  intros Hr output st'. subst st'.
  destruct (summarize_readable summaryContext st Hr)
    as [st1 [tail [Hrun [Hlog [Htail _]]]]].
  rewrite Hrun. cbn [snd].
  exists (reportOf summaryContext). rewrite Hlog. repeat split.
  - rewrite !lastReport_app, Htail. reflexivity.
  - rewrite !in_app_iff. right. right. left. now left.
Qed.

(** *** From the rows to the report *)

Lemma map_writes_objects (mapContext : MapContext.t) (st : state) :
  exists new,
    mapOutput (snd (map mapContext st)) = mapOutput st ++ new /\
    Forall (fun kv => isObject (snd kv) = true) new /\
    reduceOutput (snd (map mapContext st)) = reduceOutput st.
Proof.
  unfold map, try_catch, map_try, bind, prop, lift, log_debug, log_write, get_prop.
  destruct (JSON_parse (MapContext.value mapContext)) as [searchResult|e].
  - destruct (nullish searchResult).
    + exists []. cbn. rewrite app_nil_r. auto.
    + cbv beta iota. destruct (nullish (get searchResult "values")).
      * exists []. cbn. rewrite app_nil_r. auto.
      * cbv beta iota.
        destruct (0 <? length (missingFields (get searchResult "values")))%nat.
        -- eexists. cbn. split; [reflexivity|]. split; [|reflexivity].
           repeat constructor.
        -- eexists. cbn. split; [reflexivity|]. split; [|reflexivity].
           repeat constructor.
  - exists []. cbn. rewrite app_nil_r. auto.
Qed.

Lemma stage_map_writes_objects (rows : list MapContext.t) :
  forall st : state,
    exists new,
      mapOutput (stage map rows st) = mapOutput st ++ new /\
      Forall (fun kv => isObject (snd kv) = true) new /\
      reduceOutput (stage map rows st) = reduceOutput st.
Proof.
  induction rows as [|row rest IH]; intro st; simpl.
  - exists []. rewrite app_nil_r. auto.
  - destruct (map_writes_objects row st) as [new1 [H1 [F1 R1]]].
    destruct (IH (snd (map row st))) as [new2 [H2 [F2 R2]]].
    exists (new1 ++ new2). rewrite H2, H1, R2, R1, app_assoc.
    repeat split. apply Forall_app. auto.
Qed.

Lemma addToGroup_Forall (P : jsonText -> Prop) (k : string) (v : jsonText)
    (groups : list ReduceContext.t) :
  P v ->
  Forall (fun g => Forall P (ReduceContext.values g)) groups ->
  Forall (fun g => Forall P (ReduceContext.values g)) (addToGroup k v groups).
Proof.
  intros Hv. induction groups as [|g rest IH]; simpl; intro H.
  - repeat constructor. exact Hv.
  - inversion H as [|? ? Hg Hrest]; subst.
    destruct (String.eqb k (ReduceContext.key g)).
    + constructor; [|exact Hrest]. cbn. apply Forall_app. auto.
    + constructor; auto.
Qed.

Lemma shuffle_Forall (P : jsonText -> Prop) (written : list (string * jsonText)) :
  Forall (fun kv => P (snd kv)) written ->
  Forall (fun g => Forall P (ReduceContext.values g)) (shuffle written).
Proof.
  unfold shuffle.
  assert (H : forall groups,
             Forall (fun g => Forall P (ReduceContext.values g)) groups ->
             Forall (fun kv => P (snd kv)) written ->
             Forall (fun g => Forall P (ReduceContext.values g))
               (fold_left (fun groups kv => addToGroup (fst kv) (snd kv) groups)
                  written groups)).
  { induction written as [|kv rest IH]; intros groups Hg Hw; simpl; [exact Hg|].
    inversion Hw; subst. apply IH; [|assumption]. now apply addToGroup_Forall. }
  intro Hw. apply H; [constructor | exact Hw].
Qed.

Lemma parseAll_objects (values : list jsonText) :
  Forall (fun v => isObject v = true) values ->
  exists items,
    parseAll values = Ok items /\
    length items = length values /\
    records (to_json (JArr items)) = true.
Proof.
  induction values as [|v rest IH]; intro H; simpl.
  - exists []. auto.
  - inversion H as [|? ? Hv Hrest]; subst.
    destruct (IH Hrest) as [items [Hparse [Hlen Hrec]]].
    destruct v as [x|msg]; [|discriminate]. destruct x; try discriminate.
    simpl. rewrite Hparse. eexists. split; [reflexivity|].
    simpl in *. split; [now rewrite Hlen | exact Hrec].
Qed.

Lemma reduce_output (reduceContext : ReduceContext.t) (st : state) :
  exists new,
    reduceOutput (snd (reduce w reduceContext st)) = reduceOutput st ++ new /\
    reservedOnly new = true /\
    (Forall (fun v => isObject v = true) (ReduceContext.values reduceContext) ->
     readable new = true).
Proof.
  unfold reduce, try_catch.
  destruct (is_reserved (ReduceContext.key reduceContext)) eqn:Hkey.
  - rewrite passThrough_run.
    destruct (parseAll (ReduceContext.values reduceContext)) as [items|e] eqn:Hparse.
    + eexists. cbn [snd outputting reduceOutput]. split; [reflexivity|]. split.
      * unfold reservedOnly. cbn. now rewrite Hkey.
      * intro Hobj. destruct (parseAll_objects _ Hobj) as [items' [Hp [_ Hrec]]].
        rewrite Hparse in Hp. injection Hp as <-.
        unfold readable. cbn [forallb fst snd JSON_stringify].
        now rewrite Hkey, Hrec.
    + exists []. cbn. rewrite app_nil_r. auto.
  - pose proof (processGroup_outcome w reduceContext st) as [_ Hout].
    destruct (processGroup w reduceContext st) as [[u|e] st1]; cbn [snd] in *.
    + exists []. rewrite app_nil_r. auto.
    + exists []. cbn. rewrite app_nil_r. auto.
Qed.

Lemma stage_reduce_output (groups : list ReduceContext.t) :
  forall st : state,
    exists new,
      reduceOutput (stage (reduce w) groups st) = reduceOutput st ++ new /\
      reservedOnly new = true /\
      (Forall (fun g => Forall (fun v => isObject v = true) (ReduceContext.values g))
         groups ->
       readable new = true).
Proof.
  induction groups as [|g rest IH]; intro st; simpl.
  - exists []. rewrite app_nil_r. auto.
  - destruct (reduce_output g st) as [new1 [H1 [R1 O1]]].
    destruct (IH (snd (reduce w g st))) as [new2 [H2 [R2 O2]]].
    exists (new1 ++ new2). rewrite H2, H1, app_assoc. split; [reflexivity|].
    unfold reservedOnly, readable in *. rewrite !forallb_app. split.
    + now rewrite R1, R2.
    + intro H. inversion H; subst. rewrite O1, O2 by assumption. reflexivity.
Qed.

Lemma ordinaryKeys_reservedOnly (output : list (string * jsonText)) :
  reservedOnly output = true -> ordinaryKeys output = O.
Proof.
  induction output as [|[k v] rest IH]; simpl; [reflexivity|].
  intro H. apply andb_prop in H. destruct H as [Hk Hrest].
  simpl in Hk. rewrite Hk. now apply IH.
Qed.

Lemma latest_app (k : string) (a b : list (string * jsonText)) :
  forall current, latest k (a ++ b) current = latest k b (latest k a current).
Proof.
  induction a as [|[k' v] a IH]; intro current; simpl; [reflexivity|]. apply IH.
Qed.

Lemma parseAll_payload (values : list jsonText) :
  Forall (fun v => isObject v = true) values ->
  parseAll values = Ok (List.map payload values).
Proof.
  induction values as [|v rest IH]; intro H; simpl; [reflexivity|].
  inversion H as [|? ? Hv Hrest]; subst.
  destruct v as [x|msg]; [|discriminate]. simpl. now rewrite (IH Hrest).
Qed.

Lemma length_passedThrough (values : list jsonText) :
  length (items_of (passedThrough values)) = length values.
Proof.
  unfold passedThrough. simpl. now rewrite !length_map.
Qed.

(** What [reduce] writes for a group of serialized objects: under a reserved
    key the array of its records, otherwise nothing. *)
Lemma reduce_output_of_objects (reduceContext : ReduceContext.t) (st : state) :
  Forall (fun v => isObject v = true) (ReduceContext.values reduceContext) ->
  reduceOutput (snd (reduce w reduceContext st))
  = reduceOutput st
    ++ (if is_reserved (ReduceContext.key reduceContext)
        then [(ReduceContext.key reduceContext,
               Serialized (passedThrough (ReduceContext.values reduceContext)))]
        else []).
Proof.
  intro Hobj. unfold reduce, try_catch.
  destruct (is_reserved (ReduceContext.key reduceContext)) eqn:Hkey.
  - rewrite passThrough_run, (parseAll_payload _ Hobj). reflexivity.
  - pose proof (processGroup_outcome w reduceContext st) as [_ Hout].
    rewrite app_nil_r.
    destruct (processGroup w reduceContext st) as [[u|e] st1]; cbn [snd] in *;
      exact Hout.
Qed.

Lemma groupValues_absent (k : string) (groups : list ReduceContext.t) :
  existsb (String.eqb k) (List.map ReduceContext.key groups) = false ->
  groupValues k groups = [].
Proof.
  induction groups as [|g rest IH]; simpl; [reflexivity|].
  intro H. apply orb_false_iff in H. destruct H as [Hg Hrest].
  rewrite Hg. now apply IH.
Qed.

(** After the reduce stage on groups of serialized objects with pairwise
    different keys, the last entry under a reserved key holds one record per
    value of the group with that key. *)
Lemma stage_reduce_latest (groups : list ReduceContext.t) :
  Forall (fun g => Forall (fun v => isObject v = true) (ReduceContext.values g)) groups ->
  NoDup (List.map ReduceContext.key groups) ->
  forall st : state,
    exists new,
      reduceOutput (stage (reduce w) groups st) = reduceOutput st ++ new /\
      forall k current,
        is_reserved k = true ->
        length (items_of (latest k new current))
        = if existsb (String.eqb k) (List.map ReduceContext.key groups)
          then length (groupValues k groups)
          else length (items_of current).
Proof.
  induction groups as [|g rest IH]; intros Hobj Hnd st.
  - exists []. simpl. rewrite app_nil_r. auto.
  - inversion Hobj as [|? ? Hg Hrest]; subst.
    inversion Hnd as [|? ? Hnotin Hnd']; subst.
    destruct (IH Hrest Hnd' (snd (reduce w g st))) as [new [Hnew Hlatest]].
    eexists. split.
    + cbn [stage]. rewrite Hnew, (reduce_output_of_objects g st Hg), <- app_assoc.
      reflexivity.
    + intros k current Hk. rewrite latest_app, (Hlatest _ _ Hk).
      cbn [List.map existsb groupValues].
      destruct (String.eqb k (ReduceContext.key g)) eqn:E.
      * apply String.eqb_eq in E. subst k. rewrite Hk. cbn [orb].
        assert (Hrestkey : existsb (String.eqb (ReduceContext.key g))
                             (List.map ReduceContext.key rest) = false).
        { destruct (existsb _ _) eqn:Ex; [|reflexivity].
          apply existsb_exists in Ex. destruct Ex as [k' [Hin Heq]].
          apply String.eqb_eq in Heq. subst k'.
          exfalso. apply Hnotin. now apply list_elem_of_In. }
        rewrite Hrestkey. cbn [latest]. rewrite String.eqb_refl.
        apply length_passedThrough.
      * cbn [orb].
        assert (Hsame : latest k
                          (if is_reserved (ReduceContext.key g)
                           then [(ReduceContext.key g,
                                  Serialized (passedThrough (ReduceContext.values g)))]
                           else []) current = current).
        { destruct (is_reserved (ReduceContext.key g)); [|reflexivity].
          cbn [latest]. rewrite String.eqb_sym, E. reflexivity. }
        rewrite Hsame. reflexivity.
Qed.

Lemma output_summaryContextOf (st : state) :
  SummaryContext.output (summaryContextOf w st) = reduceOutput st.
Proof.
  unfold summaryContextOf. now destruct (statistics w) as [[[total u] c] y].
Qed.

(** C4, as the script has it.  In a run that starts with nothing written,
    [summarize] logs a report in which [successfullyProcessed] is the number
    of entries the reduce stage wrote under ordinary keys, the skipped count
    is the number of records the map stage wrote under [SKIPPED_RECORDS] and
    the error count the number of records it wrote under [ERROR_RECORDS]:
    the two buckets are counted by record, not by key. *)
Theorem report_counts_records_of_the_buckets (rows : list MapContext.t) (st : state) :
  mapOutput st = [] ->
  reduceOutput st = [] ->
  let st1 := stage map rows st in
  let st2 := stage (reduce w) (shuffle (mapOutput st1)) st1 in
  exists r,
    lastReport (log (stages w rows st)) = Some r /\
    successfullyProcessed r = ordinaryKeys (reduceOutput st2) /\
    count (skippedRecords r) = length (writtenUnder SKIPPED_RECORDS (mapOutput st1)) /\
    count (errorRecords r) = length (writtenUnder ERROR_RECORDS (mapOutput st1)).
Proof.
  intros Hmap Hreduce st1 st2.
  destruct (stage_map_writes_objects rows st) as [written [Hw [Fw Rw]]].
  fold st1 in Hw, Rw. rewrite Hmap in Hw. rewrite Hreduce in Rw. simpl in Hw.
  assert (Hobj : Forall (fun g => Forall (fun v => isObject v = true)
                                    (ReduceContext.values g))
                   (shuffle (mapOutput st1)))
    by (rewrite Hw; now apply shuffle_Forall).
  destruct (stage_reduce_output (shuffle (mapOutput st1)) st1) as [new [H [_ O]]].
  destruct (stage_reduce_latest _ Hobj (shuffle_keys_NoDup _) st1)
    as [new' [H' Hlatest]].
  fold st2 in H, H'. rewrite H in H'. apply app_inv_head in H'. subst new'.
  rewrite Rw in H. simpl in H.
  assert (Hout : readable (SummaryContext.output (summaryContextOf w st2)) = true)
    by (rewrite output_summaryContextOf, H; now apply O).
  destruct (summarize_counts_entries_and_records (summaryContextOf w st2) st2 Hout)
    as [r [Hlast [_ [Hp [Hs He]]]]].
  assert (Hbucket : forall k, is_reserved k = true ->
            length (items_of (latest k new (JArr [])))
            = length (writtenUnder k (mapOutput st1))).
  { intros k Hk. rewrite (Hlatest k (JArr []) Hk), <- groupValues_shuffle.
    destruct (existsb _ _) eqn:Ex; [reflexivity|].
    now rewrite (groupValues_absent _ _ Ex). }
  exists r. rewrite output_summaryContextOf, H in Hp, Hs, He.
  rewrite H, Hp, Hs, He. repeat split.
  - exact Hlast.
  - now apply Hbucket.
  - now apply Hbucket.
Qed.

(** C10.  Whatever the groups, the reduce stage writes under the two
    reserved keys only.  So in a run that starts with nothing written, and
    whatever mail the groups sent, the output handed to [summarize] holds
    reserved keys only, [summarize] logs its report, and the report's
    [successfullyProcessed] is 0. *)
Theorem reduce_output_never_counts_as_processed (rows : list MapContext.t) (st : state) :
  mapOutput st = [] ->
  reduceOutput st = [] ->
  let st1 := stage map rows st in
  let st2 := stage (reduce w) (shuffle (mapOutput st1)) st1 in
  (forall groups st0,
      exists new,
        reduceOutput (stage (reduce w) groups st0) = reduceOutput st0 ++ new /\
        reservedOnly new = true) /\
  reservedOnly (reduceOutput st2) = true /\
  exists r,
    lastReport (log (stages w rows st)) = Some r /\
    successfullyProcessed r = O.
Proof.
  intros Hmap Hreduce st1 st2.
  split.
  { intros groups st0.
    destruct (stage_reduce_output groups st0) as [new [H [R _]]]. now exists new. }
  destruct (stage_map_writes_objects rows st) as [written [Hw [Fw Rw]]].
  fold st1 in Hw, Rw. rewrite Hmap in Hw. rewrite Hreduce in Rw. simpl in Hw.
  destruct (stage_reduce_output (shuffle (mapOutput st1)) st1) as [new [H [R O]]].
  fold st2 in H. rewrite Rw in H. simpl in H.
  assert (Hread : readable new = true).
  { apply O. rewrite Hw. now apply shuffle_Forall. }
  rewrite H. split; [exact R|].
  assert (Hout : readable (SummaryContext.output (summaryContextOf w st2)) = true)
    by (rewrite output_summaryContextOf, H; exact Hread).
  destruct (summarize_logs_report (summaryContextOf w st2) st2 Hout)
    as [r [Hlast Hcount]].
  exists r. split.
  - exact Hlast.
  - rewrite Hcount, output_summaryContextOf, H. now apply ordinaryKeys_reservedOnly.
Qed.

End SummarizeProperties.

(** ** The properties on the deployment *)

(** C1 on [payment104], which has neither transaction date nor id. *)
Lemma map_skips_payment104 :
  exists skippedRecord,
    fst (map Office.payment104 initial) = Ok tt /\
    mapOutput (snd (map Office.payment104 initial))
    = [(SKIPPED_RECORDS, Serialized skippedRecord)] /\
    get skippedRecord "errorNote"
    = JStr "Missing required fields: transaction date, transaction ID".
Proof.
  destruct (map_skips_row_lacking_required_field Office.payment104 _ _ initial
              eq_refl eq_refl eq_refl (ex_intro _ TransactionDate eq_refl))
    as [r [Hret [Hout [_ [Hnote _]]]]].
  exists r. repeat split; assumption.
Defined.

(** C5 on [payment107], whose text is not JSON: the error leaves [map] and
    nothing is written. *)
Lemma map_throws_on_payment107 :
  fst (map Office.payment107 initial) = Throw (ReferenceError "values is not defined") /\
  mapOutput (snd (map Office.payment107 initial)) = [].
Proof.
  rewrite (map_error_escapes_unrecorded Office.payment107 initial).
  - split; reflexivity.
  - intros searchResult H. discriminate H.
Defined.

(** The same on [payment109], which parses but has no [values]. *)
Example map_throws_on_payment109 :
  map Office.payment109 initial
  = (Throw (ReferenceError "values is not defined"),
     logging [entry DEBUG "Map Input"
                (LInput "109" (MapContext.value Office.payment109))] initial).
Proof. reflexivity. Qed.

(** C9 as stated fails on [payment106]: every required field is there, the
    account id is [A_1] and the vendor id [V1]; the key is [A_1_V1], which
    splits into [A] at index 0 and [1] at index 1, and [reduce] on the group
    of that key looks for the template of account [A]. *)
Lemma groupKey_of_payment106_does_not_split_back :
  let w := Office.deployment [] [] [] false in
  let values := Office.valuesOf Office.payment106 in
  let written := mapOutput (snd (map Office.payment106 initial)) in
  let reduceContext := Office.firstGroup [Office.payment106] in
  List.filter (absent values) requiredFields = [] /\
  get (get values "account") "value" = JStr "A_1" /\
  get (get values "entity") "value" = JStr "V1" /\
  List.map fst written = ["A_1_V1"] /\
  ReduceContext.key reduceContext = "A_1_V1" /\
  index (split underscore "A_1_V1") 0 = JStr "A" /\
  index (split underscore "A_1_V1") 1 = JStr "1" /\
  last (log (snd (reduce w reduceContext initial)))
  = Some (entry ERROR "reduce"
            (LErr (Error "No email template found for account ID: A"))).
Proof.
  vm_compute. repeat split.
Qed.

(** The same claim fails on [payment111] too: every required field is
    there and neither id holds an underscore, but the key is [ERROR_RECORDS]:
    [reduce] takes the group for the bucket of the error records, sends
    nothing, and the report counts the payment as an error record. *)
Example reduce_takes_payment111_for_an_error_record :
  let w := Office.deployment [] [] [] false in
  let values := Office.valuesOf Outage.payment111 in
  let st := stages w [Outage.payment111] initial in
  List.filter (absent values) requiredFields = [] /\
  List.map fst (mapOutput st) = [ERROR_RECORDS] /\
  List.map fst (reduceOutput st) = [ERROR_RECORDS] /\
  List.map (fun m => recipients (fst m)) (mail st) = [JStr "admin@yourcompany.com"] /\
  emailSent st = emailSent initial /\
  option_map (fun r => (successfullyProcessed r, count (skippedRecords r),
                        count (errorRecords r))) (lastReport (log st))
  = Some (0%nat, 0%nat, 1%nat).
Proof.
  vm_compute. repeat split.
Qed.

(** C9 on [payment101]: [reduce] on the group of its order addresses vendor
    [V1]. *)
Lemma groupKey_of_payment101_splits_back :
  let w := Office.deployment [] [] [] false in
  exists order e accepted,
    mapOutput (snd (map Office.payment101 initial)) = [("A1_V1", Serialized order)] /\
    get order "accountId" = JStr "A1_V1" /\
    mail (snd (reduce w (ReduceContext.Build "A1_V1" [Serialized order]) initial))
    = [(e, accepted)] /\
    recipients e = JStr "V1".
Proof.
  intro w.
  destruct (map_groupKey_joins_and_splits w Office.payment101 _ _ initial
              eq_refl eq_refl eq_refl)
    as [order [_ [Hout [_ [Hkey [Hids [Hreduce _]]]]]]].
  - intro f. destruct f; reflexivity.
  - destruct (Hreduce eq_refl eq_refl eq_refl
                (ReduceContext.Build "A1_V1" [Serialized order]) initial eq_refl)
      as [_ Hsend].
    destruct (Hsend (JStr "55") [] [JStr "101"]
                ("Your ACH payment", "Please find your vouchers attached.")
                eq_refl Hids eq_refl) as [Hto [accepted Hmail]].
    exists order. eexists. exists accepted.
    split; [exact Hout|]. split; [exact Hkey|]. split; [exact Hmail | exact Hto].
Defined.

(** C7 as stated fails: with the three parameters of the script set and
    every other parameter unset, whatever its name, [getInputData] returns
    the rows of the search. *)
Lemma getInputData_needs_no_recipient_parameter :
  let w := Office.deployment [Office.payment101] [] [] false in
  (forall name,
      In name (List.map snd requiredParameters) \/ getParameter w name = JNull) /\
  fst (getInputData w initial) = Ok [Office.payment101].
Proof.
  split; [|reflexivity].
  intro name. cbn [getParameter Office.deployment]. unfold Office.parameters.
  destruct (String.eqb name SCRIPT_PARAM_ELIGIBLE_ACH_PAYMENTS_SEARCH) eqn:E1;
    [apply String.eqb_eq in E1; subst; left; simpl; tauto|].
  destruct (String.eqb name SCRIPT_PARAM_PRINT_TEMPLATE_ID) eqn:E2;
    [apply String.eqb_eq in E2; subst; left; simpl; tauto|].
  destruct (String.eqb name SCRIPT_PARAM_EMAIL_AUTHOR) eqn:E3;
    [apply String.eqb_eq in E3; subst; left; simpl; tauto|].
  now right.
Qed.

(** C7 on the deployment without print template and author. *)
Lemma getInputData_names_both_unset_parameters :
  let w := Office.without [SCRIPT_PARAM_EMAIL_AUTHOR; SCRIPT_PARAM_PRINT_TEMPLATE_ID]
             (Office.deployment [Office.payment101] [] [] false) in
  fst (getInputData w initial)
  = Throw (Error "Required script parameter(s) not configured: Print Template ID, Email Author")
  /\ mapOutput (run w initial) = [] /\ mail (run w initial) = [].
Proof.
  intro w.
  destruct (getInputData_names_unset_parameters w initial) as [Hrun [_ [Hhalt _]]].
  - exists ("Email Author", SCRIPT_PARAM_EMAIL_AUTHOR). split; [|reflexivity].
    simpl. tauto.
  - rewrite Hrun, Hhalt. repeat split.
Defined.

(** C3 on the group of account [A9], which has no template. *)
Lemma reduce_only_logs_for_account_A9 :
  let w := Office.deployment [] [] [] false in
  let st' := snd (reduce w Office.groupWithoutTemplate initial) in
  fst (reduce w Office.groupWithoutTemplate initial) = Ok tt /\
  mail st' = [] /\ emailSent st' = ∅ /\ reduceOutput st' = [] /\
  length (log st') = 3%nat.
Proof.
  intros w st'. subst st'.
  destruct (reduce_without_template_only_logs w Office.groupWithoutTemplate initial
              eq_refl eq_refl) as [Hrun _].
  rewrite Hrun. repeat split.
Defined.

(** C2 as stated fails: the message of the group is accepted, payment 105
    belongs to the group, its record loads, and its checkbox is not set,
    because its save throws. *)
Lemma reduce_sends_but_leaves_105_unset :
  let w := Office.deployment [] [] ["105"] false in
  let st' := snd (reduce w Office.group initial) in
  List.map snd (mail st') = [true] /\
  transactionIds (ReduceContext.values Office.group) = Ok [JStr "101"; JStr "105"] /\
  record_load w (JStr "105") = Ok "105" /\
  emailSent st' !! "101" = Some true /\
  emailSent st' !! "105" = None.
Proof.
  vm_compute. repeat split.
Qed.

(** C2 where every record saves. *)
Lemma reduce_sets_105_after_sending :
  let w := Office.deployment [] [] [] false in
  exists internalId,
    record_load w (JStr "105") = Ok internalId /\
    emailSent (snd (reduce w Office.group initial)) !! internalId = Some true.
Proof.
  intro w.
  eapply (proj1 (proj2 (reduce_flags_follow_send w Office.group initial))
            _ [JStr "101"; JStr "105"]).
  - vm_compute. reflexivity.
  - reflexivity.
  - intros id [<-|[<-|[]]]; eexists; split; reflexivity.
  - right. now left.
Defined.


(** C8 as stated fails: the message is accepted, the save of payment 101
    throws, payment 105 can be loaded and saved, and its checkbox is not
    set. *)
Lemma reduce_leaves_105_unset_after_101_fails :
  let w := Office.deployment [] [] ["101"] false in
  let st' := snd (reduce w Office.group initial) in
  List.map snd (mail st') = [true] /\
  transactionIds (ReduceContext.values Office.group) = Ok [JStr "101"; JStr "105"] /\
  record_save w "101" = Throw (Error "Record has been changed") /\
  record_load w (JStr "105") = Ok "105" /\
  record_save w "105" = Ok tt /\
  emailSent st' !! "105" = None.
Proof.
  vm_compute. repeat split.
Qed.

(** C8 where the save of payment 105, the second of the group, throws. *)
Lemma reduce_keeps_101_set_when_105_fails :
  let w := Office.deployment [] [] ["105"] false in
  let st' := snd (reduce w Office.group initial) in
  fst (reduce w Office.group initial) = Ok tt /\
  List.map snd (mail st') = [true] /\
  emailSent st' !! "101" = Some true /\
  emailSent st' !! "105" = None /\
  last (log st')
  = Some (entry ERROR "sendEmail" (LErr (Error "Record has been changed"))).
Proof.
  intros w st'. subst st'.
  destruct (reduce_update_failure_ends_the_updates w Office.group initial
              (JStr "55") [] [JStr "101"] [] (JStr "105")
              (Error "Record has been changed")
              ("Your ACH payment", "Please find your vouchers attached.")
              eq_refl eq_refl eq_refl eq_refl eq_refl)
    as [Hret [Hmail [Hlog [Hearlier [Hsent _]]]]].
  - intros id [<-|[]]. exists "101". split; reflexivity.
  - right. exists "105". split; reflexivity.
  - rewrite Hret, Hmail, Hlog, Hsent. vm_compute. repeat split.
Defined.

(** C4 as stated fails: two rows are skipped; the shuffle makes one group,
    under [SKIPPED_RECORDS]; the report counts 0 processed, 2 skipped and 0
    errors. *)
Lemma report_counts_two_records_for_one_key :
  let w := Office.deployment [] [] [] false in
  let st := stages w [Office.payment102; Office.payment104] initial in
  List.map ReduceContext.key (shuffle (mapOutput st)) = [SKIPPED_RECORDS] /\
  exists r,
    lastReport (log st) = Some r /\
    successfullyProcessed r = 0%nat /\
    count (skippedRecords r) = 2%nat /\
    count (errorRecords r) = 0%nat /\
    (successfullyProcessed r + count (skippedRecords r) + count (errorRecords r))%nat
    <> length (shuffle (mapOutput st)).
Proof.
  vm_compute. split; [reflexivity|].
  eexists. split; [reflexivity|]. repeat split. discriminate.
Qed.

(** C4 on three rows, one of them skipped. *)
Lemma report_of_three_rows_counts_one_skipped_record :
  let w := Office.deployment [] [] [] false in
  let st := stages w [Office.payment101; Office.payment102; Office.payment103] initial in
  exists r,
    lastReport (log st) = Some r /\
    successfullyProcessed r = 0%nat /\
    count (skippedRecords r) = 1%nat /\
    count (errorRecords r) = 0%nat.
Proof.
  intros w st. subst st.
  destruct (report_counts_records_of_the_buckets w
              [Office.payment101; Office.payment102; Office.payment103] initial
              eq_refl eq_refl) as [r [Hlast [Hp [Hs He]]]].
  exists r. rewrite Hp, Hs, He. split; [exact Hlast|]. vm_compute. repeat split.
Defined.

(** C10 on three rows: two groups get their mail, one row is skipped, and
    the report counts no group as processed. *)
Lemma report_of_three_rows_counts_none_processed :
  let w := Office.deployment [] [] [] false in
  let st := stages w [Office.payment101; Office.payment102; Office.payment103] initial in
  exists r, lastReport (log st) = Some r /\ successfullyProcessed r = 0%nat.
Proof.
  intros w st. subst st.
  destruct (reduce_output_never_counts_as_processed w
              [Office.payment101; Office.payment102; Office.payment103] initial
              eq_refl eq_refl) as [_ [_ [r [Hlast Hzero]]]].
  exists r. split; assumption.
Defined.

(** The end-to-end scenario of the specification: a complete row for
    [A1]/[V1], a row without vendor email, a complete row for [A1]/[V2].  Both
    vendors get their mail and both payments their checkbox, the third mail
    is the report to the administrator, one record is skipped, and
    [successfullyProcessed] is 0. *)
Example scenario_of_three_rows :
  let w := Office.deployment [] [] [] false in
  let st := stages w [Office.payment101; Office.payment102; Office.payment103] initial in
  List.map (fun m => (recipients (fst m), snd m)) (mail st)
  = [(JStr "V1", true); (JStr "V2", true); (JStr "admin@yourcompany.com", true)] /\
  emailSent st !! "101" = Some true /\
  emailSent st !! "103" = Some true /\
  emailSent st !! "102" = None /\
  option_map (fun r => (successfullyProcessed r, count (skippedRecords r),
                        count (errorRecords r))) (lastReport (log st))
  = Some (0%nat, 1%nat, 0%nat).
Proof.
  vm_compute. repeat split.
Qed.

(** ** Further properties of the entry points *)

(** Run the statement at the head of a sequence when it is a log call. *)
Ltac log_next :=
  unfold bind at 1; unfold log_debug, log_audit, log_error;
  rewrite log_write_logging.

Section InputProperties.

Variable w : world.

Lemma missingParams_all_set :
  (forall parameter, In parameter requiredParameters -> unset w parameter = false) ->
  missingParams (getParameter w SCRIPT_PARAM_ELIGIBLE_ACH_PAYMENTS_SEARCH)
    (getParameter w SCRIPT_PARAM_PRINT_TEMPLATE_ID)
    (getParameter w SCRIPT_PARAM_EMAIL_AUTHOR) = [].
Proof.
  intro Hset. rewrite missingParams_unset. unfold requiredParameters.
  cbn [List.filter].
  rewrite !Hset by (unfold requiredParameters; simpl; tauto). reflexivity.
Qed.

(** X1.  With the three parameters set and a saved search that loads,
    [getInputData] returns the rows of the search, having logged the
    parameters and the number of rows found and changed nothing else. *)
Theorem getInputData_returns_the_rows (rows : list MapContext.t) (st : state) :
  (forall parameter, In parameter requiredParameters -> unset w parameter = false) ->
  search_load w (getParameter w SCRIPT_PARAM_ELIGIBLE_ACH_PAYMENTS_SEARCH) = Ok rows ->
  getInputData w st
  = (Ok rows,
     logging [entry AUDIT "Script Parameters"
                (LVal (JObj [("searchId",
                              getParameter w SCRIPT_PARAM_ELIGIBLE_ACH_PAYMENTS_SEARCH);
                             ("printTemplateId",
                              getParameter w SCRIPT_PARAM_PRINT_TEMPLATE_ID);
                             ("authorId", getParameter w SCRIPT_PARAM_EMAIL_AUTHOR)]));
              entry AUDIT "Input Data Records"
                (LVal (JStr ("Found " +:+ string_of_Z (Z.of_nat (length rows))
                             +:+ " eligible payment records to process")))] st).
Proof.
  intros Hset Hload. unfold getInputData, try_catch.
  log_next. rewrite (missingParams_all_set Hset). cbn [length Nat.ltb Nat.leb].
  unfold bind at 1, lift. rewrite Hload.
  log_next. unfold ret. rewrite logging_logging. reflexivity.
Qed.

(** X2.  With the three parameters set and a saved search that does not
    load, [getInputData] throws a new error whose message gives the search
    id and the message of the load error; that error is logged, and the run
    ends there with nothing but the log changed. *)
Theorem getInputData_wraps_the_load_error (x : exn) (st : state) :
  (forall parameter, In parameter requiredParameters -> unset w parameter = false) ->
  search_load w (getParameter w SCRIPT_PARAM_ELIGIBLE_ACH_PAYMENTS_SEARCH) = Throw x ->
  let searchId := getParameter w SCRIPT_PARAM_ELIGIBLE_ACH_PAYMENTS_SEARCH in
  let failure :=
    Error ("Invalid search ID (" +:+ to_string searchId +:+ "): " +:+ message x) in
  let st' :=
    logging [entry AUDIT "Script Parameters"
               (LVal (JObj [("searchId", searchId);
                            ("printTemplateId",
                             getParameter w SCRIPT_PARAM_PRINT_TEMPLATE_ID);
                            ("authorId", getParameter w SCRIPT_PARAM_EMAIL_AUTHOR)]));
             entry ERROR "Error in getInputData" (LErr failure)] st in
  getInputData w st = (Throw failure, st') /\ run w st = st'.
Proof.
  intros Hset Hload searchId failure st'.
  assert (Hrun : getInputData w st = (Throw failure, st')).
  { unfold getInputData, try_catch.
    log_next. rewrite (missingParams_all_set Hset). cbn [length Nat.ltb Nat.leb].
    unfold bind at 1, lift. rewrite Hload. unfold throw.
    log_next. rewrite logging_logging. reflexivity. }
  split; [exact Hrun|]. unfold run. now rewrite Hrun.
Qed.

(** X3.  Whatever the parameters and the search, [getInputData] changes
    nothing but the log, which it only extends; and whenever it throws, the
    error it throws is the last thing it logged, under [Error in
    getInputData]. *)
Theorem getInputData_logs_what_it_throws (st : state) :
  let st' := snd (getInputData w st) in
  sameButLog st st' /\
  logExtends st st' /\
  forall e, fst (getInputData w st) = Throw e ->
            last (log st') = Some (entry ERROR "Error in getInputData" (LErr e)).
Proof.
  destruct (getInputData w st) as [r st1] eqn:Hrun. cbn [fst snd].
  revert Hrun. unfold getInputData, try_catch, sameButLog, logExtends.
  unfold bind at 1. unfold log_audit. rewrite log_write_logging.
  destruct (0 <? length (missingParams _ _ _))%nat.
  - unfold throw, bind, log_error. rewrite log_write_logging.
    intro Hrun. injection Hrun as <- <-.
    cbn [log logging mapOutput reduceOutput mail emailSent].
    repeat split.
    + eexists. rewrite <- app_assoc. reflexivity.
    + intros e He. injection He as <-. apply last_snoc.
  - unfold bind at 1, lift.
    destruct (search_load w _) as [rows|x].
    + unfold bind, ret. rewrite log_write_logging.
      intro Hrun. injection Hrun as <- <-.
      cbn [log logging mapOutput reduceOutput mail emailSent].
      repeat split.
      * eexists. rewrite <- app_assoc. reflexivity.
      * intros e He. discriminate He.
    + unfold throw, bind, log_error. rewrite log_write_logging.
      intro Hrun. injection Hrun as <- <-.
      cbn [log logging mapOutput reduceOutput mail emailSent].
      repeat split.
      * eexists. rewrite <- app_assoc. reflexivity.
      * intros e He. injection He as <-. apply last_snoc.
Qed.

End InputProperties.

Section RowProperties.

(** X4.  A call of [map] either returns after exactly one write, of a
    serialized object, or throws [ReferenceError] having written nothing;
    it never throws anything else, never writes twice, and leaves the reduce
    output, the mail and the stored checkboxes alone. *)
Theorem map_writes_once_or_throws (mapContext : MapContext.t) (st : state) :
  let r := fst (map mapContext st) in
  let st' := snd (map mapContext st) in
  reduceOutput st' = reduceOutput st /\
  mail st' = mail st /\
  emailSent st' = emailSent st /\
  ((r = Ok tt /\
    exists k fields, mapOutput st' = mapOutput st ++ [(k, Serialized (JObj fields))])
   \/ (r = Throw (ReferenceError "values is not defined") /\
       mapOutput st' = mapOutput st)).
Proof.
  destruct (map mapContext st) as [r st1] eqn:Hrun. cbn [fst snd].
  revert Hrun.
  unfold map, try_catch, map_try, bind, prop, lift, log_debug, log_write, get_prop.
  destruct (JSON_parse (MapContext.value mapContext)) as [searchResult|e].
  - destruct (nullish searchResult).
    + intro H. injection H as <- <-. cbn. repeat split. now right.
    + cbv beta iota. destruct (nullish (get searchResult "values")).
      * intro H. injection H as <- <-. cbn. repeat split. now right.
      * cbv beta iota.
        destruct (0 <? length (missingFields (get searchResult "values")))%nat;
          intro H; injection H as <- <-; cbn; repeat split; left;
          (split; [reflexivity | eexists; eexists; reflexivity]).
  - intro H. injection H as <- <-. cbn. repeat split. now right.
Qed.

Lemma orderObj_earlier_orderId (orderId : string) (values : jsval) :
  get (to_json (orderObj_earlier orderId values)) "orderId" = JStr orderId.
Proof.
  unfold orderObj_earlier. cbn [to_json get]. now rewrite assoc_json_str.
Qed.

(** What the earlier [map] does once the row has parsed and its [values] can
    be read. *)
Lemma map_earlier_on_readable_row (mapContext : MapContext.t)
    (searchResult values : jsval) (st : state) :
  JSON_parse (MapContext.value mapContext) = Ok searchResult ->
  get_prop searchResult "values" = Ok values ->
  nullish values = false ->
  map_earlier mapContext st =
  let st0 := logging [entry DEBUG "Map Input"
                        (LInput (MapContext.key mapContext) (MapContext.value mapContext))] st in
  let report (msg : string) :=
    (Ok tt, logging [entry ERROR "Error in map function"
                       (LVal (JStr ("Order ID: " +:+ MapContext.key mapContext
                                    +:+ ", Error: " +:+ msg)))] st0) in
  if absent values Account
  then report "Account value is missing in search result"
  else if nullish (get values "entity")
  then report ("Cannot read property 'value' of " +:+ to_string (get values "entity"))
  else
    mapContext_write (groupKey values)
      (JSON_stringify (orderObj_earlier (MapContext.key mapContext) values))
      (logging [entry DEBUG "Processing Account ID" (LVal (JStr (groupKey values)))] st0).
Proof.
  intros Hparse Hvalues Hnn.
  assert (Hacc : negb (truthy (get values "account"))
                 || negb (truthy (get (get values "account") "value"))
                 = absent values Account).
  { unfold absent. destruct (truthy (get values "account")) eqn:E; [reflexivity|].
    cbn [negb orb]. now rewrite (get_falsy_value _ "value" E). }
  unfold map_earlier, try_catch, map_earlier_try, bind, prop, lift, log_debug,
    log_error, log_write, throw.
  rewrite Hparse. cbv beta iota. rewrite Hvalues. cbv beta iota.
  unfold get_prop. rewrite Hnn.
  cbv beta iota zeta. rewrite Hacc.
  destruct (absent values Account); [reflexivity|].
  destruct (nullish (get values "entity")); reflexivity.
Qed.

(** X5.  The earlier [map] never throws: whatever the row, it returns
    normally having written nothing or one serialized object, and leaves
    the reduce output, the mail and the stored checkboxes alone. *)
Theorem map_earlier_never_throws (mapContext : MapContext.t) (st : state) :
  let st' := snd (map_earlier mapContext st) in
  fst (map_earlier mapContext st) = Ok tt /\
  reduceOutput st' = reduceOutput st /\
  mail st' = mail st /\
  emailSent st' = emailSent st /\
  (mapOutput st' = mapOutput st
   \/ exists k fields, mapOutput st' = mapOutput st ++ [(k, Serialized (JObj fields))]).
Proof.
  destruct (map_earlier mapContext st) as [r st1] eqn:Hrun. cbn [fst snd].
  revert Hrun.
  unfold map_earlier, try_catch, map_earlier_try, bind, prop, lift, log_debug,
    log_error, log_write, get_prop, throw.
  destruct (JSON_parse (MapContext.value mapContext)) as [searchResult|e].
  - destruct (nullish searchResult).
    + intro H. injection H as <- <-. cbn. repeat split. now left.
    + cbv beta iota. destruct (nullish (get searchResult "values")).
      * intro H. injection H as <- <-. cbn. repeat split. now left.
      * cbv beta iota zeta.
        destruct (negb (truthy (get (get searchResult "values") "account"))
                  || negb (truthy (get (get (get searchResult "values") "account")
                                     "value"))).
        -- intro H. injection H as <- <-. cbn. repeat split. now left.
        -- destruct (nullish (get (get searchResult "values") "entity")).
           ++ intro H. injection H as <- <-. cbn. repeat split. now left.
           ++ intro H. injection H as <- <-. cbn. repeat split. right.
              eexists; eexists; reflexivity.
  - intro H. injection H as <- <-. cbn. repeat split. now left.
Qed.

(** X6.  The earlier [map] drops a readable row whose account is absent or
    which has no entity at all: it writes nothing and logs one error under
    [Error in map function], which for an absent account reads [Account
    value is missing in search result]. *)
Theorem map_earlier_drops_row_without_account_or_entity
    (mapContext : MapContext.t) (searchResult values : jsval) (st : state) :
  JSON_parse (MapContext.value mapContext) = Ok searchResult ->
  get_prop searchResult "values" = Ok values ->
  nullish values = false ->
  absent values Account = true \/ nullish (get values "entity") = true ->
  exists msg,
    map_earlier mapContext st
    = (Ok tt,
       logging [entry DEBUG "Map Input"
                  (LInput (MapContext.key mapContext) (MapContext.value mapContext));
                entry ERROR "Error in map function"
                  (LVal (JStr ("Order ID: " +:+ MapContext.key mapContext
                               +:+ ", Error: " +:+ msg)))] st) /\
    (absent values Account = true ->
     msg = "Account value is missing in search result").
Proof.
  intros Hparse Hvalues Hnn Hwhy.
  rewrite (map_earlier_on_readable_row _ _ _ _ Hparse Hvalues Hnn). cbv zeta.
  destruct (absent values Account) eqn:Ha.
  - eexists. rewrite logging_logging. split; reflexivity.
  - destruct Hwhy as [Hwhy|Hwhy]; [discriminate|]. rewrite Hwhy.
    eexists. rewrite logging_logging. split; [reflexivity | discriminate].
Qed.

(** X7.  The earlier [map] requires the account only: a readable row with an
    account value and an entity is written as one order under the account
    id, an underscore and the entity's value, whatever its other fields; the
    order carries the row's key as [orderId], which is the transaction id
    [reduce] reads back from it.  When the entity has no value the key ends
    in [_undefined]. *)
Theorem map_earlier_requires_the_account_only
    (mapContext : MapContext.t) (searchResult values : jsval) (st : state) :
  JSON_parse (MapContext.value mapContext) = Ok searchResult ->
  get_prop searchResult "values" = Ok values ->
  nullish values = false ->
  absent values Account = false ->
  nullish (get values "entity") = false ->
  let accountId := to_string (get (get values "account") "value") in
  let st' := snd (map_earlier mapContext st) in
  exists order,
    fst (map_earlier mapContext st) = Ok tt /\
    mapOutput st'
    = mapOutput st
      ++ [(accountId +:+ "_" +:+ to_string (get (get values "entity") "value"),
           Serialized order)] /\
    get order "orderId" = JStr (MapContext.key mapContext) /\
    transactionIds [Serialized order] = Ok [JStr (MapContext.key mapContext)] /\
    (get (get values "entity") "value" = JUndefined ->
     List.map fst (mapOutput st') = List.map fst (mapOutput st)
                                    ++ [accountId +:+ "_undefined"]).
Proof.
  intros Hparse Hvalues Hnn Hacc Hent accountId st'. subst st'.
  rewrite (map_earlier_on_readable_row _ _ _ _ Hparse Hvalues Hnn). cbv zeta.
  rewrite Hacc, Hent.
  exists (to_json (orderObj_earlier (MapContext.key mapContext) values)).
  unfold mapContext_write, JSON_stringify, logging.
  cbn [fst snd mapOutput].
  pose proof (orderObj_earlier_orderId (MapContext.key mapContext) values) as Hid.
  split; [reflexivity|]. split; [reflexivity|]. split; [exact Hid|]. split.
  - rewrite (transactionIds_single
               (to_json (orderObj_earlier (MapContext.key mapContext) values))
               eq_refl), Hid.
    reflexivity.
  - intro Hund. rewrite map_app. cbn [List.map fst]. unfold groupKey.
    rewrite Hund. reflexivity.
Qed.

Lemma get_of_nullish (v : jsval) (k : string) :
  nullish v = true -> get v k = JUndefined.
Proof.
  destruct v; simpl; try discriminate; reflexivity.
Qed.

Lemma orderObj_earlier_has_no_vendorEmail (orderId : string) (values : jsval) :
  get (to_json (orderObj_earlier orderId values)) "vendorEmail" = JUndefined.
Proof.
  unfold orderObj_earlier. cbn [to_json get].
  rewrite !assoc_json_skip by reflexivity. reflexivity.
Qed.

(** X8.  On a row with every required field the two revisions of [map]
    write one order each, under the same key, and [reduce] reads the same
    transaction id, the row's key, from either; the earlier order has no
    [vendorEmail]. *)
Theorem revisions_of_map_agree_on_complete_rows
    (mapContext : MapContext.t) (searchResult values : jsval) (st : state) :
  JSON_parse (MapContext.value mapContext) = Ok searchResult ->
  get_prop searchResult "values" = Ok values ->
  nullish values = false ->
  (forall f, absent values f = false) ->
  exists key earlier later,
    mapOutput (snd (map_earlier mapContext st))
    = mapOutput st ++ [(key, Serialized earlier)] /\
    mapOutput (snd (map mapContext st))
    = mapOutput st ++ [(key, Serialized later)] /\
    transactionIds [Serialized earlier] = Ok [JStr (MapContext.key mapContext)] /\
    transactionIds [Serialized later] = Ok [JStr (MapContext.key mapContext)] /\
    get earlier "vendorEmail" = JUndefined.
Proof.
  intros Hparse Hvalues Hnn Hall.
  assert (Hent : nullish (get values "entity") = false).
  { destruct (nullish (get values "entity")) eqn:E; [|reflexivity].
    pose proof (Hall Entity) as He. unfold absent in He.
    rewrite (get_of_nullish _ "value" E) in He. discriminate He. }
  assert (Hlen : (0 <? length (missingFields values))%nat = false).
  { rewrite missingFields_absent. unfold requiredFields. cbn [List.filter].
    rewrite !Hall. reflexivity. }
  exists (groupKey values),
         (to_json (orderObj_earlier (MapContext.key mapContext) values)),
         (to_json (orderObj (MapContext.key mapContext) values)).
  rewrite (map_earlier_on_readable_row _ _ _ _ Hparse Hvalues Hnn).
  rewrite (map_on_readable_row _ _ _ _ Hparse Hvalues Hnn).
  cbv zeta. rewrite (Hall Account), Hent, Hlen.
  split; [reflexivity|]. split; [reflexivity|]. split; [|split].
  - rewrite (transactionIds_single
               (to_json (orderObj_earlier (MapContext.key mapContext) values))
               eq_refl), orderObj_earlier_orderId.
    reflexivity.
  - rewrite (transactionIds_single
               (to_json (orderObj (MapContext.key mapContext) values)) eq_refl).
    now rewrite (proj1 (orderObj_fields _ _)).
  - apply orderObj_earlier_has_no_vendorEmail.
Qed.

End RowProperties.

Section GroupProperties.

Variable w : world.

Lemma reduce_keeps_mapOutput (reduceContext : ReduceContext.t) (st : state) :
  mapOutput (snd (reduce w reduceContext st)) = mapOutput st /\
  logExtends st (snd (reduce w reduceContext st)).
Proof.
  unfold reduce, try_catch, logExtends.
  destruct (is_reserved (ReduceContext.key reduceContext)).
  - rewrite passThrough_run.
    destruct (parseAll (ReduceContext.values reduceContext)); cbn;
      (split; [reflexivity|]); eexists; [symmetry; apply app_nil_r | reflexivity].
  - destruct (emailTemplateSearch w
                (index (split underscore (ReduceContext.key reduceContext)) 0))
      as [[|emailTemplateId more]|x] eqn:Hsearch.
    + rewrite (processGroup_without_template _ _ _ Hsearch). cbn.
      split; [reflexivity|]. eexists. rewrite <- app_assoc. reflexivity.
    + destruct (transactionIds (ReduceContext.values reduceContext)) as [ids|x] eqn:Hids.
      * destruct (mergeEmail w emailTemplateId (getParameter w SCRIPT_PARAM_EMAIL_AUTHOR)
                    (index (split underscore (ReduceContext.key reduceContext)) 1))
          as [mergeResult|x] eqn:Hmerge.
        -- rewrite (processGroup_run _ _ _ _ _ _ _ Hsearch Hids Hmerge), sendAndMark_run.
           destruct (email_send w _); cbv zeta;
             [destruct (snd (markAll w ids _))|]; cbn;
             (split; [reflexivity|]); eexists;
             rewrite <- ?app_assoc; reflexivity.
        -- rewrite (processGroup_merge_throws _ _ _ _ _ _ _ Hsearch Hids Hmerge). cbn.
           split; [reflexivity|]. eexists. rewrite <- app_assoc. reflexivity.
      * rewrite (processGroup_unreadable_values _ _ _ _ _ _ Hsearch Hids). cbn.
        split; [reflexivity|]. eexists. rewrite <- app_assoc. reflexivity.
    + rewrite (processGroup_search_throws _ _ _ _ Hsearch). cbn.
      split; [reflexivity|]. eexists. rewrite <- app_assoc. reflexivity.
Qed.

(** X9.  [reduce] never throws.  Whatever the group, it returns normally
    having made at most one [email.send] call, extended the log, and left
    the output of the map stage alone. *)
Theorem reduce_returns_after_at_most_one_mail
    (reduceContext : ReduceContext.t) (st : state) :
  let st' := snd (reduce w reduceContext st) in
  fst (reduce w reduceContext st) = Ok tt /\
  (mail st' = mail st \/ exists e accepted, mail st' = mail st ++ [(e, accepted)]) /\
  mapOutput st' = mapOutput st /\
  logExtends st st'.
Proof.
  intro st'. subst st'.
  destruct (reduce_outcome w reduceContext st) as [Hret Hout].
  destruct (reduce_keeps_mapOutput reduceContext st) as [Hmap Hlog].
  repeat split; try assumption.
  destruct Hout as [[Hmail _] | [[e [Hmail _]] | [e [ids [_ [Hmail _]]]]]].
  - now left.
  - right. now exists e, false.
  - right. now exists e, true.
Qed.

(** X10.  When the search for the template itself throws, [reduce] treats
    the group as it treats one without template: the error is logged by
    [searchRelatedEmailTemplate] and by [reduce], which returns normally; no
    mail, no checkbox, no output. *)
Theorem reduce_logs_a_failed_template_search
    (reduceContext : ReduceContext.t) (st : state) (x : exn) :
  is_reserved (ReduceContext.key reduceContext) = false ->
  emailTemplateSearch w (index (split underscore (ReduceContext.key reduceContext)) 0)
  = Throw x ->
  reduce w reduceContext st
  = (Ok tt,
     logging [entry DEBUG (ReduceContext.key reduceContext)
                (LTexts (ReduceContext.values reduceContext));
              entry ERROR "searchRelatedEmailTemplate" (LErr x);
              entry ERROR "reduce" (LErr x)] st).
Proof.
  intros Hkey Hsearch. rewrite (reduce_ordinary _ _ _ Hkey).
  unfold reduce_earlier, try_catch.
  rewrite (processGroup_search_throws _ _ _ _ Hsearch).
  unfold log_error. rewrite log_write_logging, logging_logging. reflexivity.
Qed.

Lemma transactionIds_unreadable (values : list jsonText) :
  (exists value, In value values /\
                 forall orderObj, JSON_parse value = Ok orderObj -> nullish orderObj = true) ->
  exists x, transactionIds values = Throw x.
Proof.
  induction values as [|v rest IH]; intros [value [Hin Hbad]]; [destruct Hin|].
  cbn [transactionIds].
  destruct (JSON_parse v) as [orderObj|e] eqn:Hparse; [|eexists; reflexivity].
  unfold get_prop. destruct (nullish orderObj) eqn:Hnull; [eexists; reflexivity|].
  destruct Hin as [->|Hin].
  - rewrite (Hbad _ Hparse) in Hnull. discriminate.
  - destruct (IH (ex_intro _ value (conj Hin Hbad))) as [x Hx]. rewrite Hx.
    eexists; reflexivity.
Qed.

(** X11.  When one value of an ordinary group does not parse, or parses to
    [null], the whole group is dropped after the template lookup: [reduce]
    logs the error and returns normally, no voucher is rendered, no mail is
    sent and no checkbox is set, also for the payments whose values are
    fine. *)
Theorem reduce_drops_group_with_unreadable_value
    (reduceContext : ReduceContext.t) (st : state)
    (emailTemplateId : jsval) (more : list jsval) :
  is_reserved (ReduceContext.key reduceContext) = false ->
  emailTemplateSearch w (index (split underscore (ReduceContext.key reduceContext)) 0)
  = Ok (emailTemplateId :: more) ->
  (exists value, In value (ReduceContext.values reduceContext) /\
                 forall orderObj, JSON_parse value = Ok orderObj -> nullish orderObj = true) ->
  exists x,
    reduce w reduceContext st
    = (Ok tt,
       logging [entry DEBUG (ReduceContext.key reduceContext)
                  (LTexts (ReduceContext.values reduceContext));
                entry DEBUG "Email Template ID" (LVal emailTemplateId);
                entry DEBUG "Email Author ID"
                  (LVal (getParameter w SCRIPT_PARAM_EMAIL_AUTHOR));
                entry ERROR "reduce" (LErr x)] st).
Proof.
  intros Hkey Hsearch Hbad.
  destruct (transactionIds_unreadable _ Hbad) as [x Hx]. exists x.
  rewrite (reduce_ordinary _ _ _ Hkey). unfold reduce_earlier, try_catch.
  rewrite (processGroup_unreadable_values _ _ _ _ _ _ Hsearch Hx).
  unfold log_error. rewrite log_write_logging, logging_logging. reflexivity.
Qed.

Lemma markAll_only_sets (ids : list jsval) (internalId : string) :
  forall store : gmap string bool,
    fst (markAll w ids store) !! internalId = store !! internalId
    \/ fst (markAll w ids store) !! internalId = Some true.
Proof.
  induction ids as [|id rest IH]; intro store; simpl; [now left|].
  destruct (record_load w id) as [loaded|x]; [|now left].
  destruct (record_save w loaded) as [u|x]; [|now left].
  destruct (IH (<[loaded := true]> store)) as [H|H]; [|now right].
  rewrite H. destruct (decide (loaded = internalId)) as [->|Hne].
  - right. apply lookup_insert_eq.
  - left. now apply lookup_insert_ne.
Qed.

Lemma reduce_only_sets (reduceContext : ReduceContext.t) (st : state)
    (internalId : string) :
  emailSent (snd (reduce w reduceContext st)) !! internalId = emailSent st !! internalId
  \/ emailSent (snd (reduce w reduceContext st)) !! internalId = Some true.
Proof.
  destruct (reduce_outcome w reduceContext st) as [_ Hout].
  destruct Hout as [[_ Hs] | [[e [_ Hs]] | [e [ids [_ [_ Hs]]]]]]; rewrite Hs.
  - now left.
  - now left.
  - apply markAll_only_sets.
Qed.

(** X12.  The reduce stage only ever sets checkboxes: after any number of
    groups, the checkbox of a record is what it was before or is set, and a
    checkbox that was set stays set. *)
Theorem reduce_stage_only_sets_checkboxes
    (groups : list ReduceContext.t) (st : state) (internalId : string) :
  let st' := stage (reduce w) groups st in
  (emailSent st' !! internalId = emailSent st !! internalId
   \/ emailSent st' !! internalId = Some true) /\
  (emailSent st !! internalId = Some true -> emailSent st' !! internalId = Some true).
Proof.
  intro st'. subst st'.
  assert (H : forall st0,
             emailSent (stage (reduce w) groups st0) !! internalId
             = emailSent st0 !! internalId
             \/ emailSent (stage (reduce w) groups st0) !! internalId = Some true).
  { induction groups as [|g rest IH]; intro st0; cbn [stage]; [now left|].
    destruct (IH (snd (reduce w g st0))) as [H|H]; [|now right].
    rewrite H. apply reduce_only_sets. }
  split; [apply H|].
  intro Hset. destruct (H st) as [H'|H']; [now rewrite H' | exact H'].
Qed.

Lemma parseAll_malformed (values : list jsonText) (msg : string) :
  In (Malformed msg) values ->
  exists msg', parseAll values = Throw (SyntaxError msg').
Proof.
  induction values as [|v rest IH]; intro Hin; [destruct Hin|].
  cbn [parseAll]. destruct v as [x|m]; cbn [JSON_parse].
  - destruct Hin as [Hin|Hin]; [discriminate|].
    destruct (IH Hin) as [msg' H]. rewrite H. now exists msg'.
  - now exists m.
Qed.

Lemma parseAll_serialized (values : list jsonText) :
  (forall value, In value values -> exists x, value = Serialized x) ->
  parseAll values = Ok (List.map payload values).
Proof.
  induction values as [|v rest IH]; intro H; [reflexivity|].
  cbn [parseAll List.map].
  destruct (H v (or_introl eq_refl)) as [x ->]. cbn [JSON_parse payload].
  rewrite IH by (intros; apply H; now right). reflexivity.
Qed.

(** X13.  Under a reserved key [reduce] sends no mail and sets no checkbox,
    whatever the values hold.  When every value parses it writes one entry
    under the key, an array with one record per value, and logs nothing;
    when some value is not JSON it writes nothing at all and logs the syntax
    error under [reduce]: the bucket is lost whole. *)
Theorem reduce_passes_a_bucket_through_or_loses_it
    (reduceContext : ReduceContext.t) (st : state) :
  is_reserved (ReduceContext.key reduceContext) = true ->
  let st' := snd (reduce w reduceContext st) in
  fst (reduce w reduceContext st) = Ok tt /\
  mail st' = mail st /\
  emailSent st' = emailSent st /\
  ((forall value, In value (ReduceContext.values reduceContext) ->
                  exists x, value = Serialized x) ->
   exists records,
     length records = length (ReduceContext.values reduceContext) /\
     reduceOutput st'
     = reduceOutput st ++ [(ReduceContext.key reduceContext, Serialized (JArr records))] /\
     log st' = log st) /\
  (forall msg,
      In (Malformed msg) (ReduceContext.values reduceContext) ->
      reduceOutput st' = reduceOutput st /\
      exists msg', log st' = log st ++ [entry ERROR "reduce" (LErr (SyntaxError msg'))]).
Proof.
  intros Hkey st'. subst st'.
  destruct (reduce w reduceContext st) as [r st1] eqn:Hrun. cbn [fst snd].
  revert Hrun. unfold reduce, try_catch. rewrite Hkey, passThrough_run.
  destruct (parseAll (ReduceContext.values reduceContext)) as [records|e] eqn:Hparse.
  - intro H. injection H as <- <-.
    cbn [outputting mail emailSent reduceOutput log].
    repeat split.
    + intro Hall. rewrite (parseAll_serialized _ Hall) in Hparse.
      injection Hparse as <-.
      eexists. unfold JSON_stringify. cbn [to_json].
      split; [|split; reflexivity]. now rewrite !length_map.
    + destruct (parseAll_malformed _ _ H) as [msg' H']. congruence.
    + destruct (parseAll_malformed _ _ H) as [msg' H']. congruence.
  - unfold log_error. rewrite log_write_logging.
    intro H. injection H as <- <-.
    cbn [logging mail emailSent reduceOutput log].
    repeat split.
    + intro Hall. rewrite (parseAll_serialized _ Hall) in Hparse. discriminate.
    + destruct (parseAll_malformed _ _ H) as [msg' H'].
      exists msg'. congruence.
Qed.

Lemma to_json_isJson : forall v, isJson v = true -> to_json v = v.
Proof.
  fix IH 1. intros [ | | b | n | s | items | fields | f]; cbn [isJson to_json];
    try reflexivity; try discriminate.
  - intro H. f_equal. induction items as [|x rest IHrest]; [reflexivity|].
    cbn [forallb] in H. apply andb_prop in H. destruct H as [Hx Hrest].
    cbn [List.map]. rewrite (IHrest Hrest). f_equal.
    pose proof (IH x Hx) as Hsame.
    destruct x; cbn [json_item]; try discriminate; exact Hsame.
  - intro H. f_equal. induction fields as [|[k x] rest IHrest]; [reflexivity|].
    cbn [forallb snd] in H. apply andb_prop in H. destruct H as [Hx Hrest].
    cbn [flat_map]. rewrite (IHrest Hrest).
    pose proof (IH x Hx) as Hsame.
    destruct x; cbn [json_field app]; try discriminate;
      rewrite Hsame; reflexivity.
Qed.

(** X14.  A side-channel bucket passes through [reduce] unchanged: when the
    values of a reserved key are serialized JSON values, [reduce] writes,
    under the same key, the array of exactly these values in their order,
    and changes nothing else. *)
Theorem reduce_passes_records_through_unchanged
    (key : string) (records : list jsval) (st : state) :
  is_reserved key = true ->
  forallb isJson records = true ->
  reduce w (ReduceContext.Build key (List.map Serialized records)) st
  = (Ok tt, outputting key (Serialized (JArr records)) st).
Proof.
  intros Hkey Hjson. unfold reduce, try_catch.
  cbn [ReduceContext.key]. rewrite Hkey, passThrough_run.
  cbn [ReduceContext.values ReduceContext.key].
  rewrite parseAll_serialized
    by (intros value Hin; apply in_map_iff in Hin;
        destruct Hin as [x [<- _]]; now exists x).
  rewrite map_map. cbn [payload]. rewrite map_id.
  unfold JSON_stringify.
  rewrite (to_json_isJson (JArr records)) by exact Hjson. reflexivity.
Qed.

Lemma vouchers_names (ids : list jsval) :
  List.map file_name (vouchers w ids)
  = List.map voucherName (List.filter (renders w) ids).
Proof.
  induction ids as [|id rest IH]; [reflexivity|].
  cbn [vouchers List.filter]. unfold renders at 1.
  destruct (renderAsPdf w (getParameter w SCRIPT_PARAM_PRINT_TEMPLATE_ID) id);
    cbn [List.map]; now rewrite IH.
Qed.

Lemma vouchers_none (ids : list jsval) :
  (forall id, In id ids -> renders w id = false) -> vouchers w ids = [].
Proof.
  induction ids as [|id rest IH]; intro H; [reflexivity|].
  cbn [vouchers]. pose proof (H id (or_introl eq_refl)) as Hid.
  unfold renders in Hid.
  destruct (renderAsPdf w (getParameter w SCRIPT_PARAM_PRINT_TEMPLATE_ID) id);
    [discriminate|].
  apply IH. intros; apply H; now right.
Qed.

(** X15.  For an ordinary group with a template and readable values, once
    the merge of the template for author and vendor has returned, [reduce]
    makes exactly one [email.send] call, from the author parameter to the
    vendor part of the key, with the merged subject and body and with the
    vouchers that render attached in the order of the group, each named
    [ACH_Payment_<id>.pdf]; when no voucher renders the message still goes
    out, without attachment. *)
Theorem reduce_attaches_the_vouchers_that_render
    (reduceContext : ReduceContext.t) (st : state)
    (emailTemplateId : jsval) (more : list jsval) (ids : list jsval)
    (mergeResult : string * string) :
  is_reserved (ReduceContext.key reduceContext) = false ->
  emailTemplateSearch w (index (split underscore (ReduceContext.key reduceContext)) 0)
  = Ok (emailTemplateId :: more) ->
  transactionIds (ReduceContext.values reduceContext) = Ok ids ->
  mergeEmail w emailTemplateId (getParameter w SCRIPT_PARAM_EMAIL_AUTHOR)
    (index (split underscore (ReduceContext.key reduceContext)) 1)
  = Ok mergeResult ->
  let st' := snd (reduce w reduceContext st) in
  exists e accepted,
    mail st' = mail st ++ [(e, accepted)] /\
    author e = getParameter w SCRIPT_PARAM_EMAIL_AUTHOR /\
    recipients e = index (split underscore (ReduceContext.key reduceContext)) 1 /\
    subject e = fst mergeResult /\
    body e = snd mergeResult /\
    List.map file_name (attachments e)
    = List.map voucherName (List.filter (renders w) ids) /\
    ((forall id, In id ids -> renders w id = false) -> attachments e = []).
Proof.
  intros Hkey Hsearch Hids Hmerge st'. subst st'.
  rewrite (reduce_ordinary _ _ _ Hkey).
  rewrite (reduce_earlier_run _ _ _ _ _ _ _ Hsearch Hids Hmerge), sendAndMark_run.
  set (e := groupEmail mergeResult _ _ _).
  assert (He : author e = getParameter w SCRIPT_PARAM_EMAIL_AUTHOR /\
               recipients e = index (split underscore (ReduceContext.key reduceContext)) 1 /\
               subject e = fst mergeResult /\
               body e = snd mergeResult /\
               List.map file_name (attachments e)
               = List.map voucherName (List.filter (renders w) ids) /\
               ((forall id, In id ids -> renders w id = false) -> attachments e = [])).
  { subst e. cbn [groupEmail author recipients subject body attachments].
    repeat split; [apply vouchers_names | apply vouchers_none]. }
  destruct (email_send w e) as [u|x].
  - exists e, true. split; [|exact He].
    cbv zeta. destruct (snd (markAll w ids _)); reflexivity.
  - exists e, false. split; [reflexivity | exact He].
Qed.

(** X22.  When the merge of the template throws, [reduce] logs the error
    under [reduce] and returns normally: the vouchers have been rendered and
    their errors logged, but no [email.send] call is made, no checkbox is
    set and nothing is written. *)
Theorem reduce_logs_a_failed_merge
    (reduceContext : ReduceContext.t) (st : state)
    (emailTemplateId : jsval) (more : list jsval) (ids : list jsval) (x : exn) :
  is_reserved (ReduceContext.key reduceContext) = false ->
  emailTemplateSearch w (index (split underscore (ReduceContext.key reduceContext)) 0)
  = Ok (emailTemplateId :: more) ->
  transactionIds (ReduceContext.values reduceContext) = Ok ids ->
  mergeEmail w emailTemplateId (getParameter w SCRIPT_PARAM_EMAIL_AUTHOR)
    (index (split underscore (ReduceContext.key reduceContext)) 1)
  = Throw x ->
  reduce w reduceContext st
  = (Ok tt,
     logging ([entry DEBUG (ReduceContext.key reduceContext)
                 (LTexts (ReduceContext.values reduceContext));
               entry DEBUG "Email Template ID" (LVal emailTemplateId);
               entry DEBUG "Email Author ID"
                 (LVal (getParameter w SCRIPT_PARAM_EMAIL_AUTHOR));
               entry DEBUG "Transactions ID" (LVal (JArr ids))]
              ++ renderErrors w ids
              ++ [entry DEBUG "Generated PDF Files" (LFiles (vouchers w ids));
                  entry ERROR "reduce" (LErr x)]) st).
Proof.
  intros Hkey Hsearch Hids Hmerge.
  rewrite (reduce_ordinary _ _ _ Hkey).
  rewrite (reduce_earlier_merge_throws _ _ _ _ _ _ _ Hsearch Hids Hmerge).
  unfold beforeMerge. cbv zeta. rewrite <- !app_assoc. reflexivity.
Qed.

Lemma reserved_key_has_underscore (key : string) :
  is_reserved key = true -> contains underscore key = true.
Proof.
  unfold is_reserved. intro H. apply orb_prop in H.
  destruct H as [H|H]; apply String.eqb_eq in H; subst key; reflexivity.
Qed.

(** X16.  A key without underscore is taken whole as the account id and
    leaves the vendor undefined: with a template for that account and
    readable values, [reduce] asks for the merge with an undefined vendor.
    When the merge returns, the [email.send] call is made with [recipients]
    undefined; when it throws, the error is logged under [reduce] and
    nothing is sent. *)
Theorem reduce_addresses_nobody_for_key_without_underscore
    (reduceContext : ReduceContext.t) (st : state)
    (emailTemplateId : jsval) (more : list jsval) (ids : list jsval) :
  contains underscore (ReduceContext.key reduceContext) = false ->
  emailTemplateSearch w (JStr (ReduceContext.key reduceContext))
  = Ok (emailTemplateId :: more) ->
  transactionIds (ReduceContext.values reduceContext) = Ok ids ->
  let authorId := getParameter w SCRIPT_PARAM_EMAIL_AUTHOR in
  let st' := snd (reduce w reduceContext st) in
  (forall mergeResult,
      mergeEmail w emailTemplateId authorId JUndefined = Ok mergeResult ->
      exists e accepted,
        mail st' = mail st ++ [(e, accepted)] /\
        recipients e = JUndefined) /\
  (forall x,
      mergeEmail w emailTemplateId authorId JUndefined = Throw x ->
      mail st' = mail st /\
      emailSent st' = emailSent st /\
      last (log st') = Some (entry ERROR "reduce" (LErr x))).
Proof.
  intros Hno Hsearch Hids authorId st'. subst st'.
  assert (Hkey : is_reserved (ReduceContext.key reduceContext) = false).
  { destruct (is_reserved (ReduceContext.key reduceContext)) eqn:E; [|reflexivity].
    apply reserved_key_has_underscore in E. congruence. }
  pose proof (split_without_separator _ _ Hno) as Hsplit.
  assert (Hsearch' : emailTemplateSearch w
                       (index (split underscore (ReduceContext.key reduceContext)) 0)
                     = Ok (emailTemplateId :: more))
    by (rewrite Hsplit; exact Hsearch).
  assert (Hvendor : index (split underscore (ReduceContext.key reduceContext)) 1
                    = JUndefined)
    by (rewrite Hsplit; reflexivity).
  rewrite (reduce_ordinary _ _ _ Hkey). split.
  - intros mergeResult Hmerge. rewrite <- Hvendor in Hmerge.
    rewrite (reduce_earlier_run _ _ _ _ _ _ _ Hsearch' Hids Hmerge), sendAndMark_run.
    rewrite Hvendor.
    set (e := groupEmail mergeResult _ _ _).
    destruct (email_send w e) as [u|x].
    + exists e, true. split; [|reflexivity].
      cbv zeta. destruct (snd (markAll w ids _)); reflexivity.
    + exists e, false. split; reflexivity.
  - intros x Hmerge. rewrite <- Hvendor in Hmerge.
    rewrite (reduce_earlier_merge_throws _ _ _ _ _ _ _ Hsearch' Hids Hmerge).
    cbn [snd logging mail emailSent log].
    split; [reflexivity|]. split; [reflexivity|].
    rewrite !app_assoc. apply last_snoc.
Qed.

End GroupProperties.

Section ReportProperties.

Variable w : world.

(** The whole of [summarize] on a readable output. *)
Lemma summarize_readable_run (summaryContext : SummaryContext.t) (st : state) :
  readable (SummaryContext.output summaryContext) = true ->
  let output := SummaryContext.output summaryContext in
  let reported :=
    logging (audits output
             ++ [entry AUDIT "Processing Summary" (LReport (reportOf summaryContext))])
      st in
  summarize w summaryContext st
  = (Ok tt,
     if (0 <? length (items_of (latest SKIPPED_RECORDS output (JArr []))))%nat
        || (0 <? length (items_of (latest ERROR_RECORDS output (JArr []))))%nat
     then match email_send w (notification w summaryContext) with
          | Ok _ =>
              logging (metrics summaryContext)
                (mailing (notification w summaryContext) true reported)
          | Throw x =>
              logging [entry ERROR "Error in summarize stage" (LErr x)]
                (mailing (notification w summaryContext) false reported)
          end
     else logging (metrics summaryContext) reported).
Proof.
  intros Hr output reported. unfold summarize, try_catch. unfold bind at 1.
  rewrite (buildReport_readable _ _ Hr).
  log_next. rewrite logging_logging. fold output. fold reported.
  unfold bind at 1. unfold notify. cbn [skipped errors]. fold output.
  destruct ((0 <? length (items_of (latest SKIPPED_RECORDS output (JArr []))))%nat
            || (0 <? length (items_of (latest ERROR_RECORDS output (JArr []))))%nat).
  - unfold email_send_call.
    change {| author := getParameter w SCRIPT_PARAM_EMAIL_AUTHOR;
              recipients := JStr "admin@yourcompany.com";
              subject := _; body := _; attachments := []; isHtml := true |}
      with (notification w summaryContext).
    destruct (email_send w (notification w summaryContext)) as [u|x].
    + log_next. log_next. unfold log_audit. rewrite log_write_logging.
      rewrite !logging_logging. reflexivity.
    + unfold log_error. rewrite log_write_logging. reflexivity.
  - unfold ret. log_next. log_next. unfold log_audit. rewrite log_write_logging.
    rewrite !logging_logging. reflexivity.
Qed.

Lemma quiet_refl (st : state) : quiet st st.
Proof.
  unfold quiet, sameButLog, logExtends. repeat split.
  exists []. now rewrite app_nil_r.
Qed.

Lemma quiet_trans (a b c : state) : quiet a b -> quiet b c -> quiet a c.
Proof.
  unfold quiet, sameButLog, logExtends.
  intros [[A1 [A2 [A3 A4]]] [ea Ha]] [[B1 [B2 [B3 B4]]] [eb Hb]].
  repeat split; try congruence.
  exists (ea ++ eb). now rewrite Hb, Ha, app_assoc.
Qed.

Lemma quiet_logging (entries : list logEntry) (st : state) :
  quiet st (logging entries st).
Proof.
  unfold quiet, sameButLog, logExtends. repeat split. now exists entries.
Qed.

Lemma bind_quiet {A B} (m : M A) (k : A -> M B) (st : state) :
  quiet st (snd (m st)) ->
  (forall a st1, quiet st1 (snd (k a st1))) ->
  quiet st (snd (bind m k st)).
Proof.
  intros Hm Hk. unfold bind. destruct (m st) as [[a|e] st1]; cbn [snd] in *.
  - eapply quiet_trans; [exact Hm | apply Hk].
  - exact Hm.
Qed.

Lemma foldM_quiet {A B} (f : B -> A -> M B) :
  (forall acc x st, quiet st (snd (f acc x st))) ->
  forall items acc st, quiet st (snd (foldM f items acc st)).
Proof.
  intros Hf. induction items as [|x rest IH]; intros acc st; cbn [foldM].
  - apply quiet_refl.
  - apply bind_quiet; [apply Hf | intros; apply IH].
Qed.

Lemma mapM_quiet {A B} (f : A -> M B) :
  (forall x st, quiet st (snd (f x st))) ->
  forall items st, quiet st (snd (mapM f items st)).
Proof.
  intros Hf. induction items as [|x rest IH]; intro st; cbn [mapM].
  - apply quiet_refl.
  - apply bind_quiet; [apply Hf|]. intros y st1.
    apply bind_quiet; [apply IH|]. intros ys st2. apply quiet_refl.
Qed.

Lemma lift_quiet {A} (r : result A) (st : state) : quiet st (snd (lift r st)).
Proof. apply quiet_refl. Qed.

Lemma eachOutput_quiet (t : tally) (kv : string * jsonText) (st : state) :
  quiet st (snd (eachOutput t kv st)).
Proof.
  destruct kv as [k v]. unfold eachOutput.
  destruct (String.eqb k SKIPPED_RECORDS); [|destruct (String.eqb k ERROR_RECORDS)].
  - apply bind_quiet; [apply lift_quiet|]. intros parsed st1.
    apply bind_quiet; [apply lift_quiet|]. intros n st2.
    apply bind_quiet; [apply quiet_logging|]. intros u st3. apply quiet_refl.
  - apply bind_quiet; [apply lift_quiet|]. intros parsed st1.
    apply bind_quiet; [apply lift_quiet|]. intros n st2.
    apply bind_quiet; [apply quiet_logging|]. intros u st3. apply quiet_refl.
  - apply quiet_refl.
Qed.

Lemma bucket_quiet (variable : string) (records : jsval) (st : state) :
  quiet st (snd (bucket variable records st)).
Proof.
  unfold bucket. apply bind_quiet; [apply lift_quiet|]. intros n st1.
  destruct records; try apply quiet_refl.
  apply bind_quiet.
  - apply mapM_quiet. intros record st2. unfold detail.
    apply bind_quiet; [apply lift_quiet|]. intros; apply quiet_refl.
  - intros; apply quiet_refl.
Qed.

Lemma buildReport_quiet (summaryContext : SummaryContext.t) (st : state) :
  quiet st (snd (buildReport summaryContext st)).
Proof.
  unfold buildReport.
  apply bind_quiet; [apply foldM_quiet; apply eachOutput_quiet|]. intros t st1.
  apply bind_quiet; [apply bucket_quiet|]. intros b1 st2.
  apply bind_quiet; [apply bucket_quiet|]. intros b2 st3. apply quiet_refl.
Qed.

(** X17.  [summarize] never throws.  Whatever output it is given, it
    returns normally, leaves the outputs of both stages and the stored
    checkboxes alone, extends the log, and makes at most one [email.send]
    call, an HTML message without attachment from the author parameter to
    [admin@yourcompany.com]. *)
Theorem summarize_returns_after_at_most_one_mail
    (summaryContext : SummaryContext.t) (st : state) :
  let st' := snd (summarize w summaryContext st) in
  fst (summarize w summaryContext st) = Ok tt /\
  mapOutput st' = mapOutput st /\
  reduceOutput st' = reduceOutput st /\
  emailSent st' = emailSent st /\
  logExtends st st' /\
  (mail st' = mail st
   \/ exists e accepted,
        mail st' = mail st ++ [(e, accepted)] /\
        author e = getParameter w SCRIPT_PARAM_EMAIL_AUTHOR /\
        recipients e = JStr "admin@yourcompany.com" /\
        attachments e = [] /\
        isHtml e = true).
Proof.
  destruct (summarize w summaryContext st) as [r st1] eqn:Hrun. cbn [fst snd].
  revert Hrun. unfold summarize, try_catch, logExtends. unfold bind at 1.
  pose proof (buildReport_quiet summaryContext st) as Hq. unfold logExtends in Hq.
  destruct (buildReport summaryContext st) as [[[report t]|e] st0]; cbn [snd] in Hq;
    destruct Hq as [[Q1 [Q2 [Q3 Q4]]] [entries Q5]].
  - log_next. unfold bind at 1. unfold notify.
    destruct ((0 <? length (items_of (skipped t)))%nat
              || (0 <? length (items_of (errors t)))%nat).
    + unfold email_send_call. destruct (email_send w _) as [u|x].
      * log_next. log_next. unfold log_audit. rewrite log_write_logging.
        intro H. injection H as <- <-.
        cbn [logging mailing log mapOutput reduceOutput mail emailSent].
        rewrite Q1, Q2, Q3, Q4, Q5. repeat split.
        -- eexists. rewrite <- !app_assoc. reflexivity.
        -- right. eexists; eexists. repeat split.
      * unfold log_error. rewrite log_write_logging.
        intro H. injection H as <- <-.
        cbn [logging mailing log mapOutput reduceOutput mail emailSent].
        rewrite Q1, Q2, Q3, Q4, Q5. repeat split.
        -- eexists. rewrite <- !app_assoc. reflexivity.
        -- right. eexists; eexists. repeat split.
    + unfold ret. log_next. log_next. unfold log_audit. rewrite log_write_logging.
      intro H. injection H as <- <-.
      cbn [logging mailing log mapOutput reduceOutput mail emailSent].
      rewrite Q1, Q2, Q3, Q4, Q5. repeat split.
      * eexists. rewrite <- !app_assoc. reflexivity.
      * now left.
  - unfold log_error. rewrite log_write_logging.
    intro H. injection H as <- <-.
    cbn [logging log mapOutput reduceOutput mail emailSent].
    rewrite Q1, Q2, Q3, Q4, Q5. repeat split.
    + eexists. rewrite <- !app_assoc. reflexivity.
    + now left.
Qed.

(** X18.  On an output in which every entry under a reserved key is an
    array without [null] item ([readable]), [summarize] notifies exactly
    when a bucket holds a record: with both buckets empty no [email.send]
    call is made; otherwise exactly one is made, to [admin@yourcompany.com],
    whose subject gives the number of skipped and of error records. *)
Theorem summarize_notifies_when_a_bucket_holds_records
    (summaryContext : SummaryContext.t) (st : state) :
  readable (SummaryContext.output summaryContext) = true ->
  let output := SummaryContext.output summaryContext in
  let skippedCount := length (items_of (latest SKIPPED_RECORDS output (JArr []))) in
  let errorCount := length (items_of (latest ERROR_RECORDS output (JArr []))) in
  let st' := snd (summarize w summaryContext st) in
  (skippedCount = O /\ errorCount = O -> mail st' = mail st) /\
  (skippedCount <> O \/ errorCount <> O ->
   exists e accepted,
     mail st' = mail st ++ [(e, accepted)] /\
     recipients e = JStr "admin@yourcompany.com" /\
     subject e = "ACH Payment Processing Report: "
                 +:+ string_of_Z (Z.of_nat skippedCount) +:+ " Skipped, "
                 +:+ string_of_Z (Z.of_nat errorCount) +:+ " Errors").
Proof.
  intros Hr output skippedCount errorCount st'. subst st'.
  rewrite (summarize_readable_run _ _ Hr). cbn [snd]. fold output.
  fold skippedCount. fold errorCount. split.
  - intros [Hs He]. rewrite Hs, He. reflexivity.
  - intro Hsome.
    assert (Hcond : (0 <? skippedCount)%nat || (0 <? errorCount)%nat = true).
    { apply orb_true_iff. destruct Hsome as [H|H]; [left|right];
        apply Nat.ltb_lt; lia. }
    rewrite Hcond.
    exists (notification w summaryContext).
    destruct (email_send w (notification w summaryContext)) as [u|x];
      [exists true | exists false]; repeat split.
Qed.

(** X19.  When the notification is refused, [summarize] still returns
    normally: the report stays logged, the error is logged after it under
    [Error in summarize stage], and the usage, concurrency and yield entries
    are not logged. *)
Theorem summarize_logs_a_refused_notification
    (summaryContext : SummaryContext.t) (st : state) (x : exn) :
  readable (SummaryContext.output summaryContext) = true ->
  let output := SummaryContext.output summaryContext in
  length (items_of (latest SKIPPED_RECORDS output (JArr []))) <> O
  \/ length (items_of (latest ERROR_RECORDS output (JArr []))) <> O ->
  email_send w (notification w summaryContext) = Throw x ->
  let st' := snd (summarize w summaryContext st) in
  fst (summarize w summaryContext st) = Ok tt /\
  log st'
  = log st ++ audits output
    ++ [entry AUDIT "Processing Summary" (LReport (reportOf summaryContext));
        entry ERROR "Error in summarize stage" (LErr x)] /\
  mail st' = mail st ++ [(notification w summaryContext, false)].
Proof.
  intros Hr output Hsome Hsend st'. subst st'.
  rewrite (summarize_readable_run _ _ Hr). cbn [fst snd]. fold output.
  assert (Hcond : (0 <? length (items_of (latest SKIPPED_RECORDS output (JArr []))))%nat
                  || (0 <? length (items_of (latest ERROR_RECORDS output (JArr []))))%nat
                  = true).
  { apply orb_true_iff. destruct Hsome as [H|H]; [left|right];
      apply Nat.ltb_lt; lia. }
  rewrite Hcond, Hsend.
  cbn [logging mailing log mail]. repeat split.
  rewrite <- !app_assoc. reflexivity.
Qed.



End ReportProperties.

Section RunProperties.

Variable w : world.

(** X21.  The stages compose on one complete row.  Starting with nothing
    written, when the two ids of the row hold no underscore and do not make
    a reserved key, the account has a template, the voucher renders, the
    message is merged and accepted and the payment loads and saves: the run
    sends exactly one message, to the row's vendor, with the one voucher named
    after the row's key attached; it sets the checkbox of that payment and
    of no other record; and it hands nothing to [summarize], which logs a
    report and notifies nobody. *)
Theorem run_of_one_complete_row
    (mapContext : MapContext.t) (searchResult values : jsval) (st : state)
    (emailTemplateId : jsval) (more : list jsval)
    (pdfContent internalId : string) (mergeResult : string * string) :
  let accountId := to_string (get (get values "account") "value") in
  let vendorId := to_string (get (get values "entity") "value") in
  let transactionId := JStr (MapContext.key mapContext) in
  let e := groupEmail mergeResult (getParameter w SCRIPT_PARAM_EMAIL_AUTHOR)
             (JStr vendorId) [voucherFile transactionId pdfContent] in
  mapOutput st = [] ->
  reduceOutput st = [] ->
  JSON_parse (MapContext.value mapContext) = Ok searchResult ->
  get_prop searchResult "values" = Ok values ->
  nullish values = false ->
  (forall f, absent values f = false) ->
  contains underscore accountId = false ->
  contains underscore vendorId = false ->
  is_reserved (accountId +:+ "_" +:+ vendorId) = false ->
  emailTemplateSearch w (JStr accountId) = Ok (emailTemplateId :: more) ->
  renderAsPdf w (getParameter w SCRIPT_PARAM_PRINT_TEMPLATE_ID) transactionId
  = Ok pdfContent ->
  mergeEmail w emailTemplateId (getParameter w SCRIPT_PARAM_EMAIL_AUTHOR) (JStr vendorId)
  = Ok mergeResult ->
  email_send w e = Ok tt ->
  record_load w transactionId = Ok internalId ->
  record_save w internalId = Ok tt ->
  let st' := stages w [mapContext] st in
  mail st' = mail st ++ [(e, true)] /\
  recipients e = JStr vendorId /\
  List.map file_name (attachments e)
  = ["ACH_Payment_" +:+ MapContext.key mapContext +:+ ".pdf"] /\
  emailSent st' = <[internalId := true]> (emailSent st) /\
  reduceOutput st' = [] /\
  exists r, lastReport (log st') = Some r /\
            successfullyProcessed r = O /\
            count (skippedRecords r) = O /\
            count (errorRecords r) = O.
Proof.
  intros accountId vendorId transactionId e Hm Hr Hparse Hvalues Hnn Hall
         Hna Hnv Hkey Hsearch Hrender Hmerge Hsend Hload Hsave st'.
  set (k := accountId +:+ "_" +:+ vendorId) in *.
  set (v := JSON_stringify (orderObj (MapContext.key mapContext) values)).
  (* map *)
  assert (Hlen : (0 <? length (missingFields values))%nat = false).
  { rewrite missingFields_absent. unfold requiredFields. cbn [List.filter].
    rewrite !Hall. reflexivity. }
  pose proof (map_on_readable_row _ _ _ st Hparse Hvalues Hnn) as Hmap.
  cbv zeta in Hmap. rewrite Hlen in Hmap.
  fold v in Hmap. change (groupKey values) with k in Hmap.
  (* reduce *)
  set (g := ReduceContext.Build k [v]).
  destruct (groupKey_parts _ _ Hna Hnv) as [H0 H1]. fold k in H0, H1.
  assert (Hsearch' : emailTemplateSearch w
                       (index (split underscore (ReduceContext.key g)) 0)
                     = Ok (emailTemplateId :: more))
    by (cbn [ReduceContext.key g]; rewrite H0; exact Hsearch).
  assert (Hmerge' : mergeEmail w emailTemplateId (getParameter w SCRIPT_PARAM_EMAIL_AUTHOR)
                      (index (split underscore (ReduceContext.key g)) 1)
                    = Ok mergeResult)
    by (cbn [ReduceContext.key g]; rewrite H1; exact Hmerge).
  assert (Hids : transactionIds (ReduceContext.values g) = Ok [transactionId]).
  { cbn [ReduceContext.values g]. unfold v, JSON_stringify.
    rewrite (transactionIds_single
               (to_json (orderObj (MapContext.key mapContext) values)) eq_refl).
    now rewrite (proj1 (orderObj_fields _ _)). }
  assert (Hreduce : forall st1,
             reduce w g st1
             = (Ok tt,
                marking (<[internalId := true]> (emailSent st1))
                  (mailing e true
                     (logging (prelude w g emailTemplateId [transactionId] mergeResult)
                        st1)))).
  { intro st1. rewrite (reduce_ordinary w g st1 Hkey).
    rewrite (reduce_earlier_run w g st1 _ _ _ _ Hsearch' Hids Hmerge'), sendAndMark_run.
    cbn [ReduceContext.key g]. rewrite H1.
    cbn [vouchers]. rewrite Hrender. fold e. rewrite Hsend.
    cbv zeta. cbn [markAll emailSent logging]. rewrite Hload, Hsave.
    reflexivity. }
  (* the three stages *)
  subst st'. unfold stages. cbv zeta. cbn [stage]. rewrite Hmap.
  set (st1 := snd (mapContext_write k v _)).
  assert (Hmo : mapOutput st1 = [(k, v)])
    by (subst st1; unfold mapContext_write; cbn [snd mapOutput logging];
        rewrite Hm; reflexivity).
  assert (Hro : reduceOutput st1 = [])
    by (subst st1; unfold mapContext_write; cbn [snd reduceOutput logging];
        exact Hr).
  assert (Hml : mail st1 = mail st) by reflexivity.
  assert (Hes : emailSent st1 = emailSent st) by reflexivity.
  rewrite Hmo. cbn [shuffle fold_left fst snd addToGroup stage]. fold g.
  rewrite Hreduce. cbn [snd]. rewrite Hes.
  set (st2 := marking _ _).
  assert (Hout : SummaryContext.output (summaryContextOf w st2) = [])
    by (rewrite output_summaryContextOf; exact Hro).
  assert (Hread : readable (SummaryContext.output (summaryContextOf w st2)) = true)
    by (rewrite Hout; reflexivity).
  rewrite (summarize_readable_run w _ st2 Hread). cbv zeta. rewrite Hout.
  cbn [latest items_of length Nat.ltb Nat.leb orb snd].
  split; [subst st2; cbn [logging marking mailing mail]; now rewrite Hml|].
  split; [reflexivity|]. split; [reflexivity|].
  split; [reflexivity|]. split; [exact Hro|].
  exists (reportOf (summaryContextOf w st2)).
  split.
  - cbn [logging log]. rewrite !lastReport_app. reflexivity.
  - unfold reportOf. cbn [successfullyProcessed skippedRecords errorRecords].
    rewrite Hout. repeat split.
Qed.

End RunProperties.

(** ** The further properties on the deployment *)

(** X1 on a search of two rows. *)
Lemma getInputData_returns_payments_101_and_105 :
  let w := Office.deployment [Office.payment101; Office.payment105] [] [] false in
  fst (getInputData w initial) = Ok [Office.payment101; Office.payment105] /\
  List.map title (log (snd (getInputData w initial)))
  = ["Script Parameters"; "Input Data Records"].
Proof.
  intro w.
  rewrite (getInputData_returns_the_rows w
             [Office.payment101; Office.payment105] initial).
  - split; reflexivity.
  - intros parameter [<-|[<-|[<-|[]]]]; reflexivity.
  - reflexivity.
Defined.

(** X2 where the saved search has been deleted. *)
Lemma getInputData_halts_when_the_search_is_gone :
  let w := Outage.searchGone (Office.deployment [Office.payment101] [] [] false) in
  fst (getInputData w initial)
  = Throw (Error ("Invalid search ID (customsearch_eligible_ach): "
                  +:+ "That search or mass update does not exist.")) /\
  mapOutput (run w initial) = [] /\
  mail (run w initial) = [].
Proof.
  intro w.
  destruct (getInputData_wraps_the_load_error w
              (Error "That search or mass update does not exist.") initial)
    as [Hget Hrun].
  - intros parameter [<-|[<-|[<-|[]]]]; reflexivity.
  - reflexivity.
  - rewrite Hget, Hrun. repeat split.
Defined.

(** X3 where the author parameter is unset. *)
Lemma getInputData_logs_the_error_of_the_unset_author :
  let w := Office.without [SCRIPT_PARAM_EMAIL_AUTHOR] (Office.deployment [] [] [] false) in
  last (log (snd (getInputData w initial)))
  = Some (entry ERROR "Error in getInputData"
            (LErr (Error "Required script parameter(s) not configured: Email Author"))).
Proof.
  intro w.
  apply (proj2 (proj2 (getInputData_logs_what_it_throws w initial))).
  reflexivity.
Defined.

(** X6 on [payment110], which has no account. *)
Lemma map_earlier_drops_payment110 :
  fst (map_earlier Outage.payment110 initial) = Ok tt /\
  mapOutput (snd (map_earlier Outage.payment110 initial)) = [] /\
  List.map title (log (snd (map_earlier Outage.payment110 initial)))
  = ["Map Input"; "Error in map function"].
Proof.
  destruct (map_earlier_drops_row_without_account_or_entity Outage.payment110 _ _ initial
              eq_refl eq_refl eq_refl (or_introl eq_refl)) as [msg [Hrun _]].
  rewrite Hrun. repeat split.
Defined.

(** X7 on [payment102], which has an account and an entity but no vendor
    email. *)
Lemma map_earlier_writes_payment102 :
  exists order,
    mapOutput (snd (map_earlier Office.payment102 initial))
    = [("A1_V3", Serialized order)] /\
    get order "orderId" = JStr "102".
Proof.
  destruct (map_earlier_requires_the_account_only Office.payment102 _ _ initial
              eq_refl eq_refl eq_refl eq_refl eq_refl)
    as [order [_ [Hout [Hid _]]]].
  exists order. split; [exact Hout | exact Hid].
Defined.

(** X8 on [payment101]. *)
Lemma revisions_of_map_agree_on_payment101 :
  exists key earlier later,
    mapOutput (snd (map_earlier Office.payment101 initial)) = [(key, Serialized earlier)] /\
    mapOutput (snd (map Office.payment101 initial)) = [(key, Serialized later)] /\
    transactionIds [Serialized earlier] = Ok [JStr "101"] /\
    transactionIds [Serialized later] = Ok [JStr "101"] /\
    get earlier "vendorEmail" = JUndefined.
Proof.
  apply (revisions_of_map_agree_on_complete_rows Office.payment101 _ _ initial
           eq_refl eq_refl eq_refl).
  intros []; reflexivity.
Defined.

(** X10 where the template search runs out of governance units. *)
Lemma reduce_only_logs_when_the_template_search_fails :
  let w := Outage.templatesDown (Office.deployment [] [] [] false) in
  let st' := snd (reduce w Office.group initial) in
  fst (reduce w Office.group initial) = Ok tt /\
  mail st' = [] /\
  reduceOutput st' = [] /\
  List.map title (log st') = ["A1_V1"; "searchRelatedEmailTemplate"; "reduce"].
Proof.
  intros w st'. subst st'.
  rewrite (reduce_logs_a_failed_template_search w Office.group initial
             (Error "SSS_USAGE_LIMIT_EXCEEDED") eq_refl eq_refl).
  repeat split.
Defined.

(** X11 on the group of [A1] and [V1] with a value cut short: neither
    payment 101 nor payment 105 gets its mail. *)
Lemma reduce_drops_the_damaged_group :
  let w := Office.deployment [] [] [] false in
  let st' := snd (reduce w Outage.damagedGroup initial) in
  mail st' = [] /\
  emailSent st' = emailSent initial /\
  exists x, last (log st') = Some (entry ERROR "reduce" (LErr x)).
Proof.
  intros w st'. subst st'.
  destruct (reduce_drops_group_with_unreadable_value w Outage.damagedGroup initial
              (JStr "55") [] eq_refl eq_refl) as [x Hrun].
  - exists (Malformed "Unexpected end of JSON input"). split.
    + apply in_or_app. right. left. reflexivity.
    + intros orderObj H. discriminate H.
  - rewrite Hrun. split; [reflexivity|]. split; [reflexivity|].
    exists x. reflexivity.
Defined.

(** X12 where no record saves: a checkbox set before the stage stays set. *)
Lemma reduce_stage_keeps_the_checkbox_of_101 :
  let w := Office.deployment [] [] ["101"; "105"] false in
  let st := marking (<["101" := true]> ∅) initial in
  emailSent (stage (reduce w) [Office.group] st) !! "101" = Some true.
Proof.
  intros w st.
  apply (proj2 (reduce_stage_only_sets_checkboxes w [Office.group] st "101")).
  apply lookup_insert_eq.
Defined.

(** X13 on the bucket of the skipped rows [payment104] and [payment102]. *)
Lemma reduce_passes_the_skipped_bucket_through :
  let w := Office.deployment [] [] [] false in
  let st' := snd (reduce w Outage.skippedBucket initial) in
  mail st' = [] /\
  emailSent st' = emailSent initial /\
  exists records,
    length records = 2%nat /\
    reduceOutput st' = [(SKIPPED_RECORDS, Serialized (JArr records))].
Proof.
  intros w st'. subst st'.
  destruct (reduce_passes_a_bucket_through_or_loses_it w Outage.skippedBucket initial
              eq_refl) as [_ [Hmail [Hset [Hall _]]]].
  destruct Hall as [records [Hlen [Hout _]]].
  - intros value Hin. vm_compute in Hin.
    destruct Hin as [<-|[<-|[]]]; eexists; reflexivity.
  - split; [exact Hmail|]. split; [exact Hset|].
    exists records. split; [exact Hlen | exact Hout].
Defined.

(** X14 on the records of that bucket. *)
Lemma reduce_writes_the_records_of_the_skipped_bucket :
  let w := Office.deployment [] [] [] false in
  length Outage.recordsOfBucket = 2%nat /\
  reduce w (ReduceContext.Build SKIPPED_RECORDS
              (List.map Serialized Outage.recordsOfBucket)) initial
  = (Ok tt,
     outputting SKIPPED_RECORDS (Serialized (JArr Outage.recordsOfBucket)) initial).
Proof.
  intro w. split; [reflexivity|].
  apply (reduce_passes_records_through_unchanged w); reflexivity.
Defined.

(** X15 where neither voucher renders: the message goes out bare. *)
Lemma reduce_sends_without_attachment_when_nothing_renders :
  let w := Office.deployment [] ["101"; "105"] [] false in
  exists e accepted,
    mail (snd (reduce w Office.group initial)) = [(e, accepted)] /\
    recipients e = JStr "V1" /\
    attachments e = [].
Proof.
  intro w.
  destruct (reduce_attaches_the_vouchers_that_render w Office.group initial
              (JStr "55") [] [JStr "101"; JStr "105"]
              ("Your ACH payment", "Please find your vouchers attached.")
              eq_refl eq_refl eq_refl eq_refl)
    as [e [accepted [Hmail [_ [Hto [_ [_ [_ Hnone]]]]]]]].
  exists e, accepted. split; [exact Hmail|]. split; [exact Hto|].
  apply Hnone. intros id [<-|[<-|[]]]; reflexivity.
Defined.

(** X16 on the values of [A1] and [V1] under the key [A1]. *)
Lemma reduce_addresses_nobody_under_key_A1 :
  let w := Office.deployment [] [] [] false in
  exists e accepted,
    mail (snd (reduce w Outage.groupOfAccount initial)) = [(e, accepted)] /\
    recipients e = JUndefined.
Proof.
  intro w.
  apply (proj1 (reduce_addresses_nobody_for_key_without_underscore w
                  Outage.groupOfAccount initial (JStr "55") []
                  [JStr "101"; JStr "105"] eq_refl eq_refl eq_refl)
           ("Your ACH payment", "Please find your vouchers attached.")).
  reflexivity.
Defined.

(** X22 where the merge refuses the undefined vendor of the key [A1]: both
    vouchers have been rendered and nothing is sent. *)
Lemma reduce_only_logs_when_the_merge_refuses :
  let w := Outage.mergeNeedsVendor (Office.deployment [] [] [] false) in
  let st' := snd (reduce w Outage.groupOfAccount initial) in
  fst (reduce w Outage.groupOfAccount initial) = Ok tt /\
  mail st' = [] /\
  emailSent st' = emailSent initial /\
  reduceOutput st' = [] /\
  List.map title (log st')
  = ["A1"; "Email Template ID"; "Email Author ID"; "Transactions ID";
     "Generated PDF Files"; "reduce"].
Proof.
  intros w st'. subst st'.
  rewrite (reduce_logs_a_failed_merge w Outage.groupOfAccount initial
             (JStr "55") [] [JStr "101"; JStr "105"]
             (Error "Invalid recipient reference") eq_refl eq_refl eq_refl eq_refl).
  repeat split.
Defined.

(** X18 after three rows, one of them skipped. *)
Lemma summarize_notifies_about_one_skipped_row :
  let w := Office.deployment [] [] [] false in
  let rows := [Office.payment101; Office.payment102; Office.payment103] in
  let summaryContext := fst (Outage.summaryOf w rows) in
  let st := snd (Outage.summaryOf w rows) in
  exists e accepted,
    mail (snd (summarize w summaryContext st)) = mail st ++ [(e, accepted)] /\
    subject e = "ACH Payment Processing Report: 1 Skipped, 0 Errors".
Proof.
  intros w rows summaryContext st.
  destruct (proj2 (summarize_notifies_when_a_bucket_holds_records w summaryContext st
                     eq_refl))
    as [e [accepted [Hmail [_ Hsubject]]]].
  - left. vm_compute. discriminate.
  - exists e, accepted. split; [exact Hmail | exact Hsubject].
Defined.

(** X19 after the same rows, where the transport refuses every message. *)
Lemma summarize_logs_the_refusal_of_the_report :
  let w := Office.deployment [] [] [] true in
  let rows := [Office.payment101; Office.payment102; Office.payment103] in
  let summaryContext := fst (Outage.summaryOf w rows) in
  let st := snd (Outage.summaryOf w rows) in
  let st' := snd (summarize w summaryContext st) in
  fst (summarize w summaryContext st) = Ok tt /\
  log st'
  = log st ++ audits (SummaryContext.output summaryContext)
    ++ [entry AUDIT "Processing Summary" (LReport (reportOf summaryContext));
        entry ERROR "Error in summarize stage" (LErr (Error "SSS_INVALID_TO_EMAIL"))] /\
  mail st' = mail st ++ [(notification w summaryContext, false)].
Proof.
  intros w rows summaryContext st.
  apply (summarize_logs_a_refused_notification w summaryContext st
           (Error "SSS_INVALID_TO_EMAIL") eq_refl).
  - left. vm_compute. discriminate.
  - reflexivity.
Defined.


(** X21 on [payment101]. *)
Lemma run_of_payment101 :
  let w := Office.deployment [] [] [] false in
  let st' := stages w [Office.payment101] initial in
  List.map (fun m => (recipients (fst m), List.map file_name (attachments (fst m)), snd m))
    (mail st')
  = [(JStr "V1", ["ACH_Payment_101.pdf"], true)] /\
  emailSent st' = <["101" := true]> ∅ /\
  reduceOutput st' = [].
Proof.
  intros w st'. subst st'.
  destruct (run_of_one_complete_row w Office.payment101 _
              (Office.valuesOf Office.payment101) initial (JStr "55") []
              "%PDF-1.4 voucher 101" "101"
              ("Your ACH payment", "Please find your vouchers attached.")
              eq_refl eq_refl eq_refl eq_refl eq_refl)
    as [Hmail [_ [_ [Hset [Hout _]]]]]; try reflexivity.
  - intros []; reflexivity.
  - rewrite Hmail, Hset. split; [reflexivity|]. split; [reflexivity | exact Hout].
Defined.
